(** * ADHDone AI personalization helper: a shallow embedding

    The embedded script (the part of [authRedirectBootstrap.ts] that
    installs [window.AdhdoneAI]) keeps one process-wide state object with
    three fields: a map of per-task interaction state, a map of the last
    suggestion per task, and the log of submitted brain dumps.  This file
    embeds its functions as Rocq functions over an explicit state and
    proves the properties the written description promises.

    Conventions of the embedding.
    - JavaScript numbers are doubles.  The skip counter and the epoch
      milliseconds hold integers and are embedded as [Z]; the one
      addition the script makes on the counter is rounded to the nearest
      double ([js_add]), so that it stops growing at 2^53.  The numbers
      the script multiplies and rounds are rationals [Q], which is exact
      for every finite double because halving and [Math.round] are exact.
    - A string is a sequence of code units below 256, one [ascii] each.
    - The objects used as dictionaries ([state.tasks],
      [state.lastSuggestion]) are plain objects: their own properties are
      a [gmap string _], and reading a name that is no own property finds
      what [Object.prototype] holds under it, if anything
      ([get_property]).  Nothing the script does creates an own property
      under such a name.
    - [localStorage], [fetch], the clock and [JSON.parse] belong to the
      host; what they answer during one call is collected in [Env], and
      every theorem quantifies over it.
    - The body of an [async] function is embedded as the function that
      maps the state before the call to the state after it and the way
      the body ends: [Returned v], or [Threw msg] for an exception that
      leaves it.  The caller of an [async] function never sees the
      exception: it gets a promise, fulfilled in the first case and
      rejected in the second ([async_function]).  Calls do not overlap.
    - The [onSuggestion] callback of a caller is embedded by what it does
      to the call: it returns, or it throws.
    - The script mutates the task state object it got from
      [getTaskState] in place; the embedding writes the new task state back
      under the same key, which is what a reader of [state.tasks] sees.
    - [persistState] writes the whole state to storage after each
      mutation and swallows every failure; the state in memory does not
      depend on it, so the operations are embedded without it and the
      storage helpers separately, in [Store].  A state loaded from storage
      is one an earlier session left there. *)

From Stdlib Require Import ZArith QArith Qround Lia Lqa Ascii String.
From stdpp Require Import base strings list gmap pretty.

Close Scope Q_scope.
Open Scope Z_scope.

(** ** JavaScript values *)

(** A value as [JSON.parse] produces it. *)
#[local] Unset Elimination Schemes.
Inductive json : Type :=
| JNull
| JBool (b : bool)
| JNum (q : Q)
| JStr (s : string)
| JArr (elems : list json)
| JObj (fields : list (string * json)).
#[local] Set Elimination Schemes.

(** Truthiness, as [!x], [x || y] and [if (x)] read it. *)
Definition truthy_str (s : string) : bool :=
  match s with
  | EmptyString => false
  | String _ _ => true
  end.

Definition truthy (v : json) : bool :=
  match v with
  | JNull => false
  | JBool b => b
  | JNum q => negb (Qeq_bool q 0)
  | JStr s => truthy_str s
  | JArr _ | JObj _ => true
  end.

Fixpoint assoc_get {A : Type} (key : string) (l : list (string * A)) : option A :=
  match l with
  | [] => None
  | (k, v) :: rest => if String.eqb k key then Some v else assoc_get key rest
  end.

(** [parsed.key]: an own property of an object, [undefined] ([None]) on
    anything else (none of the keys the script reads on a parsed value is
    inherited by objects, by arrays or by the wrappers of primitives). *)
Definition get_prop (key : string) (v : json) : option json :=
  match v with
  | JObj fields => assoc_get key fields
  | _ => None
  end.

Definition is_object (v : json) : bool :=
  match v with
  | JArr _ | JObj _ => true
  | _ => false
  end.

(** What a caller may leave in [context.reminderIntervalMinutes]: nothing,
    one of the values JavaScript reads as false, or a finite number.  (A
    non-empty string or an object would go through [ToNumber], which is
    not modelled.) *)
Inductive IntervalField : Type :=
| IvUndefined
| IvNull
| IvNaN
| IvEmptyString
| IvBool (b : bool)
| IvNum (q : Q).

Definition truthy_interval (v : IntervalField) : bool :=
  match v with
  | IvBool b => b
  | IvNum q => negb (Qeq_bool q 0)
  | _ => false
  end.

(** [ToNumber] on the truthy values of [IntervalField]. *)
Definition interval_to_number (v : IntervalField) : Q :=
  match v with
  | IvNum q => q
  | IvBool true => 1%Q
  | _ => 0%Q
  end.

(** The double nearest to an integer of magnitude below 2^1024, a tie
    going to the even significand.  Up to 2^53 every integer is a
    double; above, the doubles are 2, then 4, ... apart. *)
Definition to_double (m : Z) : Z :=
  let a := Z.abs m in
  if a <? 2 ^ 53 then m
  else
    let ulp := 2 ^ (Z.log2 a - 52) in
    let q := a / ulp in
    let r := a mod ulp in
    let q := if 2 * r <? ulp then q
             else if ulp <? 2 * r then q + 1
             else if Z.even q then q else q + 1 in
    Z.sgn m * (q * ulp).

(** [x + y] on two doubles that hold integers. *)
Definition js_add (x y : Z) : Z := to_double (x + y).

(** The properties every plain object inherits from [Object.prototype]:
    its methods and the accessor [__proto__].  Each of them holds a
    function or an object, which reads as true. *)
Definition OBJECT_PROTOTYPE : list string :=
  [ "constructor"; "hasOwnProperty"; "isPrototypeOf"; "propertyIsEnumerable";
    "toLocaleString"; "toString"; "valueOf"; "__proto__";
    "__defineGetter__"; "__defineSetter__"; "__lookupGetter__"; "__lookupSetter__" ].

Definition inherited (name : string) : bool :=
  existsb (String.eqb name) OBJECT_PROTOTYPE.

(** What [obj[name]] finds on a plain object used as a dictionary. *)
Inductive property (A : Type) : Type :=
| Missing                      (* [undefined] *)
| Own (value : A)              (* an own property *)
| Inherited (name : string).   (* what [Object.prototype] holds under [name] *)
Arguments Missing {A}.
Arguments Own {A} value.
Arguments Inherited {A} name.

Definition get_property {A : Type} (obj : gmap string A) (name : string) : property A :=
  match obj !! name with
  | Some value => Own value
  | None => if inherited name then Inherited name else Missing
  end.

(** [Math.round]: the nearest integer, a tie going to the larger one. *)
Definition Math_round (q : Q) : Z := Qfloor (q + (1 # 2))%Q.

Definition Math_max (a b : Z) : Z := Z.max a b.

(** ** Strings *)

(** White space as [String.prototype.trim] removes it, among the code
    units below 256: TAB, LF, VT, FF, CR, SP and NBSP. *)
Definition is_white_space (c : ascii) : bool :=
  let n := nat_of_ascii c in
  ((9 <=? n)%nat && (n <=? 13)%nat) || (n =? 32)%nat || (n =? 160)%nat.

Fixpoint trim_start (s : string) : string :=
  match s with
  | EmptyString => EmptyString
  | String c rest => if is_white_space c then trim_start rest else s
  end.

Fixpoint trim_end (s : string) : string :=
  match s with
  | EmptyString => EmptyString
  | String c rest =>
      match trim_end rest with
      | EmptyString => if is_white_space c then EmptyString else String c EmptyString
      | kept => String c kept
      end
  end.

Definition trim (s : string) : string := trim_end (trim_start s).

(** Case folding of the [i] flag for a pattern of ASCII letters: only the
    ASCII capital of a letter is equivalent to it. *)
Definition fold_case (c : ascii) : ascii :=
  let n := nat_of_ascii c in
  if ((65 <=? n)%nat && (n <=? 90)%nat) then ascii_of_nat (n + 32) else c.

Fixpoint starts_with_ci (pat text : string) : bool :=
  match pat, text with
  | EmptyString, _ => true
  | String _ _, EmptyString => false
  | String p pat', String c text' =>
      Ascii.eqb (fold_case p) (fold_case c) && starts_with_ci pat' text'
  end.

Fixpoint contains_ci (pat text : string) : bool :=
  starts_with_ci pat text ||
  match text with
  | EmptyString => false
  | String _ text' => contains_ci pat text'
  end.

(** [/k1|k2|.../i.test(text)]: some alternative occurs in the text. *)
Definition regex_test (alternatives : list string) (text : string) : bool :=
  existsb (fun kw => contains_ci kw text) alternatives.

Definition quote_mark : string := String (ascii_of_nat 34) EmptyString.

(** ** Data model *)

Record Context : Type := mkContext {
  description : option string;
  baselineStep : option string;
  ctx_reminderIntervalMinutes : IntervalField;
}.

(** The default [{}]. *)
Definition empty_context : Context :=
  {| description := None; baselineStep := None;
     ctx_reminderIntervalMinutes := IvUndefined |}.

Record InteractionEntry : Type := mkEntry {
  entry_action : string;
  entry_timestamp : string;
  entry_context : Context;
}.

Record TaskState : Type := mkTaskState {
  history : list InteractionEntry;
  consecutiveSkips : Z;
  lastSuggestionTimestamp : Z;
}.

Record Adjustments : Type := mkAdjustments {
  suggestedStartStep : option json;
  reminderIntervalMinutes : option json;
}.

Record Suggestion : Type := mkSuggestion {
  sg_taskId : string;
  reason : string;
  message : json;
  recommendedAdjustments : Adjustments;
  rawResponse : option json;
  error : option string;
}.

Record BrainDumpRecord : Type := mkBrainDumpRecord {
  items : list string;
  timestamp : string;
}.

Record GlobalState : Type := mkState {
  tasks : gmap string TaskState;
  lastSuggestion : gmap string Suggestion;
  brainDumpHistory : list BrainDumpRecord;
}.

(** The skeleton the state starts from when storage holds nothing. *)
Definition initial_state : GlobalState :=
  {| tasks := ∅; lastSuggestion := ∅; brainDumpHistory := [] |}.

(** ** The host environment during one call *)

Record Response : Type := mkResponse {
  ok : bool;
  status : N;
  (** [errorPayload?.error?.message] of a failed request, when the body
      is JSON and carries one *)
  error_message : option string;
  (** the message [response.json()] rejects with on a 2xx answer whose
      body is not JSON *)
  body_error : option string;
  (** [payload?.output?.[0]?.content?.[0]?.text] when it is a string *)
  output_text : option string;
}.

Inductive FetchOutcome : Type :=
| FetchRejected (msg : string)
| FetchResponse (r : Response).

Record Env : Type := mkEnv {
  has_fetch : bool;                       (* [global.fetch] is defined *)
  stored_api_key : string;                (* what [getApiKey] reads *)
  fetch : FetchOutcome;                   (* how the one request settles *)
  JSON_parse : string -> option json;     (* [None]: a SyntaxError *)
  (** the message of the TypeError strict mode raises when a property is
      assigned on a primitive *)
  primitive_assignment_message : string;
  (** the message of the TypeError raised when a property of [undefined]
      is read *)
  undefined_property_message : string;
  nowMs : Z;                              (* [Date.now()] *)
  nowIso : string;                        (* [new Date().toISOString()] *)
}.

(** How the body of a function ends: with an exception that leaves it,
    or with a value. *)
Inductive outcome (A : Type) : Type :=
| Threw (msg : string)
| Returned (value : A).
Arguments Threw {A} msg.
Arguments Returned {A} value.

Definition threw {A : Type} (o : outcome A) : bool :=
  match o with
  | Threw _ => true
  | Returned _ => false
  end.

(** What the caller of a function gets: an exception thrown at the call,
    or a promise together with the way it settles. *)
Inductive invocation (A : Type) : Type :=
| ThrownAtCall (msg : string)
| Promise (settled : outcome A).
Arguments ThrownAtCall {A} msg.
Arguments Promise {A} settled.

(** A function declared [async] answers every call with a promise: the
    value its body returns fulfils it, an exception that leaves its body
    rejects it. *)
Definition async_function {A : Type} (body : outcome A) : invocation A :=
  Promise body.

Definition rejected {A : Type} (i : invocation A) : bool :=
  match i with
  | Promise (Threw _) => true
  | _ => false
  end.

(** ** Persistent state store *)

Definition safeParse (env : Env) (text : string) (fallback : json) : json :=
  if negb (truthy_str text) then fallback
  else match JSON_parse env text with
       | Some v => v
       | None => fallback
       end.

Definition getApiKey (env : Env) : string := stored_api_key env.

(** ** Task interaction tracker *)

Definition new_task_state : TaskState :=
  {| history := []; consecutiveSkips := 0; lastSuggestionTimestamp := 0 |}.

(** What [getTaskState] hands back: a task state held in [state.tasks],
    or, for an id that names an inherited property, the built-in function
    or object found under that name. *)
Inductive TaskRef : Type :=
| StoredTask (taskState : TaskState)
| BuiltIn (name : string).

(** Reads [state.tasks[taskId]] and returns what it finds when that reads
    as true; creates and stores a fresh task state otherwise. *)
Definition getTaskState (s : GlobalState) (taskId : string) : GlobalState * TaskRef :=
  match get_property (tasks s) taskId with
  | Own existing => (s, StoredTask existing)
  | Inherited name => (s, BuiltIn name)
  | Missing =>
      ({| tasks := <[taskId := new_task_state]> (tasks s);
          lastSuggestion := lastSuggestion s;
          brainDumpHistory := brainDumpHistory s |},
       StoredTask new_task_state)
  end.

Definition MAX_HISTORY : nat := 50.

(** [push], then [splice(0, length - MAX_HISTORY)] when too long. *)
Definition trackHistory (taskState : TaskState) (entry : InteractionEntry) : TaskState :=
  let pushed := history taskState ++ [entry] in
  {| history :=
       if (MAX_HISTORY <? length pushed)%nat
       then drop (length pushed - MAX_HISTORY) pushed
       else pushed;
     consecutiveSkips := consecutiveSkips taskState;
     lastSuggestionTimestamp := lastSuggestionTimestamp taskState |}.

Record ReminderSummary : Type := mkSummary {
  sm_taskId : string;
  sm_consecutiveSkips : Z;
  recentInteractions : list InteractionEntry;
  sm_context : Context;
}.

(** [history.slice(-5)] *)
Definition buildReminderSummary (taskId : string) (taskState : TaskState)
    (context : Context) : ReminderSummary :=
  {| sm_taskId := taskId;
     sm_consecutiveSkips := consecutiveSkips taskState;
     recentInteractions := drop (length (history taskState) - 5) (history taskState);
     sm_context := context |}.

(** ** Completion client *)

Definition MISSING_KEY : string := "Missing OpenAI API key".
Definition UNEXPECTED_FORMAT : string := "OpenAI returned an unexpected response format".

Definition request_failed_message (r : Response) : string :=
  match error_message r with
  | Some m => if truthy_str m then m
              else "OpenAI request failed with status " +:+ pretty (status r)
  | None => "OpenAI request failed with status " +:+ pretty (status r)
  end.

(** One request; the trimmed text of the answer, or the error thrown. *)
Definition callOpenAI (env : Env) : outcome string :=
  if negb (truthy_str (getApiKey env)) then Threw MISSING_KEY
  else match fetch env with
       | FetchRejected msg => Threw msg
       | FetchResponse r =>
           if negb (ok r) then Threw (request_failed_message r)
           else match body_error r with
                | Some msg => Threw msg
                | None =>
                    match output_text r with
                    | Some text =>
                        if negb (truthy_str (trim text)) then Threw UNEXPECTED_FORMAT
                        else Returned (trim text)
                    | None => Threw UNEXPECTED_FORMAT
                    end
                end
       end.

(** ** Suggestion generator *)

Definition DEFAULT_START_STEP : string :=
  "Set a 2-minute timer and only prep the very first thing.".

(** [pretty] writes the decimal numeral, as JavaScript does for an
    integer below 10^21; a counter never gets past 2^53 by counting. *)
Definition fallback_message (skips : Z) : string :=
  "You've skipped this task " +:+ pretty skips +:+ " times. " +:+
  "Try choosing a smaller first step and consider shortening the reminder interval.".

(** [(context.reminderIntervalMinutes || 45) * 0.5], rounded and floored
    at 15. *)
Definition fallback_interval (v : IntervalField) : Z :=
  Math_max 15
    (Math_round ((if truthy_interval v then interval_to_number v else 45%Q) * (1 # 2))%Q).

Definition fallbackReminderSuggestion (summary : ReminderSummary) : Suggestion :=
  {| sg_taskId := sm_taskId summary;
     reason := "consecutive-skips";
     message := JStr (fallback_message (sm_consecutiveSkips summary));
     recommendedAdjustments :=
       {| suggestedStartStep :=
            Some (JStr (match baselineStep (sm_context summary) with
                        | Some step => if truthy_str step then step else DEFAULT_START_STEP
                        | None => DEFAULT_START_STEP
                        end));
          reminderIntervalMinutes :=
            Some (JNum (inject_Z
              (fallback_interval (ctx_reminderIntervalMinutes (sm_context summary))))) |};
     rawResponse := None;
     error := None |}.

(** [Object.assign(suggestion, {rawResponse: text})] and
    [Object.assign(suggestion, {error: msg})]. *)
Definition with_rawResponse (sg : Suggestion) (raw : json) : Suggestion :=
  {| sg_taskId := sg_taskId sg; reason := reason sg; message := message sg;
     recommendedAdjustments := recommendedAdjustments sg;
     rawResponse := Some raw; error := error sg |}.

Definition with_error (sg : Suggestion) (msg : string) : Suggestion :=
  {| sg_taskId := sg_taskId sg; reason := reason sg; message := message sg;
     recommendedAdjustments := recommendedAdjustments sg;
     rawResponse := rawResponse sg; error := Some msg |}.

Definition DEFAULT_MODEL_MESSAGE : string :=
  "Let's tweak this reminder with something gentler and more specific.".

(** The request itself (model, temperature, prompt) is not part of the
    embedding: whatever is sent, the answer is the one [env] holds. *)
Definition generateReminderAdjustments (env : Env) (summary : ReminderSummary)
    (forceFallback : bool) : Suggestion :=
  if negb (has_fetch env) || forceFallback then fallbackReminderSuggestion summary
  else match callOpenAI env with
       | Returned text =>
           let parsed := safeParse env text JNull in
           if negb (truthy parsed)
           then with_rawResponse (fallbackReminderSuggestion summary) (JStr text)
           else {| sg_taskId := sm_taskId summary;
                   reason := "consecutive-skips";
                   message :=
                     match get_prop "message" parsed with
                     | Some m => if truthy m then m else JStr DEFAULT_MODEL_MESSAGE
                     | None => JStr DEFAULT_MODEL_MESSAGE
                     end;
                   recommendedAdjustments :=
                     {| suggestedStartStep := get_prop "suggestedStartStep" parsed;
                        reminderIntervalMinutes := get_prop "reminderIntervalMinutes" parsed |};
                   rawResponse := Some parsed;
                   error := None |}
       | Threw msg => with_error (fallbackReminderSuggestion summary) msg
       end.

Definition ONE_HOUR : Z := 60 * 60 * 1000.

Definition shouldThrottleSuggestion (taskState : TaskState) (nowMs : Z) : bool :=
  nowMs - lastSuggestionTimestamp taskState <? ONE_HOUR.

(** ** Public operations *)

(** The argument object of [recordReminderInteraction].  An absent
    [taskId] or [action] is the empty string ([!x] reads both alike); an
    absent timestamp defaults to the clock, an absent context to [{}].
    [arg_onSuggestion] is the callback when the caller passed a function:
    applied to the suggestion it answers [None] when it returns and the
    message of what it throws otherwise.  (A callback that calls back into
    the script or writes to the suggestion is not modelled.) *)
Record ReminderArgs : Type := mkArgs {
  arg_taskId : string;
  arg_action : string;
  arg_timestamp : option string;
  arg_context : option Context;
  arg_onSuggestion : option (Suggestion -> option string);
  arg_forceFallback : bool;
}.

Definition REQUIRES_IDS : string :=
  "recordReminderInteraction requires a taskId and action".

(** The counter update: [+= 1] on a skip, [= 0] on complete or snooze,
    compared with [===]. *)
Definition update_skips (action : string) (taskState : TaskState) : TaskState :=
  if String.eqb action "skip" then
    {| history := history taskState;
       consecutiveSkips := js_add (consecutiveSkips taskState) 1;
       lastSuggestionTimestamp := lastSuggestionTimestamp taskState |}
  else if String.eqb action "complete" || String.eqb action "snooze" then
    {| history := history taskState;
       consecutiveSkips := 0;
       lastSuggestionTimestamp := lastSuggestionTimestamp taskState |}
  else taskState.

(** The mutated task state, as [state.tasks[taskId]] now reads. *)
Definition store_task (s : GlobalState) (taskId : string) (taskState : TaskState)
    : GlobalState :=
  {| tasks := <[taskId := taskState]> (tasks s);
     lastSuggestion := lastSuggestion s;
     brainDumpHistory := brainDumpHistory s |}.

Definition recordReminderInteraction (env : Env) (s : GlobalState) (a : ReminderArgs)
    : GlobalState * outcome (option Suggestion) :=
  let taskId := arg_taskId a in
  let action := arg_action a in
  let timestamp := default (nowIso env) (arg_timestamp a) in
  let context := default empty_context (arg_context a) in
  if negb (truthy_str taskId) || negb (truthy_str action) then (s, Threw REQUIRES_IDS)
  else
    match getTaskState s taskId with
    | (s, BuiltIn _) =>
        (* the counter update lands on the built-in object, which is no
           part of the state; its [history] is [undefined], and [push]
           cannot be read from it *)
        (s, Threw (undefined_property_message env))
    | (s, StoredTask taskState) =>
        let actionEntry :=
          {| entry_action := action; entry_timestamp := timestamp;
             entry_context := context |} in
        let taskState := update_skips action taskState in
        let taskState := trackHistory taskState actionEntry in
        let s := store_task s taskId taskState in
        let summary := buildReminderSummary taskId taskState context in
        let nowMs := nowMs env in
        if (3 <=? consecutiveSkips taskState) && negb (shouldThrottleSuggestion taskState nowMs)
        then
          let suggestion := generateReminderAdjustments env summary (arg_forceFallback a) in
          let taskState :=
            {| history := history taskState;
               consecutiveSkips := consecutiveSkips taskState;
               lastSuggestionTimestamp := nowMs |} in
          let s :=
            {| tasks := <[taskId := taskState]> (tasks s);
               lastSuggestion := <[taskId := suggestion]> (lastSuggestion s);
               brainDumpHistory := brainDumpHistory s |} in
          match arg_onSuggestion a with
          | Some onSuggestion =>
              match onSuggestion suggestion with
              | Some msg => (s, Threw msg)
              | None => (s, Returned (Some suggestion))
              end
          | None => (s, Returned (Some suggestion))
          end
        else (s, Returned None)
    end.

(** [state.lastSuggestion?.[taskId] || null]: a stored suggestion is an
    object and what [Object.prototype] holds is a function or an object,
    so both read as true and are returned; [Missing] stands for the
    [null] returned otherwise. *)
Definition getLastSuggestion (s : GlobalState) (taskId : string) : property Suggestion :=
  get_property (lastSuggestion s) taskId.

(** [delete] removes an own property and nothing else. *)
Definition resetTaskHistory (s : GlobalState) (taskId : string) : GlobalState :=
  if negb (truthy_str taskId) then s
  else {| tasks := delete taskId (tasks s);
          lastSuggestion := delete taskId (lastSuggestion s);
          brainDumpHistory := brainDumpHistory s |}.

(** ** Brain dump organizer *)

(** The result object of the heuristic categorizer.  [categories] keeps
    the order in which its keys were created, which is the order
    [Object.entries] and [Object.keys] enumerate them in. *)
Record BrainDumpOutput : Type := mkOutput {
  categories : list (string * list string);
  focusRecommendation : string;
  summary : string;
  out_rawResponse : option string;
  out_error : option string;
}.

(** Each rule is a label and the alternatives of its pattern. *)
Definition focusBuckets : list (string * list string) :=
  [ ("2-minute Wins", ["call"; "email"; "text"; "pay"; "tidy"]);
    ("Prep & Planning", ["plan"; "prepare"; "research"; "outline"]);
    ("Deep Work", ["write"; "design"; "build"; "develop"; "analyze"]);
    ("Personal Care",
      ["cook"; "exercise"; "meditate"; "laundry"; "clean"; "rest"; "self"]) ].

Definition MISCELLANEOUS : string := "Miscellaneous".

(** [focusBuckets.find(candidate => candidate.matcher.test(text))] *)
Definition bucket_label (text : string) : string :=
  match List.find (fun candidate => regex_test (snd candidate) text) focusBuckets with
  | Some bucket => fst bucket
  | None => MISCELLANEOUS
  end.

(** [categories[label].push(text)], creating the array on first use. *)
Fixpoint push_category (label text : string) (cats : list (string * list string))
    : list (string * list string) :=
  match cats with
  | [] => [(label, [text])]
  | (l, members) :: rest =>
      if String.eqb l label then (l, members ++ [text]) :: rest
      else (l, members) :: push_category label text rest
  end.

(** The body of the [forEach] callback. *)
Definition categorize_item (cats : list (string * list string)) (item : string)
    : list (string * list string) :=
  let text := trim item in
  if negb (truthy_str text) then cats
  else push_category (bucket_label text) text cats.

Definition categorize (entries : list string) : list (string * list string) :=
  fold_left categorize_item entries [].

(** [sort((a, b) => b[1].length - a[1].length)]: the sort is stable, so an
    entry goes in front of the entries that follow it and are not
    longer. *)
Fixpoint insert_by_size (e : string * list string) (sorted : list (string * list string))
    : list (string * list string) :=
  match sorted with
  | [] => [e]
  | y :: rest =>
      if (length (snd y) <=? length (snd e))%nat then e :: y :: rest
      else y :: insert_by_size e rest
  end.

Definition sort_by_size (cats : list (string * list string)) : list (string * list string) :=
  foldr insert_by_size [] cats.

Definition DEFAULT_FOCUS : string :=
  "Choose one quick win task that takes under 5 minutes.".

Definition focus_for (label : string) : string :=
  "Start with one item from " +:+ quote_mark +:+ label +:+ quote_mark +:+ " today.".

Definition summary_text (n k : nat) : string :=
  "Organized " +:+ pretty n +:+ " items into " +:+ pretty k +:+ " categories.".

Definition fallbackBrainDump (entries : list string) : BrainDumpOutput :=
  let cats := categorize entries in
  {| categories := cats;
     focusRecommendation :=
       match head (sort_by_size cats) with
       | Some mostPopulated => focus_for (fst mostPopulated)
       | None => DEFAULT_FOCUS
       end;
     summary :=
       summary_text (length entries)
         (if (length cats =? 0)%nat then 1%nat else length cats);
     out_rawResponse := None;
     out_error := None |}.

(** What the caller hands to [organizeBrainDump]. *)
Inductive ItemsArg : Type :=
| NotAnArray
| ItemsArray (entries : list string).

Definition normalize_items (input : ItemsArg) : list string :=
  match input with
  | ItemsArray entries => entries
  | NotAnArray => []
  end.

(** Either the heuristic object, or the object the model returned
    together with the [rawResponse] property set on it. *)
Inductive BrainDumpResult : Type :=
| Heuristic (out : BrainDumpOutput)
| FromModel (parsed : json) (raw : json).

Definition out_with_rawResponse (out : BrainDumpOutput) (text : string) : BrainDumpOutput :=
  {| categories := categories out; focusRecommendation := focusRecommendation out;
     summary := summary out; out_rawResponse := Some text; out_error := out_error out |}.

Definition out_with_error (out : BrainDumpOutput) (msg : string) : BrainDumpOutput :=
  {| categories := categories out; focusRecommendation := focusRecommendation out;
     summary := summary out; out_rawResponse := out_rawResponse out;
     out_error := Some msg |}.

(** [state.brainDumpHistory.push(record)].  The record shares the
    caller's array; the script itself never writes to it. *)
Definition push_brain_dump (s : GlobalState) (record : BrainDumpRecord) : GlobalState :=
  {| tasks := tasks s;
     lastSuggestion := lastSuggestion s;
     brainDumpHistory := brainDumpHistory s ++ [record] |}.

Definition organizeBrainDump (env : Env) (s : GlobalState) (input : ItemsArg)
    (forceFallback : bool) : GlobalState * outcome BrainDumpResult :=
  let normalizedItems := normalize_items input in
  let s := push_brain_dump s
             {| items := normalizedItems; timestamp := nowIso env |} in
  if negb (has_fetch env) || forceFallback
  then (s, Returned (Heuristic (fallbackBrainDump normalizedItems)))
  else match callOpenAI env with
       | Returned text =>
           let parsed := safeParse env text JNull in
           if negb (truthy parsed) then
             (s, Returned (Heuristic
                   (out_with_rawResponse (fallbackBrainDump normalizedItems) text)))
           else if is_object parsed then
             (s, Returned (FromModel parsed
                   (match get_prop "rawResponse" parsed with
                    | Some r => if truthy r then r else JStr text
                    | None => JStr text
                    end)))
           else
             (* strict mode: assigning [rawResponse] on a primitive throws
                inside the [try]; the [catch] branch answers *)
             (s, Returned (Heuristic
                   (out_with_error (fallbackBrainDump normalizedItems)
                      (primitive_assignment_message env))))
       | Threw msg =>
           (s, Returned (Heuristic
                 (out_with_error (fallbackBrainDump normalizedItems) msg)))
       end.

(** ** The calls as a caller sees them *)

(** Both entry points are declared [async]. *)
Definition AdhdoneAI_recordReminderInteraction (env : Env) (s : GlobalState)
    (a : ReminderArgs) : GlobalState * invocation (option Suggestion) :=
  let r := recordReminderInteraction env s a in
  (fst r, async_function (snd r)).

Definition AdhdoneAI_organizeBrainDump (env : Env) (s : GlobalState) (input : ItemsArg)
    (forceFallback : bool) : GlobalState * invocation BrainDumpResult :=
  let r := organizeBrainDump env s input forceFallback in
  (fst r, async_function (snd r)).

(** ** Runs of the public operations *)

Inductive Op : Type :=
| OpRecord (env : Env) (a : ReminderArgs)
| OpReset (taskId : string)
| OpOrganize (env : Env) (input : ItemsArg) (forceFallback : bool).

Definition step (s : GlobalState) (op : Op) : GlobalState :=
  match op with
  | OpRecord env a => fst (recordReminderInteraction env s a)
  | OpReset taskId => resetTaskHistory s taskId
  | OpOrganize env input forceFallback => fst (organizeBrainDump env s input forceFallback)
  end.

Definition run (s : GlobalState) (ops : list Op) : GlobalState :=
  fold_left step ops s.

(** The states the script can be in: the skeleton, and whatever the
    public operations make of it ([getLastSuggestion], [getState] and the
    key accessors leave the state alone). *)
Inductive reachable : GlobalState -> Prop :=
| reachable_init : reachable initial_state
| reachable_step s op : reachable s -> reachable (step s op).

(** ** Vocabulary for the statements *)

Definition valid_args (a : ReminderArgs) : bool :=
  truthy_str (arg_taskId a) && truthy_str (arg_action a).

(** [getTaskState] ends on a built-in object: the id is no own property
    of [state.tasks] and names an inherited one. *)
Definition blocked (s : GlobalState) (taskId : string) : bool :=
  match tasks s !! taskId with
  | Some _ => false
  | None => inherited taskId
  end.

(** The call gets as far as logging its entry. *)
Definition accepted (s : GlobalState) (a : ReminderArgs) : bool :=
  valid_args a && negb (blocked s (arg_taskId a)).

(** The message the caller's callback throws when handed [sg], if it
    throws. *)
Definition callback_throws (a : ReminderArgs) (sg : Suggestion) : option string :=
  match arg_onSuggestion a with
  | Some onSuggestion => onSuggestion sg
  | None => None
  end.

(** How a call with a suggestion to hand out ends. *)
Definition settle (a : ReminderArgs) (sg : Suggestion) : outcome (option Suggestion) :=
  match callback_throws a sg with
  | Some msg => Threw msg
  | None => Returned (Some sg)
  end.

(** The task state an interaction starts from: the stored one, or the
    one [getTaskState] creates. *)
Definition prior_task (s : GlobalState) (taskId : string) : TaskState :=
  default new_task_state (tasks s !! taskId).

Definition entry_of (env : Env) (a : ReminderArgs) : InteractionEntry :=
  {| entry_action := arg_action a;
     entry_timestamp := default (nowIso env) (arg_timestamp a);
     entry_context := default empty_context (arg_context a) |}.

(** The task state once the counter is updated and the entry logged. *)
Definition recorded_task (env : Env) (s : GlobalState) (a : ReminderArgs) : TaskState :=
  trackHistory (update_skips (arg_action a) (prior_task s (arg_taskId a))) (entry_of env a).

Definition suggestion_due (env : Env) (s : GlobalState) (a : ReminderArgs) : bool :=
  (3 <=? consecutiveSkips (recorded_task env s a)) &&
  negb (shouldThrottleSuggestion (recorded_task env s a) (nowMs env)).

(** The summary handed to the generator by an accepted call. *)
Definition summary_of (env : Env) (s : GlobalState) (a : ReminderArgs) : ReminderSummary :=
  buildReminderSummary (arg_taskId a) (recorded_task env s a)
    (default empty_context (arg_context a)).

(** The suggestion an accepted call generates when one is due. *)
Definition due_suggestion (env : Env) (s : GlobalState) (a : ReminderArgs) : Suggestion :=
  generateReminderAdjustments env (summary_of env s a) (arg_forceFallback a).

Definition stamp (taskState : TaskState) (nowMs : Z) : TaskState :=
  {| history := history taskState;
     consecutiveSkips := consecutiveSkips taskState;
     lastSuggestionTimestamp := nowMs |}.

(** The task state a call leaves behind. *)
Definition task_after (env : Env) (s : GlobalState) (a : ReminderArgs) : TaskState :=
  if suggestion_due env s a then stamp (recorded_task env s a) (nowMs env)
  else recorded_task env s a.

(** The last [n] elements of a list, in order. *)
Definition last_n {A : Type} (n : nat) (l : list A) : list A :=
  drop (length l - n) l.

(** The interactions a run is asked to record for one task: the entries
    of its calls that carry this task and an action. *)
Fixpoint entries_for (taskId : string) (ops : list Op) : list InteractionEntry :=
  match ops with
  | [] => []
  | OpRecord env a :: rest =>
      if valid_args a && String.eqb (arg_taskId a) taskId
      then entry_of env a :: entries_for taskId rest
      else entries_for taskId rest
  | _ :: rest => entries_for taskId rest
  end.

Definition resets (taskId : string) (op : Op) : bool :=
  match op with
  | OpReset t => String.eqb t taskId
  | _ => false
  end.

(** A call is a skip of task [t]. *)
Definition is_skip_of (t : string) (a : ReminderArgs) : Prop :=
  arg_taskId a = t /\ arg_action a = "skip".

Definition is_suggestion (o : outcome (option Suggestion)) : Prop :=
  exists sg, o = Returned (Some sg).

(** The reading under which three skips in a row always end in a
    suggestion, whatever happened to the task before. *)
Definition three_skips_always_suggest : Prop :=
  forall (t : string) (e1 e2 e3 : Env) (a1 a2 a3 : ReminderArgs) (s0 : GlobalState),
    t <> EmptyString -> reachable s0 ->
    is_skip_of t a1 -> is_skip_of t a2 -> is_skip_of t a3 ->
    let r1 := recordReminderInteraction e1 s0 a1 in
    let r2 := recordReminderInteraction e2 (fst r1) a2 in
    let r3 := recordReminderInteraction e3 (fst r2) a3 in
    is_suggestion (snd r3).

(** The interval as the written description words it: half the supplied
    interval, or half of 45 when none is supplied, rounded and floored at
    15. *)
Definition described_interval (supplied : option Q) : Z :=
  Z.max 15 (Math_round (default 45%Q supplied * (1 # 2))%Q).

(** The number a caller supplied, if any. *)
Definition supplied_number (v : IntervalField) : option Q :=
  match v with
  | IvNum q => Some q
  | _ => None
  end.

(** The calls of [generateReminderAdjustments] that end in the heuristic:
    no [fetch], a forced fallback, a failed request, or an answer that
    parses to nothing truthy. *)
Definition heuristic_path (env : Env) (forceFallback : bool) : bool :=
  negb (has_fetch env) || forceFallback ||
  match callOpenAI env with
  | Threw _ => true
  | Returned text => negb (truthy (safeParse env text JNull))
  end.

Definition summary_with_interval (v : IntervalField) : ReminderSummary :=
  {| sm_taskId := "t"; sm_consecutiveSkips := 3; recentInteractions := [];
     sm_context := {| description := None; baselineStep := None;
                      ctx_reminderIntervalMinutes := v |} |}.

(** Two code units are the same letter, case apart: they are equal, or
    one is an ASCII capital (65 to 90) and the other the small letter 32
    places after it. *)
Definition same_letter (a b : ascii) : Prop :=
  a = b \/
  ((65 <= nat_of_ascii a <= 90)%nat /\ nat_of_ascii b = (nat_of_ascii a + 32)%nat) \/
  ((65 <= nat_of_ascii b <= 90)%nat /\ nat_of_ascii a = (nat_of_ascii b + 32)%nat).

(** Two texts of the same length, letter by letter the same, case
    apart. *)
Fixpoint same_text (s t : string) : Prop :=
  match s, t with
  | EmptyString, EmptyString => True
  | String a s', String b t' => same_letter a b /\ same_text s' t'
  | _, _ => False
  end.

(** [kw] occurs in [text], letter case apart. *)
Definition occurs_ci (kw text : string) : Prop :=
  exists pre mid post,
    text = pre +:+ mid +:+ post /\ same_text mid kw.

(** Two suggestions that differ at most in their diagnostics
    ([rawResponse] and [error]). *)
Definition same_advice (sg sg' : Suggestion) : Prop :=
  sg_taskId sg = sg_taskId sg' /\ reason sg = reason sg' /\
  message sg = message sg' /\
  recommendedAdjustments sg = recommendedAdjustments sg'.

(** Two heuristic answers that differ at most in their diagnostics. *)
Definition same_buckets (out out' : BrainDumpOutput) : Prop :=
  categories out = categories out' /\
  focusRecommendation out = focusRecommendation out' /\
  summary out = summary out'.

(** The texts the categorizer files: trimmed, the blank ones left out. *)
Definition nonblank_texts (entries : list string) : list string :=
  List.filter truthy_str (map trim entries).

(** The texts that belong under one label, in order. *)
Definition members_of (label : string) (texts : list string) : list string :=
  List.filter (fun text => String.eqb (bucket_label text) label) texts.

(** What a bucket holds once more texts are filed into it. *)
Definition extend (bucket : option (list string)) (more : list string)
    : option (list string) :=
  match more with
  | [] => bucket
  | _ :: _ => Some (default [] bucket ++ more)
  end.

(** The summary as the written description words it: the items that were
    not blank, and the buckets, at least one. *)
Definition described_summary (entries : list string) : string :=
  summary_text (length (nonblank_texts entries))
    (Nat.max 1 (length (categorize entries))).

Definition total_filed (cats : list (string * list string)) : nat :=
  list_sum (map (fun c => length (snd c)) cats).

(** ** Sample environments and calls *)

(** A host without [fetch], its clock at [now]. *)
Definition offline_at (now : Z) : Env :=
  {| has_fetch := false;
     stored_api_key := EmptyString;
     fetch := FetchRejected "offline";
     JSON_parse := fun _ => None;
     primitive_assignment_message := "Cannot create property";
     undefined_property_message := "Cannot read properties of undefined (reading 'push')";
     nowMs := now;
     nowIso := "2023-11-14T22:13:20.000Z" |}.

(** A host with [fetch] and a key, whose request settles as [result]. *)
Definition online_with (result : FetchOutcome) (parse : string -> option json) : Env :=
  {| has_fetch := true;
     stored_api_key := "sk-test";
     fetch := result;
     JSON_parse := parse;
     primitive_assignment_message := "Cannot create property";
     undefined_property_message := "Cannot read properties of undefined (reading 'push')";
     nowMs := 1700000000000;
     nowIso := "2023-11-14T22:13:20.000Z" |}.

(** A host with [fetch] but no stored key. *)
Definition keyless : Env :=
  {| has_fetch := true;
     stored_api_key := EmptyString;
     fetch := FetchRejected "unreachable";
     JSON_parse := fun _ => None;
     primitive_assignment_message := "Cannot create property";
     undefined_property_message := "Cannot read properties of undefined (reading 'push')";
     nowMs := 1700000000000;
     nowIso := "2023-11-14T22:13:20.000Z" |}.

(** A call without timestamp, context or callback. *)
Definition call (taskId action : string) : ReminderArgs :=
  {| arg_taskId := taskId; arg_action := action; arg_timestamp := None;
     arg_context := None; arg_onSuggestion := None; arg_forceFallback := false |}.

(** The same call with a callback that throws whatever it is handed. *)
Definition call_with_throwing_callback (taskId action msg : string) : ReminderArgs :=
  {| arg_taskId := taskId; arg_action := action; arg_timestamp := None;
     arg_context := None; arg_onSuggestion := Some (fun _ => Some msg);
     arg_forceFallback := false |}.

(** A state, as storage may hold it, whose one task has been skipped
    2^53 times. *)
Definition saturated_state : GlobalState :=
  {| tasks := {[ "t"%string := {| history := []; consecutiveSkips := 2 ^ 53;
                                 lastSuggestionTimestamp := 0 |} ]};
     lastSuggestion := ∅;
     brainDumpHistory := [] |}.

(** [n] calls for one task, the [i]-th stamped with the numeral [i]. *)
Definition numbered_calls (taskId action : string) (n : nat) : list Op :=
  map (fun i : nat =>
         OpRecord (offline_at (Z.of_nat i))
           {| arg_taskId := taskId; arg_action := action;
              arg_timestamp := Some (pretty i);
              arg_context := None; arg_onSuggestion := None;
              arg_forceFallback := false |})
      (seq 0 n).

(** What every reachable state satisfies. *)
Record well_formed (s : GlobalState) : Prop := mkWellFormed {
  wf_task_ids : forall t ts, tasks s !! t = Some ts ->
                  t <> EmptyString /\ inherited t = false;
  wf_skips : forall t ts, tasks s !! t = Some ts -> 0 <= consecutiveSkips ts <= 2 ^ 53;
  wf_history : forall t ts, tasks s !! t = Some ts -> (length (history ts) <= MAX_HISTORY)%nat;
  wf_suggestion_ids : forall t sg, lastSuggestion s !! t = Some sg ->
                  t <> EmptyString /\ inherited t = false;
}.

(** ** Local storage *)

(** The helpers that read and write [global.localStorage].  They live in
    a module of their own because the completion client above reads the
    key through [Env]; [Store.getApiKey] is the function that fills it. *)
Module Store.

(** [global.localStorage] as a call finds it.  A working storage holds
    strings under strings; [accepts items key value] tells whether
    [setItem(key, value)] goes through on these contents or throws (a full
    quota). *)
Inductive LocalStorage : Type :=
| Absent
| Denied
| Working (items : gmap string string)
          (accepts : gmap string string -> string -> string -> bool).

Definition STORAGE_VERSION : string := "v1".
Definition STORAGE_KEY : string := "adhdone-ai-state-" +:+ STORAGE_VERSION.
Definition API_KEY_STORAGE : string := "adhdone-openai-api-key".

(** [setItem] inside the [try]: a refused write leaves the storage as it
    was. *)
Definition setItem (ls : LocalStorage) (key value : string) : LocalStorage :=
  match ls with
  | Working items accepts =>
      if accepts items key value then Working (<[key := value]> items) accepts
      else ls
  | _ => ls
  end.

Definition saveToStorage {A : Type} (stringify : A -> string) (ls : LocalStorage)
    (key : string) (value : A) : LocalStorage :=
  setItem ls key (stringify value).

(** [getItem] answers [null] for a missing key, which [safeParse] turns
    into the fallback. *)
Definition getFromStorage (env : Env) (ls : LocalStorage) (key : string)
    (fallback : json) : json :=
  match ls with
  | Working items _ =>
      match items !! key with
      | Some text => safeParse env text fallback
      | None => fallback
      end
  | _ => fallback
  end.

Definition getApiKey (ls : LocalStorage) : string :=
  match ls with
  | Working items _ =>
      match items !! API_KEY_STORAGE with
      | Some key => if truthy_str key then key else EmptyString
      | None => EmptyString
      end
  | _ => EmptyString
  end.

(** An absent key is the empty string. *)
Definition setApiKey (ls : LocalStorage) (key : string) : LocalStorage :=
  match ls with
  | Working items accepts =>
      if negb (truthy_str key) then Working (delete API_KEY_STORAGE items) accepts
      else setItem ls API_KEY_STORAGE key
  | _ => ls
  end.

(** [persistState], given how the host serializes the state. *)
Definition persistState (stringify : GlobalState -> string) (ls : LocalStorage)
    (s : GlobalState) : LocalStorage :=
  saveToStorage stringify ls STORAGE_KEY s.

(** What the storage holds under a key, if it can be read at all. *)
Definition stored (ls : LocalStorage) (key : string) : option string :=
  match ls with
  | Working items _ => items !! key
  | _ => None
  end.

End Store.

(** ** More vocabulary *)

(** [op] is no call for task [t] that comes an hour or more after
    [since]. *)
Definition within_hour (since : Z) (t : string) (op : Op) : bool :=
  match op with
  | OpRecord env a =>
      negb (String.eqb (arg_taskId a) t) || (nowMs env - since <? ONE_HOUR)
  | _ => true
  end.

Definition is_completion (action : string) : bool :=
  String.eqb action "complete" || String.eqb action "snooze".

(** The actions logged after the last [complete] or [snooze]; all of them
    when there is none. *)
Fixpoint after_last_completion (actions : list string) : list string :=
  match actions with
  | [] => []
  | a :: rest =>
      if existsb is_completion rest then after_last_completion rest
      else if is_completion a then rest
      else a :: rest
  end.

Definition count_skips (actions : list string) : Z :=
  Z.of_nat (length (List.filter (fun a => String.eqb a "skip") actions)).

(** What ties the two dictionaries together in every reachable state. *)
Record suggestions_consistent (s : GlobalState) : Prop := mkConsistent {
  sc_id : forall t sg, lastSuggestion s !! t = Some sg ->
            sg_taskId sg = t /\ reason sg = "consecutive-skips"%string;
  sc_task : forall t sg, lastSuggestion s !! t = Some sg ->
            exists ts, tasks s !! t = Some ts /\ ONE_HOUR <= lastSuggestionTimestamp ts;
  sc_stamp : forall t ts, tasks s !! t = Some ts ->
            lastSuggestionTimestamp ts = 0 \/
            (ONE_HOUR <= lastSuggestionTimestamp ts /\ is_Some (lastSuggestion s !! t));
}.

(** The heuristic interval fed back as the next previous interval. *)
Definition next_interval (minutes : Z) : Z :=
  fallback_interval (IvNum (inject_Z minutes)).

(** A list without its repetitions, each element where it first
    occurs. *)
Fixpoint first_occurrences (l : list string) : list string :=
  match l with
  | [] => []
  | x :: rest => x :: List.filter (fun y => negb (String.eqb x y)) (first_occurrences rest)
  end.

Definition bucket_size (c : string * list string) : nat := length (snd c).

Definition ALL_LABELS : list string :=
  map fst focusBuckets ++ [MISCELLANEOUS].

(** No white space at either end. *)
Definition trimmed (s : string) : Prop :=
  trim_start s = s /\ trim_end s = s.

(** * Properties *)

(** ** Basic facts *)

Lemma truthy_str_spec (s : string) : truthy_str s = true <-> s <> EmptyString.
Proof. destruct s; simpl; split; congruence. Qed.

Lemma truthy_str_false (s : string) : truthy_str s = false <-> s = EmptyString.
Proof. destruct s; simpl; split; congruence. Qed.

Lemma valid_args_spec (a : ReminderArgs) :
  valid_args a = true <-> arg_taskId a <> EmptyString /\ arg_action a <> EmptyString.
Proof.
  unfold valid_args. rewrite andb_true_iff, !truthy_str_spec. tauto.
Qed.

Lemma valid_args_false (a : ReminderArgs) :
  valid_args a = false <-> arg_taskId a = EmptyString \/ arg_action a = EmptyString.
Proof.
  unfold valid_args. rewrite andb_false_iff, !truthy_str_false. tauto.
Qed.

(** *** Doubles that hold integers *)

Lemma to_double_exact (m : Z) : - 2 ^ 53 <= m <= 2 ^ 53 -> to_double m = m.
Proof.
  intros Hm. unfold to_double.
  destruct (Z.ltb_spec (Z.abs m) (2 ^ 53)) as [Hlt|Hge]; [reflexivity|].
  assert (Hcases : m = 2 ^ 53 \/ m = - 2 ^ 53) by lia.
  destruct Hcases as [-> | ->]; vm_compute; reflexivity.
Qed.

(** Adding 1 to a counter between 0 and 2^53: exact below 2^53, and
    without effect at 2^53, where the next integer is no double and the
    tie goes back to 2^53. *)
Lemma js_add_one (n : Z) :
  0 <= n <= 2 ^ 53 -> js_add n 1 = Z.min (2 ^ 53) (n + 1).
Proof.
  intros Hn. unfold js_add.
  destruct (Z.eq_dec n (2 ^ 53)) as [->|Hne]; [vm_compute; reflexivity|].
  rewrite to_double_exact by lia. lia.
Qed.

Lemma js_add_one_exact (n : Z) : 0 <= n < 2 ^ 53 -> js_add n 1 = n + 1.
Proof. intros Hn. rewrite js_add_one by lia. lia. Qed.

(** *** Inherited names *)

Lemma get_property_own {A : Type} (obj : gmap string A) (name : string) (v : A) :
  get_property obj name = Own v <-> obj !! name = Some v.
Proof.
  unfold get_property. destruct (obj !! name) as [x|].
  - split; congruence.
  - destruct (inherited name); split; discriminate.
Qed.

Lemma get_property_missing {A : Type} (obj : gmap string A) (name : string) :
  get_property obj name = Missing <-> obj !! name = None /\ inherited name = false.
Proof.
  unfold get_property. destruct (obj !! name) as [x|].
  - split; [discriminate | intros [H _]; discriminate].
  - destruct (inherited name); split; try discriminate; try tauto.
    intros [_ H]; discriminate.
Qed.

Lemma get_property_inherited {A : Type} (obj : gmap string A) (name name' : string) :
  get_property obj name = Inherited name' <->
  obj !! name = None /\ inherited name = true /\ name' = name.
Proof.
  unfold get_property. destruct (obj !! name) as [x|].
  - split; [discriminate | intros [H _]; discriminate].
  - destruct (inherited name); split; try discriminate.
    + intros [= <-]. tauto.
    + intros [_ [_ ->]]. reflexivity.
    + intros [_ [H _]]. discriminate.
Qed.

Lemma not_inherited_not_blocked (s : GlobalState) (t : string) :
  inherited t = false -> blocked s t = false.
Proof. unfold blocked. intros ->. destruct (tasks s !! t); reflexivity. Qed.

Lemma stored_not_blocked (s : GlobalState) (t : string) (ts : TaskState) :
  tasks s !! t = Some ts -> blocked s t = false.
Proof. unfold blocked. intros ->. reflexivity. Qed.

Lemma blocked_spec (s : GlobalState) (t : string) :
  blocked s t = true <-> tasks s !! t = None /\ inherited t = true.
Proof.
  unfold blocked. destruct (tasks s !! t).
  - split; [discriminate | intros [H _]; discriminate].
  - tauto.
Qed.

Lemma accepted_spec (s : GlobalState) (a : ReminderArgs) :
  accepted s a = true <-> valid_args a = true /\ blocked s (arg_taskId a) = false.
Proof. unfold accepted. rewrite andb_true_iff, negb_true_iff. reflexivity. Qed.

Lemma accepted_not_inherited (s : GlobalState) (a : ReminderArgs) :
  arg_taskId a <> EmptyString -> arg_action a <> EmptyString ->
  inherited (arg_taskId a) = false -> accepted s a = true.
Proof.
  intros Ht Ha Hi. apply accepted_spec. split.
  - apply valid_args_spec. auto.
  - apply not_inherited_not_blocked, Hi.
Qed.

(** *** One call, read off the code once and for all *)

(** A call without an id or an action: nothing is touched. *)
Lemma record_invalid (env : Env) (s : GlobalState) (a : ReminderArgs) :
  valid_args a = false ->
  recordReminderInteraction env s a = (s, Threw REQUIRES_IDS).
Proof.
  unfold valid_args, recordReminderInteraction. intros H.
  rewrite <- negb_andb, H. reflexivity.
Qed.

(** A call whose id names an inherited property: nothing is touched
    either. *)
Lemma record_blocked (env : Env) (s : GlobalState) (a : ReminderArgs) :
  valid_args a = true -> blocked s (arg_taskId a) = true ->
  recordReminderInteraction env s a = (s, Threw (undefined_property_message env)).
Proof.
  unfold valid_args, recordReminderInteraction. intros H Hb.
  rewrite <- negb_andb, H. cbn [negb].
  apply blocked_spec in Hb as [Hnone Hinh].
  unfold getTaskState, get_property. rewrite Hnone, Hinh. reflexivity.
Qed.

Lemma record_refused (env : Env) (s : GlobalState) (a : ReminderArgs) :
  accepted s a = false ->
  exists msg, recordReminderInteraction env s a = (s, Threw msg).
Proof.
  unfold accepted. intros H.
  destruct (valid_args a) eqn:Hv.
  - cbn [andb] in H. apply negb_false_iff in H.
    eexists. apply record_blocked; assumption.
  - eexists. apply record_invalid. exact Hv.
Qed.

Lemma record_refused_state (env : Env) (s : GlobalState) (a : ReminderArgs) :
  accepted s a = false -> fst (recordReminderInteraction env s a) = s.
Proof. intros H. destruct (record_refused env s a H) as [msg ->]. reflexivity. Qed.

Lemma record_refused_result (env : Env) (s : GlobalState) (a : ReminderArgs) :
  accepted s a = false -> threw (snd (recordReminderInteraction env s a)) = true.
Proof. intros H. destruct (record_refused env s a H) as [msg ->]. reflexivity. Qed.

(** An accepted call. *)
Lemma record_accepted (env : Env) (s : GlobalState) (a : ReminderArgs) :
  accepted s a = true ->
  recordReminderInteraction env s a =
    if suggestion_due env s a
    then ({| tasks := <[arg_taskId a := stamp (recorded_task env s a) (nowMs env)]> (tasks s);
             lastSuggestion := <[arg_taskId a := due_suggestion env s a]> (lastSuggestion s);
             brainDumpHistory := brainDumpHistory s |},
          settle a (due_suggestion env s a))
    else (store_task s (arg_taskId a) (recorded_task env s a), Returned None).
Proof.
  intros Hacc. apply accepted_spec in Hacc as [H Hb].
  unfold valid_args in H. unfold recordReminderInteraction.
  rewrite <- negb_andb, H. cbn [negb].
  unfold suggestion_due, due_suggestion, summary_of, recorded_task, prior_task, getTaskState,
    get_property, settle, callback_throws.
  unfold blocked in Hb.
  destruct (tasks s !! arg_taskId a) as [existing|] eqn:Hlook; cbn [default id]; clear H.
  - set (ts := trackHistory _ _).
    destruct (_ && _); unfold store_task, stamp; cbn [tasks lastSuggestion brainDumpHistory].
    + rewrite insert_insert_eq.
      destruct (arg_onSuggestion a) as [onSuggestion|]; [|reflexivity].
      destruct (onSuggestion _); reflexivity.
    + reflexivity.
  - rewrite Hb. set (ts := trackHistory _ _). cbv zeta.
    destruct (_ && _); unfold store_task, stamp; cbn [tasks lastSuggestion brainDumpHistory].
    + rewrite !insert_insert_eq.
      destruct (arg_onSuggestion a) as [onSuggestion|]; [|reflexivity].
      destruct (onSuggestion _); reflexivity.
    + rewrite !insert_insert_eq. reflexivity.
Qed.

Lemma tasks_after_record (env : Env) (s : GlobalState) (a : ReminderArgs) :
  accepted s a = true ->
  tasks (fst (recordReminderInteraction env s a))
  = <[arg_taskId a := task_after env s a]> (tasks s).
Proof.
  intros H. rewrite (record_accepted _ _ _ H). unfold task_after.
  destruct (suggestion_due env s a); reflexivity.
Qed.

Lemma lastSuggestion_after_record (env : Env) (s : GlobalState) (a : ReminderArgs) :
  accepted s a = true ->
  lastSuggestion (fst (recordReminderInteraction env s a))
  = if suggestion_due env s a
    then <[arg_taskId a := due_suggestion env s a]> (lastSuggestion s)
    else lastSuggestion s.
Proof.
  intros H. rewrite (record_accepted _ _ _ H).
  destruct (suggestion_due env s a); reflexivity.
Qed.

Lemma result_of_record (env : Env) (s : GlobalState) (a : ReminderArgs) :
  accepted s a = true ->
  snd (recordReminderInteraction env s a)
  = if suggestion_due env s a then settle a (due_suggestion env s a) else Returned None.
Proof.
  intros H. rewrite (record_accepted _ _ _ H).
  destruct (suggestion_due env s a); reflexivity.
Qed.

Lemma settle_returns (a : ReminderArgs) (sg : Suggestion) :
  callback_throws a sg = None -> settle a sg = Returned (Some sg).
Proof. unfold settle. intros ->. reflexivity. Qed.

Lemma settle_throws (a : ReminderArgs) (sg : Suggestion) (msg : string) :
  callback_throws a sg = Some msg -> settle a sg = Threw msg.
Proof. unfold settle. intros ->. reflexivity. Qed.

(** Whatever the callback does, the call hands out either the due
    suggestion or the callback's exception. *)
Lemma settle_suggestion (a : ReminderArgs) (sg sg' : Suggestion) :
  settle a sg = Returned (Some sg') <-> callback_throws a sg = None /\ sg' = sg.
Proof.
  unfold settle. destruct (callback_throws a sg); split.
  - discriminate.
  - intros [H _]. discriminate.
  - intros [= <-]. split; reflexivity.
  - intros [_ ->]. reflexivity.
Qed.

Lemma brainDumpHistory_after_record (env : Env) (s : GlobalState) (a : ReminderArgs) :
  brainDumpHistory (fst (recordReminderInteraction env s a)) = brainDumpHistory s.
Proof.
  destruct (accepted s a) eqn:H.
  - rewrite (record_accepted _ _ _ H). destruct (suggestion_due env s a); reflexivity.
  - rewrite (record_refused_state _ _ _ H). reflexivity.
Qed.

Lemma update_skips_counter (action : string) (ts : TaskState) :
  consecutiveSkips (update_skips action ts)
  = if String.eqb action "skip" then js_add (consecutiveSkips ts) 1
    else if String.eqb action "complete" || String.eqb action "snooze" then 0
    else consecutiveSkips ts.
Proof.
  unfold update_skips.
  destruct (String.eqb action "skip"); [reflexivity|].
  destruct (String.eqb action "complete" || String.eqb action "snooze"); reflexivity.
Qed.

Lemma update_skips_last (action : string) (ts : TaskState) :
  lastSuggestionTimestamp (update_skips action ts) = lastSuggestionTimestamp ts.
Proof.
  unfold update_skips.
  destruct (String.eqb action "skip"); [reflexivity|].
  destruct (String.eqb action "complete" || String.eqb action "snooze"); reflexivity.
Qed.

Lemma update_skips_history (action : string) (ts : TaskState) :
  history (update_skips action ts) = history ts.
Proof.
  unfold update_skips.
  destruct (String.eqb action "skip"); [reflexivity|].
  destruct (String.eqb action "complete" || String.eqb action "snooze"); reflexivity.
Qed.

Lemma recorded_skips (env : Env) (s : GlobalState) (a : ReminderArgs) :
  consecutiveSkips (recorded_task env s a)
  = consecutiveSkips (update_skips (arg_action a) (prior_task s (arg_taskId a))).
Proof. reflexivity. Qed.

Lemma recorded_last (env : Env) (s : GlobalState) (a : ReminderArgs) :
  lastSuggestionTimestamp (recorded_task env s a)
  = lastSuggestionTimestamp (prior_task s (arg_taskId a)).
Proof. unfold recorded_task. cbn. apply update_skips_last. Qed.

Lemma task_after_skips (env : Env) (s : GlobalState) (a : ReminderArgs) :
  consecutiveSkips (task_after env s a)
  = consecutiveSkips (update_skips (arg_action a) (prior_task s (arg_taskId a))).
Proof. unfold task_after. destruct (suggestion_due env s a); reflexivity. Qed.

Lemma suggestion_due_spec (env : Env) (s : GlobalState) (a : ReminderArgs) :
  suggestion_due env s a = true <->
  3 <= consecutiveSkips (update_skips (arg_action a) (prior_task s (arg_taskId a))) /\
  ONE_HOUR <= nowMs env - lastSuggestionTimestamp (prior_task s (arg_taskId a)).
Proof.
  unfold suggestion_due, shouldThrottleSuggestion.
  rewrite recorded_last, recorded_skips, andb_true_iff, negb_true_iff.
  rewrite Z.leb_le, Z.ltb_ge. reflexivity.
Qed.

Lemma prior_task_after_record (env : Env) (s : GlobalState) (a : ReminderArgs) :
  accepted s a = true ->
  prior_task (fst (recordReminderInteraction env s a)) (arg_taskId a) = task_after env s a.
Proof.
  intros H. unfold prior_task. rewrite (tasks_after_record _ _ _ H), lookup_insert_eq.
  reflexivity.
Qed.

Lemma tasks_after_record_ne (env : Env) (s : GlobalState) (a : ReminderArgs) (t : string) :
  arg_taskId a <> t ->
  tasks (fst (recordReminderInteraction env s a)) !! t = tasks s !! t.
Proof.
  intros Hne. destruct (accepted s a) eqn:H.
  - rewrite (tasks_after_record _ _ _ H), lookup_insert_ne by assumption. reflexivity.
  - rewrite (record_refused_state _ _ _ H). reflexivity.
Qed.

Lemma lastSuggestion_after_record_ne (env : Env) (s : GlobalState) (a : ReminderArgs)
    (t : string) :
  arg_taskId a <> t ->
  lastSuggestion (fst (recordReminderInteraction env s a)) !! t = lastSuggestion s !! t.
Proof.
  intros Hne. destruct (accepted s a) eqn:H.
  - rewrite (lastSuggestion_after_record _ _ _ H).
    destruct (suggestion_due env s a); [|reflexivity].
    rewrite lookup_insert_ne by assumption. reflexivity.
  - rewrite (record_refused_state _ _ _ H). reflexivity.
Qed.

Lemma prior_task_after_record_ne (env : Env) (s : GlobalState) (a : ReminderArgs) (t : string) :
  arg_taskId a <> t ->
  prior_task (fst (recordReminderInteraction env s a)) t = prior_task s t.
Proof.
  intros Hne. unfold prior_task. rewrite (tasks_after_record_ne _ _ _ _ Hne). reflexivity.
Qed.

(** ** The history buffer *)

Lemma trackHistory_history (ts : TaskState) (e : InteractionEntry) :
  history (trackHistory ts e) = last_n MAX_HISTORY (history ts ++ [e]).
Proof.
  unfold trackHistory, last_n. cbn [history].
  destruct (Nat.ltb_spec MAX_HISTORY (length (history ts ++ [e]))) as [Hlt|Hge].
  - reflexivity.
  - replace (length (history ts ++ [e]) - MAX_HISTORY)%nat with 0%nat by lia.
    reflexivity.
Qed.

Lemma last_n_length {A : Type} (n : nat) (l : list A) :
  length (last_n n l) = Nat.min n (length l).
Proof. unfold last_n. rewrite length_drop. lia. Qed.

Lemma trackHistory_bounded (ts : TaskState) (e : InteractionEntry) :
  (length (history (trackHistory ts e)) <= MAX_HISTORY)%nat.
Proof. rewrite trackHistory_history, last_n_length. lia. Qed.

Lemma last_n_all {A : Type} (n : nat) (l : list A) :
  (length l <= n)%nat -> last_n n l = l.
Proof.
  intros H. unfold last_n. replace (length l - n)%nat with 0%nat by lia. reflexivity.
Qed.

(** ** Reachable states are well formed *)

Lemma wf_initial : well_formed initial_state.
Proof. split; cbn; intros ? ? H; rewrite lookup_empty in H; discriminate. Qed.

Lemma prior_task_skips (s : GlobalState) (t : string) :
  well_formed s -> 0 <= consecutiveSkips (prior_task s t) <= 2 ^ 53.
Proof.
  intros Hwf. unfold prior_task.
  destruct (tasks s !! t) as [ts|] eqn:H; cbn.
  - exact (wf_skips s Hwf t ts H).
  - lia.
Qed.

Lemma update_skips_range (action : string) (ts : TaskState) :
  0 <= consecutiveSkips ts <= 2 ^ 53 ->
  0 <= consecutiveSkips (update_skips action ts) <= 2 ^ 53.
Proof.
  intros H. rewrite update_skips_counter.
  destruct (String.eqb action "skip"); [rewrite js_add_one by exact H; lia|].
  destruct (String.eqb action "complete" || String.eqb action "snooze"); lia.
Qed.

Lemma task_after_history (env : Env) (s : GlobalState) (a : ReminderArgs) :
  history (task_after env s a)
  = last_n MAX_HISTORY (history (prior_task s (arg_taskId a)) ++ [entry_of env a]).
Proof.
  unfold task_after.
  destruct (suggestion_due env s a); cbn [stamp history];
    unfold recorded_task; rewrite trackHistory_history, update_skips_history; reflexivity.
Qed.

(** A well-formed state holds no own property under an inherited name,
    so there a call is accepted exactly when it carries an id and an
    action and the id names no inherited property. *)
Lemma wf_blocked (s : GlobalState) (t : string) :
  well_formed s -> blocked s t = inherited t.
Proof.
  intros Hwf. unfold blocked. destruct (tasks s !! t) as [ts|] eqn:H; [|reflexivity].
  symmetry. exact (proj2 (wf_task_ids s Hwf t ts H)).
Qed.

Lemma wf_record (env : Env) (s : GlobalState) (a : ReminderArgs) :
  well_formed s -> well_formed (fst (recordReminderInteraction env s a)).
Proof.
  intros Hwf. destruct (accepted s a) eqn:Hv.
  2:{ rewrite (record_refused_state _ _ _ Hv). exact Hwf. }
  pose proof (proj1 (accepted_spec s a) Hv) as [Hvalid Hb].
  pose proof (proj1 (valid_args_spec a) Hvalid) as [Ht _].
  rewrite (wf_blocked s _ Hwf) in Hb.
  split.
  - intros t ts. rewrite (tasks_after_record _ _ _ Hv), lookup_insert.
    case_decide; [subst t; auto|]. apply (wf_task_ids s Hwf).
  - intros t ts. rewrite (tasks_after_record _ _ _ Hv), lookup_insert.
    case_decide.
    + intros [= <-]. rewrite task_after_skips.
      apply update_skips_range, prior_task_skips, Hwf.
    + apply (wf_skips s Hwf).
  - intros t ts. rewrite (tasks_after_record _ _ _ Hv), lookup_insert.
    case_decide.
    + intros [= <-]. rewrite task_after_history, last_n_length. lia.
    + apply (wf_history s Hwf).
  - intros t sg. rewrite (lastSuggestion_after_record _ _ _ Hv).
    destruct (suggestion_due env s a).
    + rewrite lookup_insert. case_decide; [subst t; auto|]. apply (wf_suggestion_ids s Hwf).
    + apply (wf_suggestion_ids s Hwf).
Qed.

Lemma wf_reset (s : GlobalState) (t : string) :
  well_formed s -> well_formed (resetTaskHistory s t).
Proof.
  intros Hwf. unfold resetTaskHistory.
  destruct (truthy_str t); cbn [negb]; [|exact Hwf].
  split; cbn [tasks lastSuggestion]; intros t' x; rewrite lookup_delete;
    case_decide; try discriminate.
  - apply (wf_task_ids s Hwf).
  - apply (wf_skips s Hwf).
  - apply (wf_history s Hwf).
  - apply (wf_suggestion_ids s Hwf).
Qed.

Lemma organize_state (env : Env) (s : GlobalState) (input : ItemsArg) (forceFallback : bool) :
  fst (organizeBrainDump env s input forceFallback)
  = push_brain_dump s {| items := normalize_items input; timestamp := nowIso env |}.
Proof.
  unfold organizeBrainDump. cbv zeta.
  destruct (negb (has_fetch env) || forceFallback); [reflexivity|].
  destruct (callOpenAI env) as [msg|text]; [reflexivity|].
  destruct (negb (truthy (safeParse env text JNull))); [reflexivity|].
  destruct (is_object (safeParse env text JNull)); reflexivity.
Qed.

Lemma wf_organize (env : Env) (s : GlobalState) (input : ItemsArg) (forceFallback : bool) :
  well_formed s -> well_formed (fst (organizeBrainDump env s input forceFallback)).
Proof.
  intros Hwf. rewrite organize_state. split; cbn [push_brain_dump tasks lastSuggestion].
  - apply (wf_task_ids s Hwf).
  - apply (wf_skips s Hwf).
  - apply (wf_history s Hwf).
  - apply (wf_suggestion_ids s Hwf).
Qed.

Lemma wf_step (s : GlobalState) (op : Op) : well_formed s -> well_formed (step s op).
Proof.
  destruct op; cbn [step]; auto using wf_record, wf_reset, wf_organize.
Qed.

Lemma reachable_wf (s : GlobalState) : reachable s -> well_formed s.
Proof. induction 1; auto using wf_initial, wf_step. Qed.

Lemma reachable_run (s : GlobalState) (ops : list Op) :
  reachable s -> reachable (run s ops).
Proof.
  revert s. induction ops as [|op ops IH]; intros s Hs; cbn.
  - exact Hs.
  - apply IH. constructor. exact Hs.
Qed.

(** ** The skip counter *)

Lemma task_after_last (env : Env) (s : GlobalState) (a : ReminderArgs) :
  lastSuggestionTimestamp (task_after env s a)
  = if suggestion_due env s a then nowMs env
    else lastSuggestionTimestamp (prior_task s (arg_taskId a)).
Proof.
  unfold task_after. destruct (suggestion_due env s a); [reflexivity|].
  apply recorded_last.
Qed.

Lemma is_skip_accepted (s : GlobalState) (t : string) (a : ReminderArgs) :
  t <> EmptyString -> inherited t = false -> is_skip_of t a -> accepted s a = true.
Proof.
  intros Ht Hi [Hid Hact].
  apply accepted_not_inherited; rewrite ?Hid, ?Hact; try assumption. discriminate.
Qed.

Lemma skip_counter (env : Env) (s : GlobalState) (a : ReminderArgs) (t : string) :
  t <> EmptyString -> inherited t = false -> is_skip_of t a ->
  consecutiveSkips (prior_task (fst (recordReminderInteraction env s a)) t)
  = js_add (consecutiveSkips (prior_task s t)) 1.
Proof.
  intros Ht Hi Hs. pose proof (is_skip_accepted s t a Ht Hi Hs) as Hv.
  destruct Hs as [Hid Hact].
  rewrite <- Hid. rewrite (prior_task_after_record _ _ _ Hv), task_after_skips.
  rewrite update_skips_counter, Hact. reflexivity.
Qed.

Lemma skip_last (env : Env) (s : GlobalState) (a : ReminderArgs) (t : string) :
  t <> EmptyString -> inherited t = false -> is_skip_of t a ->
  lastSuggestionTimestamp (prior_task (fst (recordReminderInteraction env s a)) t)
  = if suggestion_due env s a then nowMs env
    else lastSuggestionTimestamp (prior_task s t).
Proof.
  intros Ht Hi Hs. pose proof (is_skip_accepted s t a Ht Hi Hs) as Hv.
  destruct Hs as [Hid Hact].
  rewrite <- Hid. rewrite (prior_task_after_record _ _ _ Hv). apply task_after_last.
Qed.

Lemma skip_due (env : Env) (s : GlobalState) (a : ReminderArgs) (t : string) :
  is_skip_of t a ->
  suggestion_due env s a = true <->
  3 <= js_add (consecutiveSkips (prior_task s t)) 1 /\
  ONE_HOUR <= nowMs env - lastSuggestionTimestamp (prior_task s t).
Proof.
  intros [Hid Hact]. rewrite suggestion_due_spec, update_skips_counter, Hact, Hid.
  reflexivity.
Qed.

(** The trigger, for one accepted call. *)
Lemma trigger_iff (env : Env) (s : GlobalState) (a : ReminderArgs) :
  accepted s a = true ->
  exists after,
    tasks (fst (recordReminderInteraction env s a)) !! arg_taskId a = Some after /\
    (is_suggestion (snd (recordReminderInteraction env s a)) <->
       (3 <= consecutiveSkips after /\
        ONE_HOUR <= nowMs env - lastSuggestionTimestamp (prior_task s (arg_taskId a))) /\
       callback_throws a (due_suggestion env s a) = None) /\
    (snd (recordReminderInteraction env s a) = Returned None <->
       ~ (3 <= consecutiveSkips after /\
          ONE_HOUR <= nowMs env - lastSuggestionTimestamp (prior_task s (arg_taskId a)))) /\
    (threw (snd (recordReminderInteraction env s a)) = true <->
       (3 <= consecutiveSkips after /\
        ONE_HOUR <= nowMs env - lastSuggestionTimestamp (prior_task s (arg_taskId a))) /\
       callback_throws a (due_suggestion env s a) <> None).
Proof.
  intros Hv.
  exists (task_after env s a).
  rewrite (tasks_after_record _ _ _ Hv), lookup_insert_eq, (result_of_record _ _ _ Hv).
  rewrite task_after_skips, <- suggestion_due_spec.
  split; [reflexivity|].
  unfold is_suggestion, settle.
  destruct (suggestion_due env s a);
    destruct (callback_throws a (due_suggestion env s a)) as [msg|]; cbn [threw];
    (split; [|split]); split; intros H;
    try congruence; try (destruct H; congruence); eauto.
Qed.

(** Three skips in a row on a task whose last suggestion is an hour old
    when the third arrives, and a fourth within the hour after it. *)
Lemma three_skips_then_fourth (t : string) (e1 e2 e3 e4 : Env)
    (a1 a2 a3 a4 : ReminderArgs) (s0 : GlobalState) :
  t <> EmptyString -> inherited t = false ->
  0 <= consecutiveSkips (prior_task s0 t) <= 2 ^ 53 ->
  is_skip_of t a1 -> is_skip_of t a2 -> is_skip_of t a3 -> is_skip_of t a4 ->
  let r1 := recordReminderInteraction e1 s0 a1 in
  let r2 := recordReminderInteraction e2 (fst r1) a2 in
  let r3 := recordReminderInteraction e3 (fst r2) a3 in
  let r4 := recordReminderInteraction e4 (fst r3) a4 in
  ONE_HOUR <= nowMs e3 - lastSuggestionTimestamp (prior_task (fst r2) t) ->
  snd r3 = settle a3 (due_suggestion e3 (fst r2) a3) /\
  (nowMs e4 - nowMs e3 < ONE_HOUR -> snd r4 = Returned None).
Proof.
  intros Ht Hi H0 S1 S2 S3 S4 r1 r2 r3 r4 Hopen.
  assert (Hc2 : 2 <= consecutiveSkips (prior_task (fst r2) t) <= 2 ^ 53).
  { unfold r2, r1. rewrite !skip_counter by assumption.
    rewrite (js_add_one (consecutiveSkips (prior_task s0 t))) by exact H0.
    rewrite js_add_one by lia. lia. }
  assert (Hdue : suggestion_due e3 (fst r2) a3 = true).
  { apply (skip_due _ _ _ t S3). split; [|exact Hopen]. rewrite js_add_one by lia. lia. }
  split.
  - unfold r3. rewrite (result_of_record _ _ _ (is_skip_accepted _ t a3 Ht Hi S3)), Hdue.
    reflexivity.
  - intros Hsoon. unfold r4.
    rewrite (result_of_record _ _ _ (is_skip_accepted _ t a4 Ht Hi S4)).
    destruct (suggestion_due e4 (fst r3) a4) eqn:Hdue4; [|reflexivity].
    apply (skip_due _ _ _ t S4) in Hdue4. destruct Hdue4 as [_ Hhour].
    unfold r3 in Hhour. rewrite (skip_last _ _ _ _ Ht Hi S3), Hdue in Hhour. lia.
Qed.

(** On a task seen for the first time the throttle is open as soon as the
    clock is an hour past the epoch. *)
Lemma new_task_two_skips (t : string) (e1 e2 : Env) (a1 a2 : ReminderArgs)
    (s0 : GlobalState) :
  t <> EmptyString -> inherited t = false -> tasks s0 !! t = None ->
  is_skip_of t a1 -> is_skip_of t a2 ->
  lastSuggestionTimestamp
    (prior_task (fst (recordReminderInteraction e2
                        (fst (recordReminderInteraction e1 s0 a1)) a2)) t) = 0 /\
  consecutiveSkips
    (prior_task (fst (recordReminderInteraction e2
                        (fst (recordReminderInteraction e1 s0 a1)) a2)) t) = 2.
Proof.
  intros Ht Hi Hnew S1 S2.
  assert (Hp : prior_task s0 t = new_task_state) by (unfold prior_task; rewrite Hnew; reflexivity).
  assert (D1 : suggestion_due e1 s0 a1 = false).
  { apply not_true_is_false. rewrite (skip_due _ _ _ t S1), Hp.
    cbn [new_task_state consecutiveSkips]. change (js_add 0 1) with 1. lia. }
  assert (D2 : suggestion_due e2 (fst (recordReminderInteraction e1 s0 a1)) a2 = false).
  { apply not_true_is_false. rewrite (skip_due _ _ _ t S2).
    rewrite (skip_counter _ _ _ _ Ht Hi S1), Hp.
    cbn [new_task_state consecutiveSkips]. change (js_add (js_add 0 1) 1) with 2. lia. }
  split.
  - rewrite (skip_last _ _ _ _ Ht Hi S2), D2, (skip_last _ _ _ _ Ht Hi S1), D1, Hp. reflexivity.
  - rewrite (skip_counter _ _ _ _ Ht Hi S2), (skip_counter _ _ _ _ Ht Hi S1), Hp. reflexivity.
Qed.

(** ** Claim C1: when a suggestion is returned *)

(** Claim C1, as stated, fails in four ways.
    - The skips of a task that received a suggestion less than an hour
      ago are throttled: three skips produce a suggestion, a [complete]
      resets the counter, and one minute later three more skips in a row
      bring the counter back to 3 while the third of them returns [null].
    - A call whose task id names an inherited property, [constructor]
      say, returns neither a suggestion nor [null]: it is rejected.
    - A stamp of 0 does block a first suggestion while the clock is less
      than an hour past the epoch: the third skip of a new task at clock
      1000 returns [null].
    - When the caller's callback throws, the call is rejected although
      the counter is 3 and the throttle open. *)
Lemma three_skips_throttled :
  let env := offline_at 1700000000000 in
  let later := offline_at 1700000060000 in
  let early := offline_at 1000 in
  let s := run initial_state
             [OpRecord env (call "t" "skip"); OpRecord env (call "t" "skip");
              OpRecord env (call "t" "skip"); OpRecord env (call "t" "complete")] in
  let r1 := recordReminderInteraction later s (call "t" "skip") in
  let r2 := recordReminderInteraction later (fst r1) (call "t" "skip") in
  let r3 := recordReminderInteraction later (fst r2) (call "t" "skip") in
  let i := recordReminderInteraction env initial_state (call "constructor" "skip") in
  let e1 := recordReminderInteraction early initial_state (call "t" "skip") in
  let e2 := recordReminderInteraction early (fst e1) (call "t" "skip") in
  let e3 := recordReminderInteraction early (fst e2) (call "t" "skip") in
  let c1 := recordReminderInteraction env initial_state (call "t" "skip") in
  let c2 := recordReminderInteraction env (fst c1) (call "t" "skip") in
  let c3 := recordReminderInteraction env (fst c2)
              (call_with_throwing_callback "t" "skip" "no thanks") in
  (consecutiveSkips (prior_task s "t") = 0 /\
   consecutiveSkips (prior_task (fst r3) "t") = 3 /\
   snd r3 = Returned None) /\
  ~ three_skips_always_suggest /\
  (snd i = Threw "Cannot read properties of undefined (reading 'push')" /\ fst i = initial_state) /\
  (lastSuggestionTimestamp (prior_task (fst e2) "t") = 0 /\
   consecutiveSkips (prior_task (fst e3) "t") = 3 /\
   snd e3 = Returned None) /\
  (consecutiveSkips (prior_task (fst c3) "t") = 3 /\
   nowMs env - lastSuggestionTimestamp (prior_task (fst c2) "t") = 1700000000000 /\
   snd c3 = Threw "no thanks").
Proof.
  cbv zeta.
  assert (Hrun : snd (recordReminderInteraction (offline_at 1700000060000)
                   (fst (recordReminderInteraction (offline_at 1700000060000)
                      (fst (recordReminderInteraction (offline_at 1700000060000)
                         (run initial_state
                            [OpRecord (offline_at 1700000000000) (call "t" "skip");
                             OpRecord (offline_at 1700000000000) (call "t" "skip");
                             OpRecord (offline_at 1700000000000) (call "t" "skip");
                             OpRecord (offline_at 1700000000000) (call "t" "complete")])
                         (call "t" "skip"))) (call "t" "skip"))) (call "t" "skip"))
                 = Returned None) by (vm_compute; reflexivity).
  split; [|split; [|split; [|split]]].
  - split; [vm_compute; reflexivity|]. split; [vm_compute; reflexivity|exact Hrun].
  - intros Hclaim.
    specialize (Hclaim "t" (offline_at 1700000060000) (offline_at 1700000060000)
                  (offline_at 1700000060000)
                  (call "t" "skip") (call "t" "skip") (call "t" "skip")
                  (run initial_state
                     [OpRecord (offline_at 1700000000000) (call "t" "skip");
                      OpRecord (offline_at 1700000000000) (call "t" "skip");
                      OpRecord (offline_at 1700000000000) (call "t" "skip");
                      OpRecord (offline_at 1700000000000) (call "t" "complete")])).
    cbv zeta in Hclaim. rewrite Hrun in Hclaim.
    destruct Hclaim as [sg Hsg];
      [discriminate | apply reachable_run, reachable_init
       | split; reflexivity | split; reflexivity | split; reflexivity | discriminate].
  - split; vm_compute; reflexivity.
  - split; [vm_compute; reflexivity|]. split; vm_compute; reflexivity.
  - split; [vm_compute; reflexivity|]. split; vm_compute; reflexivity.
Qed.

(** Claim C1, amended.  A call with an id and an action, whose id names
    no inherited property, returns a suggestion exactly when, once its
    counter is updated, the task has at least three consecutive skips and
    its last suggestion is at least an hour old (a stamp of 0, never, is
    compared like any other: it is the epoch), and the caller's callback,
    if there is one, returns; it returns [null] exactly when the counter
    is below three or the last suggestion less than an hour old; in the
    remaining case, the callback throwing, the call is rejected.  Three
    skips in a row therefore end in a suggestion when the last suggestion
    of the task is an hour old at the third, as it is on a task not seen
    before once the clock is an hour past the epoch, and the callback
    returns; a fourth skip less than an hour after that suggestion
    returns [null]. *)
Theorem suggestion_trigger_policy :
  (forall (env : Env) (s : GlobalState) (a : ReminderArgs),
     arg_taskId a <> EmptyString -> arg_action a <> EmptyString ->
     inherited (arg_taskId a) = false ->
     exists after,
       tasks (fst (recordReminderInteraction env s a)) !! arg_taskId a = Some after /\
       (is_suggestion (snd (recordReminderInteraction env s a)) <->
          (3 <= consecutiveSkips after /\
           ONE_HOUR <= nowMs env - lastSuggestionTimestamp (prior_task s (arg_taskId a))) /\
          callback_throws a (due_suggestion env s a) = None) /\
       (snd (recordReminderInteraction env s a) = Returned None <->
          ~ (3 <= consecutiveSkips after /\
             ONE_HOUR <= nowMs env - lastSuggestionTimestamp (prior_task s (arg_taskId a)))) /\
       (threw (snd (recordReminderInteraction env s a)) = true <->
          (3 <= consecutiveSkips after /\
           ONE_HOUR <= nowMs env - lastSuggestionTimestamp (prior_task s (arg_taskId a))) /\
          callback_throws a (due_suggestion env s a) <> None))
  /\
  (forall (t : string) (e1 e2 e3 e4 : Env) (a1 a2 a3 a4 : ReminderArgs) (s0 : GlobalState),
     t <> EmptyString -> inherited t = false -> reachable s0 ->
     is_skip_of t a1 -> is_skip_of t a2 -> is_skip_of t a3 -> is_skip_of t a4 ->
     let r1 := recordReminderInteraction e1 s0 a1 in
     let r2 := recordReminderInteraction e2 (fst r1) a2 in
     let r3 := recordReminderInteraction e3 (fst r2) a3 in
     let r4 := recordReminderInteraction e4 (fst r3) a4 in
     (ONE_HOUR <= nowMs e3 - lastSuggestionTimestamp (prior_task (fst r2) t) \/
      (tasks s0 !! t = None /\ ONE_HOUR <= nowMs e3)) ->
     (callback_throws a3 (due_suggestion e3 (fst r2) a3) = None -> is_suggestion (snd r3)) /\
     (nowMs e4 - nowMs e3 < ONE_HOUR -> snd r4 = Returned None)).
Proof.
  split.
  - intros env s a Ht Ha Hi. apply trigger_iff, accepted_not_inherited; assumption.
  - intros t e1 e2 e3 e4 a1 a2 a3 a4 s0 Ht Hi Hreach S1 S2 S3 S4 r1 r2 r3 r4 Hopen.
    destruct (three_skips_then_fourth t e1 e2 e3 e4 a1 a2 a3 a4 s0) as [H3 H4];
      try assumption.
    + apply prior_task_skips, reachable_wf, Hreach.
    + destruct Hopen as [Hopen|[Hnew Hclock]]; [exact Hopen|].
      rewrite (proj1 (new_task_two_skips t e1 e2 a1 a2 s0 Ht Hi Hnew S1 S2)). lia.
    + split; [|exact H4].
      intros Hquiet. unfold r3, r2, r1. rewrite H3.
      rewrite settle_returns by exact Hquiet. eexists. reflexivity.
Qed.

(** On the skeleton state: the third skip of a new task is answered, the
    fourth, one minute later, is not. *)
Lemma new_task_third_skip_suggests :
  let env := offline_at 1700000000000 in
  let later := offline_at 1700000060000 in
  let r1 := recordReminderInteraction env initial_state (call "t" "skip") in
  let r2 := recordReminderInteraction env (fst r1) (call "t" "skip") in
  let r3 := recordReminderInteraction env (fst r2) (call "t" "skip") in
  let r4 := recordReminderInteraction later (fst r3) (call "t" "skip") in
  is_suggestion (snd r3) /\ snd r4 = Returned None.
Proof.
  cbv zeta.
  destruct (proj2 suggestion_trigger_policy "t"
              (offline_at 1700000000000) (offline_at 1700000000000)
              (offline_at 1700000000000) (offline_at 1700000060000)
              (call "t" "skip") (call "t" "skip") (call "t" "skip") (call "t" "skip")
              initial_state) as [H3 H4].
  - discriminate.
  - reflexivity.
  - exact reachable_init.
  - split; reflexivity.
  - split; reflexivity.
  - split; reflexivity.
  - split; reflexivity.
  - right. split; [reflexivity | vm_compute; discriminate].
  - split; [apply H3; reflexivity | apply H4; vm_compute; reflexivity].
Defined.

(** ** Claim C2: the counter update *)

(** Claim C2, as stated, fails in two ways.
    - The counter is a double: at 2^53 a skip leaves it where it is,
      since 2^53 + 1 is no double and the sum is rounded back.
    - A call whose task id names an inherited property, [toString] say,
      is rejected and stores no counter at all. *)
Lemma skip_at_two_to_the_53_is_lost :
  let env := offline_at 1700000000000 in
  let r := recordReminderInteraction env saturated_state (call "t" "skip") in
  let i := recordReminderInteraction env initial_state (call "toString" "skip") in
  (consecutiveSkips (prior_task saturated_state "t") = 2 ^ 53 /\
   consecutiveSkips (prior_task (fst r) "t") = 2 ^ 53 /\
   consecutiveSkips (prior_task (fst r) "t") <> 2 ^ 53 + 1) /\
  (tasks (fst i) !! "toString" = None /\
   snd i = Threw "Cannot read properties of undefined (reading 'push')").
Proof.
  cbv zeta. split.
  - split; [vm_compute; reflexivity|]. split; [vm_compute; reflexivity|].
    vm_compute. discriminate.
  - split; vm_compute; reflexivity.
Qed.

(** Claim C2, amended.  A call with an id and an action, whose id names
    no inherited property, on a task whose counter is [n] (0 for a task
    created by this call) leaves it at the double nearest to [n + 1] for
    [skip], which is [n + 1] as long as [n] is a non-negative integer
    below 2^53 and 2^53 again at 2^53; at 0 for [complete] and [snooze];
    and at [n] for any other action. *)
Theorem skip_counter_update (env : Env) (s : GlobalState) (a : ReminderArgs) :
  arg_taskId a <> EmptyString -> arg_action a <> EmptyString ->
  inherited (arg_taskId a) = false ->
  let n := consecutiveSkips (prior_task s (arg_taskId a)) in
  exists after,
    tasks (fst (recordReminderInteraction env s a)) !! arg_taskId a = Some after /\
    (arg_action a = "skip" ->
       consecutiveSkips after = to_double (n + 1) /\
       (0 <= n < 2 ^ 53 -> consecutiveSkips after = n + 1) /\
       (n = 2 ^ 53 -> consecutiveSkips after = 2 ^ 53)) /\
    (arg_action a = "complete" \/ arg_action a = "snooze" -> consecutiveSkips after = 0) /\
    (arg_action a <> "skip" -> arg_action a <> "complete" -> arg_action a <> "snooze" ->
     consecutiveSkips after = n) /\
    (forall stored, tasks s !! arg_taskId a = Some stored -> n = consecutiveSkips stored) /\
    (tasks s !! arg_taskId a = None -> n = 0).
Proof.
  intros Ht Ha Hi n.
  pose proof (accepted_not_inherited s a Ht Ha Hi) as Hv.
  exists (task_after env s a).
  rewrite (tasks_after_record _ _ _ Hv), lookup_insert_eq, task_after_skips,
    update_skips_counter.
  split; [reflexivity|].
  split; [|split; [|split; [|split]]].
  - intros ->. cbn [String.eqb Ascii.eqb Bool.eqb]. fold n.
    split; [reflexivity|]. split.
    + intros Hn. apply js_add_one_exact. exact Hn.
    + intros Hn. rewrite Hn. vm_compute. reflexivity.
  - intros [-> | ->]; reflexivity.
  - intros N1 N2 N3.
    apply String.eqb_neq in N1, N2, N3. rewrite N1, N2, N3. reflexivity.
  - intros stored Hs. unfold n, prior_task. rewrite Hs. reflexivity.
  - intros Hs. unfold n, prior_task. rewrite Hs. reflexivity.
Qed.

(** A [snooze] after three skips. *)
Lemma snooze_after_three_skips_resets :
  let env := offline_at 1700000000000 in
  let s := run initial_state
             [OpRecord env (call "t" "skip"); OpRecord env (call "t" "skip");
              OpRecord env (call "t" "skip")] in
  consecutiveSkips (prior_task s "t") = 3 /\
  exists after,
    tasks (fst (recordReminderInteraction env s (call "t" "snooze"))) !! "t" = Some after /\
    consecutiveSkips after = 0.
Proof.
  cbv zeta. split; [vm_compute; reflexivity|].
  destruct (skip_counter_update (offline_at 1700000000000)
              (run initial_state
                 [OpRecord (offline_at 1700000000000) (call "t" "skip");
                  OpRecord (offline_at 1700000000000) (call "t" "skip");
                  OpRecord (offline_at 1700000000000) (call "t" "skip")])
              (call "t" "snooze")) as [after [Hafter [_ [Hreset _]]]].
  - discriminate.
  - discriminate.
  - reflexivity.
  - exists after. split; [exact Hafter | apply Hreset; right; reflexivity].
Defined.

(** ** Claim C3: the bounded history *)

Lemma last_n_app {A : Type} (n : nat) (l k : list A) :
  last_n n (last_n n l ++ k) = last_n n (l ++ k).
Proof.
  unfold last_n. rewrite !length_app, length_drop.
  destruct (Nat.le_gt_cases (length l) n) as [Hle|Hgt].
  - replace (length l - n)%nat with 0%nat by lia.
    rewrite drop_0, Nat.sub_0_r. reflexivity.
  - replace (length l - (length l - n) + length k - n)%nat with (length k) by lia.
    replace (length l + length k - n)%nat with ((length l - n) + length k)%nat by lia.
    rewrite <- drop_drop. f_equal. rewrite drop_app_le by lia. reflexivity.
Qed.

Lemma prior_task_reset_ne (s : GlobalState) (t' t : string) :
  t' <> t -> prior_task (resetTaskHistory s t') t = prior_task s t.
Proof.
  intros Hne. unfold resetTaskHistory, prior_task.
  destruct (truthy_str t'); cbn [negb tasks]; [|reflexivity].
  rewrite lookup_delete_ne by assumption. reflexivity.
Qed.

Lemma prior_task_organize (env : Env) (s : GlobalState) (input : ItemsArg)
    (forceFallback : bool) (t : string) :
  prior_task (fst (organizeBrainDump env s input forceFallback)) t = prior_task s t.
Proof. rewrite organize_state. reflexivity. Qed.

(** A call that is not among the interactions of a task leaves the task
    as it was. *)
Lemma record_not_mine (env : Env) (s : GlobalState) (a : ReminderArgs) (t : string) :
  valid_args a && String.eqb (arg_taskId a) t = false ->
  prior_task (fst (recordReminderInteraction env s a)) t = prior_task s t.
Proof.
  intros Hmine. apply andb_false_iff in Hmine as [Hv|Hne].
  - rewrite (record_invalid _ _ _ Hv). reflexivity.
  - apply prior_task_after_record_ne. apply String.eqb_neq. exact Hne.
Qed.

Lemma record_mine (s : GlobalState) (a : ReminderArgs) (t : string) :
  inherited t = false ->
  valid_args a && String.eqb (arg_taskId a) t = true ->
  arg_taskId a = t /\ accepted s a = true.
Proof.
  rewrite andb_true_iff, String.eqb_eq. intros Hi [Hv Heq].
  split; [exact Heq|]. apply accepted_spec. split; [exact Hv|].
  apply not_inherited_not_blocked. rewrite Heq. exact Hi.
Qed.

(** The history of a task after a run that never resets it. *)
Lemma history_after_run (ops : list Op) (s : GlobalState) (t : string) :
  inherited t = false ->
  Forall (fun op => resets t op = false) ops ->
  (length (history (prior_task s t)) <= MAX_HISTORY)%nat ->
  history (prior_task (run s ops) t)
  = last_n MAX_HISTORY (history (prior_task s t) ++ entries_for t ops).
Proof.
  intros Hi. revert s. induction ops as [|op ops IH]; intros s Hno Hlen.
  - cbn. rewrite app_nil_r, last_n_all by assumption. reflexivity.
  - inversion Hno as [|? ? Hop Hrest]; subst. cbn [run fold_left].
    change (fold_left step ops (step s op)) with (run (step s op) ops).
    destruct op as [env a|t'|env input force]; cbn [entries_for step].
    + destruct (valid_args a && String.eqb (arg_taskId a) t) eqn:Hmine.
      * destruct (record_mine s a t Hi Hmine) as [Heq Hv]. subst t.
        rewrite IH; [|assumption|].
        -- rewrite (prior_task_after_record _ _ _ Hv), task_after_history.
           rewrite last_n_app, <- app_assoc. reflexivity.
        -- rewrite (prior_task_after_record _ _ _ Hv), task_after_history, last_n_length. lia.
      * rewrite IH; rewrite ?(record_not_mine env s a t Hmine); auto.
    + cbn [resets] in Hop. apply String.eqb_neq in Hop.
      rewrite IH; rewrite ?(prior_task_reset_ne _ _ _ Hop); auto.
    + rewrite IH; rewrite ?prior_task_organize; auto.
Qed.




(** ** Claims C4 and C10: the heuristic reminder interval *)

(** [Math.round] returns the integer within one half of its argument,
    the upper one at a tie. *)
Lemma Math_round_spec (q : Q) :
  (inject_Z (Math_round q) - (1 # 2) <= q)%Q /\ (q < inject_Z (Math_round q) + (1 # 2))%Q.
Proof.
  unfold Math_round.
  pose proof (Qfloor_le (q + (1 # 2))%Q) as Hle.
  pose proof (Qlt_floor (q + (1 # 2))%Q) as Hlt.
  rewrite inject_Z_plus in Hlt. change (inject_Z 1) with 1%Q in Hlt.
  split; lra.
Qed.

(** Half of an integer, rounded: ties go up. *)
Lemma Math_round_half (z : Z) : Math_round (inject_Z z * (1 # 2))%Q = (z + 1) / 2.
Proof.
  unfold Math_round, Qfloor, Qplus, Qmult, inject_Z. cbn [Qnum Qden].
  change (Z.pos (1 * 2 * 2)) with (2 * 2). 
  replace (z * 1 * Z.pos 2 + 1 * Z.pos (1 * 2)) with ((z + 1) * 2) by lia.
  apply Z.div_mul_cancel_r; lia.
Qed.

Lemma heuristic_adjustments (env : Env) (summary : ReminderSummary) (forceFallback : bool) :
  heuristic_path env forceFallback = true ->
  recommendedAdjustments (generateReminderAdjustments env summary forceFallback)
  = recommendedAdjustments (fallbackReminderSuggestion summary).
Proof.
  unfold heuristic_path, generateReminderAdjustments.
  destruct (negb (has_fetch env) || forceFallback); [reflexivity|]. cbn [orb].
  destruct (callOpenAI env) as [msg|text]; [reflexivity|].
  intros ->. reflexivity.
Qed.

Lemma truthy_interval_false (v : IntervalField) :
  truthy_interval v = false <->
  v = IvUndefined \/ v = IvNull \/ v = IvNaN \/ v = IvEmptyString \/ v = IvBool false \/
  exists q, v = IvNum q /\ (q == 0)%Q.
Proof.
  split.
  - destruct v as [| | | |[]|q]; cbn; intros H; try discriminate; auto 6.
    right; right; right; right; right. exists q. split; [reflexivity|].
    apply Qeq_bool_iff. apply negb_false_iff. exact H.
  - intros [->|[->|[->|[->|[->|[q [-> Hq]]]]]]]; cbn; try reflexivity.
    apply negb_false_iff, Qeq_bool_iff, Hq.
Qed.

Lemma fallback_interval_falsy (v : IntervalField) :
  truthy_interval v = false -> fallback_interval v = 23.
Proof. unfold fallback_interval. intros ->. reflexivity. Qed.

(** Claim C4, as stated, fails at a supplied interval of 0: the
    description halves the supplied 0 and floors it to 15, the code reads
    0 as nothing supplied and answers 23. *)
Lemma zero_interval_not_halved :
  reminderIntervalMinutes
    (recommendedAdjustments (fallbackReminderSuggestion (summary_with_interval (IvNum 0))))
  = Some (JNum (inject_Z 23)) /\
  described_interval (supplied_number (IvNum 0)) = 15 /\
  fallback_interval (IvNum 0) <> described_interval (supplied_number (IvNum 0)).
Proof.
  split; [reflexivity|]. split; [reflexivity|]. vm_compute. discriminate.
Qed.

(** Claim C4, amended.  On the heuristic path the suggested interval is
    max(15, round(previous * 0.5)), where previous is the supplied
    interval when it is a number other than 0 and 45 when it is missing or
    reads as false (0 included).  It is never below 15; rounding takes the
    nearest integer and the larger one at a tie, so 45 gives 23; and it is
    the described value whenever the caller supplied a non-zero number or
    nothing. *)
Theorem heuristic_interval (env : Env) (summary : ReminderSummary) (forceFallback : bool) :
  heuristic_path env forceFallback = true ->
  let v := ctx_reminderIntervalMinutes (sm_context summary) in
  let previous := if truthy_interval v then interval_to_number v else 45%Q in
  let rounded := Math_round (previous * (1 # 2))%Q in
  exists z,
    reminderIntervalMinutes
      (recommendedAdjustments (generateReminderAdjustments env summary forceFallback))
    = Some (JNum (inject_Z z)) /\
    z = Z.max 15 rounded /\
    15 <= z /\
    ((inject_Z rounded - (1 # 2) <= previous * (1 # 2))%Q /\
     (previous * (1 # 2) < inject_Z rounded + (1 # 2))%Q) /\
    (forall n : Z, v = IvNum (inject_Z n) -> n <> 0 -> z = Z.max 15 ((n + 1) / 2)) /\
    (v = IvNum (inject_Z 45) -> z = 23) /\
    (v = IvUndefined -> z = 23 /\ z = described_interval None) /\
    (forall q, v = IvNum q -> ~ (q == 0)%Q -> z = described_interval (Some q)).
Proof.
  intros Hpath v previous rounded.
  exists (fallback_interval v).
  rewrite (heuristic_adjustments env summary forceFallback Hpath).
  split; [reflexivity|]. split; [reflexivity|].
  split; [unfold fallback_interval, Math_max; lia|].
  split; [apply Math_round_spec|].
  split; [|split; [|split]].
  - intros n Hv Hn. unfold fallback_interval, Math_max. rewrite Hv. cbn [truthy_interval interval_to_number].
    assert (Hnz : Qeq_bool (inject_Z n) 0 = false).
    { apply not_true_is_false. rewrite Qeq_bool_iff. unfold Qeq, inject_Z. cbn. lia. }
    rewrite Hnz. cbn [negb]. rewrite Math_round_half. reflexivity.
  - intros Hv. rewrite Hv. reflexivity.
  - intros Hv. rewrite Hv. split; reflexivity.
  - intros q Hv Hq. unfold fallback_interval, described_interval, Math_max. rewrite Hv.
    cbn [truthy_interval interval_to_number default].
    assert (Hnz : Qeq_bool q 0 = false).
    { apply not_true_is_false. rewrite Qeq_bool_iff. exact Hq. }
    rewrite Hnz. reflexivity.
Qed.

(** A forced fallback on a previous interval of 45 minutes. *)
Lemma forced_fallback_halves_45 :
  reminderIntervalMinutes
    (recommendedAdjustments
       (generateReminderAdjustments (offline_at 0)
          (summary_with_interval (IvNum (inject_Z 45))) true))
  = Some (JNum (inject_Z 23)).
Proof.
  destruct (heuristic_interval (offline_at 0) (summary_with_interval (IvNum (inject_Z 45))) true)
    as [z [Hz [_ [_ [_ [_ [H45 _]]]]]]].
  - reflexivity.
  - rewrite Hz, (H45 eq_refl). reflexivity.
Defined.

(** Claim C10.  A supplied interval that reads as false (0, null, NaN, the
    empty string, false) is treated like a missing one: the 45-minute
    default is halved, and the heuristic answers 23, not 15. *)
Theorem falsy_interval_uses_default (env : Env) (summary : ReminderSummary)
    (forceFallback : bool) :
  heuristic_path env forceFallback = true ->
  let v := ctx_reminderIntervalMinutes (sm_context summary) in
  (v = IvNull \/ v = IvNaN \/ v = IvEmptyString \/ v = IvBool false \/
   exists q, v = IvNum q /\ (q == 0)%Q) ->
  fallback_interval v = fallback_interval IvUndefined /\
  fallback_interval v = 23 /\
  fallback_interval v <> 15 /\
  reminderIntervalMinutes
    (recommendedAdjustments (generateReminderAdjustments env summary forceFallback))
  = Some (JNum (inject_Z 23)).
Proof.
  intros Hpath v Hfalsy.
  assert (Hf : truthy_interval v = false) by (apply truthy_interval_false; tauto).
  rewrite (heuristic_adjustments env summary forceFallback Hpath).
  cbn [fallbackReminderSuggestion recommendedAdjustments reminderIntervalMinutes].
  fold v. rewrite (fallback_interval_falsy v Hf).
  repeat split; try reflexivity. discriminate.
Qed.

(** A forced fallback on a supplied interval of 0. *)
Lemma forced_fallback_ignores_zero :
  reminderIntervalMinutes
    (recommendedAdjustments
       (generateReminderAdjustments (offline_at 0) (summary_with_interval (IvNum 0)) true))
  = Some (JNum (inject_Z 23)).
Proof.
  apply (falsy_interval_uses_default (offline_at 0) (summary_with_interval (IvNum 0)) true).
  - reflexivity.
  - right; right; right; right. exists 0%Q. split; reflexivity.
Defined.

(** ** Claim C5: failures *)

Lemma callOpenAI_missing_key (env : Env) :
  stored_api_key env = EmptyString -> callOpenAI env = Threw MISSING_KEY.
Proof. unfold callOpenAI, getApiKey. intros ->. reflexivity. Qed.

Lemma callOpenAI_with_key (env : Env) :
  stored_api_key env <> EmptyString ->
  callOpenAI env =
    match fetch env with
    | FetchRejected msg => Threw msg
    | FetchResponse r =>
        if negb (ok r) then Threw (request_failed_message r)
        else match body_error r with
             | Some msg => Threw msg
             | None =>
                 match output_text r with
                 | Some text =>
                     if negb (truthy_str (trim text)) then Threw UNEXPECTED_FORMAT
                     else Returned (trim text)
                 | None => Threw UNEXPECTED_FORMAT
                 end
             end
    end.
Proof.
  intros Hkey. unfold callOpenAI, getApiKey.
  apply truthy_str_spec in Hkey. rewrite Hkey. reflexivity.
Qed.

Lemma safeParse_unparseable (env : Env) (text : string) :
  JSON_parse env text = None -> safeParse env text JNull = JNull.
Proof.
  intros H. unfold safeParse. rewrite H. destruct (negb (truthy_str text)); reflexivity.
Qed.

Lemma generate_on_failure (env : Env) (summary : ReminderSummary) (msg : string) :
  has_fetch env = true -> callOpenAI env = Threw msg ->
  generateReminderAdjustments env summary false
  = with_error (fallbackReminderSuggestion summary) msg.
Proof. unfold generateReminderAdjustments. intros -> ->. reflexivity. Qed.

Lemma generate_on_unparseable (env : Env) (summary : ReminderSummary) (text : string) :
  has_fetch env = true -> callOpenAI env = Returned text -> JSON_parse env text = None ->
  generateReminderAdjustments env summary false
  = with_rawResponse (fallbackReminderSuggestion summary) (JStr text).
Proof.
  unfold generateReminderAdjustments. intros -> -> H.
  rewrite (safeParse_unparseable _ _ H). reflexivity.
Qed.

Lemma organize_returns (env : Env) (s : GlobalState) (input : ItemsArg) (forceFallback : bool) :
  exists result, snd (organizeBrainDump env s input forceFallback) = Returned result.
Proof.
  unfold organizeBrainDump. cbv zeta.
  destruct (negb (has_fetch env) || forceFallback); [eexists; reflexivity|].
  destruct (callOpenAI env) as [msg|text]; [eexists; reflexivity|].
  destruct (negb (truthy (safeParse env text JNull))); [eexists; reflexivity|].
  destruct (is_object (safeParse env text JNull)); eexists; reflexivity.
Qed.

Lemma organize_on_failure (env : Env) (s : GlobalState) (input : ItemsArg) (msg : string) :
  has_fetch env = true -> callOpenAI env = Threw msg ->
  snd (organizeBrainDump env s input false)
  = Returned (Heuristic (out_with_error (fallbackBrainDump (normalize_items input)) msg)).
Proof. unfold organizeBrainDump. intros -> ->. reflexivity. Qed.

Lemma organize_on_unparseable (env : Env) (s : GlobalState) (input : ItemsArg) (text : string) :
  has_fetch env = true -> callOpenAI env = Returned text -> JSON_parse env text = None ->
  snd (organizeBrainDump env s input false)
  = Returned (Heuristic
                (out_with_rawResponse (fallbackBrainDump (normalize_items input)) text)).
Proof.
  unfold organizeBrainDump. intros -> -> H.
  rewrite (safeParse_unparseable _ _ H). reflexivity.
Qed.

(** Why a call is rejected. *)
Lemma record_rejects_iff (env : Env) (s : GlobalState) (a : ReminderArgs) :
  threw (snd (recordReminderInteraction env s a)) = true <->
  arg_taskId a = EmptyString \/ arg_action a = EmptyString \/
  (tasks s !! arg_taskId a = None /\ inherited (arg_taskId a) = true) \/
  (suggestion_due env s a = true /\ callback_throws a (due_suggestion env s a) <> None).
Proof.
  destruct (accepted s a) eqn:Hacc.
  - rewrite (result_of_record _ _ _ Hacc).
    apply accepted_spec in Hacc as [Hv Hb]. apply valid_args_spec in Hv as [Ht Ha].
    assert (Hnb : ~ (tasks s !! arg_taskId a = None /\ inherited (arg_taskId a) = true)).
    { rewrite <- blocked_spec. congruence. }
    unfold settle.
    destruct (suggestion_due env s a);
      destruct (callback_throws a (due_suggestion env s a)) as [msg|]; cbn [threw];
      split; try discriminate; try tauto.
    intros _. right; right; right. split; [reflexivity|discriminate].
  - rewrite (record_refused_result _ _ _ Hacc). split; [intros _|reflexivity].
    unfold accepted in Hacc. apply andb_false_iff in Hacc as [Hv|Hb].
    + apply valid_args_false in Hv. tauto.
    + apply negb_false_iff, blocked_spec in Hb. tauto.
Qed.




(** ** Claims C6 and C7: the heuristic categorizer *)

Lemma nat_of_ascii_inj (a b : ascii) : nat_of_ascii a = nat_of_ascii b -> a = b.
Proof.
  intros H. rewrite <- (ascii_nat_embedding a), <- (ascii_nat_embedding b), H. reflexivity.
Qed.

Lemma fold_case_code (c : ascii) :
  nat_of_ascii (fold_case c)
  = if ((65 <=? nat_of_ascii c)%nat && (nat_of_ascii c <=? 90)%nat)
    then (nat_of_ascii c + 32)%nat else nat_of_ascii c.
Proof.
  unfold fold_case.
  destruct ((65 <=? nat_of_ascii c)%nat && (nat_of_ascii c <=? 90)%nat) eqn:H; [|reflexivity].
  apply nat_ascii_embedding.
  apply andb_true_iff in H as [_ H]. apply Nat.leb_le in H. lia.
Qed.

(** Folding the case identifies exactly the code units that are the same
    letter. *)
Lemma fold_case_same_letter (a b : ascii) :
  fold_case a = fold_case b <-> same_letter a b.
Proof.
  unfold same_letter.
  assert (Heq : a = b <-> nat_of_ascii a = nat_of_ascii b)
    by (split; [intros ->; reflexivity | apply nat_of_ascii_inj]).
  assert (Hf : fold_case a = fold_case b
               <-> nat_of_ascii (fold_case a) = nat_of_ascii (fold_case b))
    by (split; [intros ->; reflexivity | apply nat_of_ascii_inj]).
  rewrite Hf, Heq, !fold_case_code.
  destruct (Nat.leb_spec 65 (nat_of_ascii a)), (Nat.leb_spec (nat_of_ascii a) 90),
    (Nat.leb_spec 65 (nat_of_ascii b)), (Nat.leb_spec (nat_of_ascii b) 90);
    cbn [andb]; lia.
Qed.

Lemma starts_with_ci_spec (pat text : string) :
  starts_with_ci pat text = true <->
  exists mid post, text = mid +:+ post /\ same_text mid pat.
Proof.
  revert text. induction pat as [|p pat IH]; intros text.
  - cbn. split; [|reflexivity]. intros _. exists EmptyString, text. split; reflexivity.
  - destruct text as [|c text]; cbn [starts_with_ci].
    + split; [discriminate|]. intros [mid [post [Htext Hsame]]].
      destruct mid; [exact (False_ind _ Hsame)|discriminate].
    + rewrite andb_true_iff, Ascii.eqb_eq, IH. split.
      * intros [Hc [mid [post [-> Hsame]]]].
        exists (String c mid), post. split; [reflexivity|].
        split; [apply fold_case_same_letter; congruence|exact Hsame].
      * intros [mid [post [Htext Hsame]]].
        destruct mid as [|m mid]; [exact (False_ind _ Hsame)|].
        cbn in Htext. injection Htext as -> ->. destruct Hsame as [Hm Hsame].
        apply fold_case_same_letter in Hm.
        split; [congruence|]. exists mid, post. split; [reflexivity|assumption].
Qed.

Lemma contains_ci_spec (pat text : string) :
  contains_ci pat text = true <-> occurs_ci pat text.
Proof.
  unfold occurs_ci. induction text as [|c text IH].
  - cbn [contains_ci]. rewrite orb_false_r, starts_with_ci_spec. split.
    + intros [mid [post [H1 H2]]]. exists EmptyString, mid, post. split; assumption.
    + intros [pre [mid [post [H1 H2]]]]. destruct pre; [|discriminate].
      exists mid, post. split; assumption.
  - cbn [contains_ci]. rewrite orb_true_iff, starts_with_ci_spec, IH. split.
    + intros [[mid [post [H1 H2]]]|[pre [mid [post [H1 H2]]]]].
      * exists EmptyString, mid, post. split; assumption.
      * exists (String c pre), mid, post. rewrite H1. split; [reflexivity|assumption].
    + intros [pre [mid [post [H1 H2]]]]. destruct pre as [|c' pre].
      * left. exists mid, post. split; assumption.
      * right. cbn in H1. injection H1 as -> ->. exists pre, mid, post.
        split; [reflexivity|assumption].
Qed.

Lemma regex_test_spec (alternatives : list string) (text : string) :
  regex_test alternatives text = true <->
  exists kw, In kw alternatives /\ occurs_ci kw text.
Proof.
  unfold regex_test. rewrite existsb_exists.
  split; intros [kw [Hin H]]; exists kw; (split; [exact Hin|]); apply contains_ci_spec; exact H.
Qed.

(** The rules, tried in their order. *)
Lemma bucket_label_rules (text : string) :
  bucket_label text =
    if regex_test ["call"; "email"; "text"; "pay"; "tidy"] text then "2-minute Wins"
    else if regex_test ["plan"; "prepare"; "research"; "outline"] text then "Prep & Planning"
    else if regex_test ["write"; "design"; "build"; "develop"; "analyze"] text then "Deep Work"
    else if regex_test ["cook"; "exercise"; "meditate"; "laundry"; "clean"; "rest"; "self"] text
         then "Personal Care"
    else "Miscellaneous".
Proof.
  unfold bucket_label, focusBuckets. cbn [List.find snd fst].
  repeat match goal with |- context [if ?c then _ else _] => destruct c; [reflexivity|] end.
  reflexivity.
Qed.

Lemma push_category_get (label text : string) (cats : list (string * list string))
    (l' : string) :
  assoc_get l' (push_category label text cats)
  = if String.eqb label l'
    then Some (default [] (assoc_get label cats) ++ [text])
    else assoc_get l' cats.
Proof.
  induction cats as [|[l members] rest IH]; cbn [push_category assoc_get].
  - destruct (String.eqb label l'); reflexivity.
  - destruct (String.eqb l label) eqn:Hl; cbn [assoc_get].
    + apply String.eqb_eq in Hl. subst l.
      destruct (String.eqb label l'); reflexivity.
    + rewrite IH. destruct (String.eqb label l') eqn:Hl'.
      * apply String.eqb_eq in Hl'. subst l'. rewrite Hl. reflexivity.
      * reflexivity.
Qed.

Lemma categorize_get_from (entries : list string) (cats : list (string * list string))
    (label : string) :
  assoc_get label (fold_left categorize_item entries cats)
  = extend (assoc_get label cats) (members_of label (nonblank_texts entries)).
Proof.
  revert cats. induction entries as [|e entries IH]; intros cats; [reflexivity|].
  cbn [fold_left]. rewrite IH. unfold categorize_item, nonblank_texts.
  cbn [map List.filter]. fold (nonblank_texts entries).
  destruct (truthy_str (trim e)) eqn:Hblank; cbn [negb]; [|reflexivity].
  rewrite push_category_get. unfold members_of at 2. cbn [List.filter].
  fold (members_of label (nonblank_texts entries)).
  destruct (String.eqb (bucket_label (trim e)) label) eqn:Hl; [|reflexivity].
  apply String.eqb_eq in Hl. rewrite Hl.
  destruct (members_of label (nonblank_texts entries)); unfold extend, default; cbn [id].
  - reflexivity.
  - rewrite <- app_assoc. reflexivity.
Qed.

Lemma push_category_labels (label text : string) (cats : list (string * list string)) :
  map fst (push_category label text cats)
  = if existsb (String.eqb label) (map fst cats) then map fst cats
    else map fst cats ++ [label].
Proof.
  induction cats as [|[l members] rest IH]; cbn [push_category map fst existsb app].
  - reflexivity.
  - rewrite String.eqb_sym. destruct (String.eqb label l); cbn [map fst orb].
    + reflexivity.
    + rewrite IH. destruct (existsb (String.eqb label) (map fst rest)); reflexivity.
Qed.

Lemma push_category_NoDup (label text : string) (cats : list (string * list string)) :
  List.NoDup (map fst cats) -> List.NoDup (map fst (push_category label text cats)).
Proof.
  intros Hnd. rewrite push_category_labels.
  destruct (existsb (String.eqb label) (map fst cats)) eqn:Hex; [exact Hnd|].
  apply List.NoDup_app; [exact Hnd | repeat constructor; intros [] |].
  intros x Hx [<-|[]].
  assert (existsb (String.eqb label) (map fst cats) = true); [|congruence].
  apply existsb_exists. exists label. split; [exact Hx|apply String.eqb_refl].
Qed.

Lemma categorize_NoDup (entries : list string) :
  List.NoDup (map fst (categorize entries)).
Proof.
  unfold categorize.
  assert (H : forall cats, List.NoDup (map fst cats) ->
              List.NoDup (map fst (fold_left categorize_item entries cats))).
  { induction entries as [|e entries IH]; intros cats Hnd; [exact Hnd|].
    cbn [fold_left]. apply IH. unfold categorize_item.
    destruct (negb (truthy_str (trim e))); [exact Hnd|].
    apply push_category_NoDup, Hnd. }
  apply H. constructor.
Qed.

Lemma categories_get (entries : list string) (label : string) :
  assoc_get label (categories (fallbackBrainDump entries))
  = match members_of label (nonblank_texts entries) with
    | [] => None
    | members => Some members
    end.
Proof.
  cbn [fallbackBrainDump categories]. unfold categorize.
  rewrite categorize_get_from. cbn [assoc_get].
  destruct (members_of label (nonblank_texts entries)); reflexivity.
Qed.

(** Being the same letter, in terms of the code units themselves. *)
Lemma same_letter_codes (a b : ascii) :
  same_letter a b <->
  a = b \/
  (exists n : nat, (65 <= n <= 90)%nat /\
     ((a = ascii_of_nat n /\ b = ascii_of_nat (n + 32)) \/
      (b = ascii_of_nat n /\ a = ascii_of_nat (n + 32)))).
Proof.
  unfold same_letter. split.
  - intros [H|[[Hr H]|[Hr H]]]; [left; exact H| |].
    + right. exists (nat_of_ascii a). split; [exact Hr|]. left.
      rewrite <- H, !ascii_nat_embedding. split; reflexivity.
    + right. exists (nat_of_ascii b). split; [exact Hr|]. right.
      rewrite <- H, !ascii_nat_embedding. split; reflexivity.
  - intros [H|[n [Hr [[-> ->]|[-> ->]]]]]; [left; exact H| |].
    + right; left. rewrite !nat_ascii_embedding by lia. split; [exact Hr|reflexivity].
    + right; right. rewrite !nat_ascii_embedding by lia. split; [exact Hr|reflexivity].
Qed.

(** Claim C6.  A pattern matches a text when one of its keywords occurs
    in it, letter case apart: each letter of the keyword may stand in the
    text as it is, as its capital or as its small letter.  The label of a
    text is that of the first rule, in the order 2-minute Wins, Prep and
    Planning, Deep Work, Personal Care, whose pattern matches, and
    Miscellaneous when none does; each bucket holds, in order, the
    trimmed non-blank items with its label; the three-item example is
    categorized as described, the focus naming the first of its singleton
    buckets; and so are items written in capitals or in mixed case. *)
Theorem categorizer_first_match :
  (forall alternatives text,
     regex_test alternatives text = true <->
     exists kw, In kw alternatives /\ occurs_ci kw text)
  /\
  (forall text,
     bucket_label text =
       if regex_test ["call"; "email"; "text"; "pay"; "tidy"] text then "2-minute Wins"
       else if regex_test ["plan"; "prepare"; "research"; "outline"] text
            then "Prep & Planning"
       else if regex_test ["write"; "design"; "build"; "develop"; "analyze"] text
            then "Deep Work"
       else if regex_test
                 ["cook"; "exercise"; "meditate"; "laundry"; "clean"; "rest"; "self"] text
            then "Personal Care"
       else "Miscellaneous")
  /\
  (forall entries label,
     assoc_get label (categories (fallbackBrainDump entries))
     = match members_of label (nonblank_texts entries) with
       | [] => None
       | members => Some members
       end)
  /\
  (forall entries, List.NoDup (map fst (categories (fallbackBrainDump entries))))
  /\
  (forall env s,
     snd (organizeBrainDump env s
            (ItemsArray ["call mom"; "write report"; "nonsense xyz"]) true)
     = Returned (Heuristic
         {| categories := [("2-minute Wins", ["call mom"]);
                           ("Deep Work", ["write report"]);
                           ("Miscellaneous", ["nonsense xyz"])];
            focusRecommendation :=
              "Start with one item from " +:+ quote_mark +:+ "2-minute Wins"
              +:+ quote_mark +:+ " today.";
            summary := "Organized 3 items into 3 categories.";
            out_rawResponse := None;
            out_error := None |}))
  /\
  (forall env s,
     snd (organizeBrainDump env s
            (ItemsArray ["CALL Mom"; "Write REPORT"; "  pLaN a Trip "; "Nonsense XYZ";
                         "eMail Bob"]) true)
     = Returned (Heuristic
         {| categories := [("2-minute Wins", ["CALL Mom"; "eMail Bob"]);
                           ("Deep Work", ["Write REPORT"]);
                           ("Prep & Planning", ["pLaN a Trip"]);
                           ("Miscellaneous", ["Nonsense XYZ"])];
            focusRecommendation :=
              "Start with one item from " +:+ quote_mark +:+ "2-minute Wins"
              +:+ quote_mark +:+ " today.";
            summary := "Organized 5 items into 4 categories.";
            out_rawResponse := None;
            out_error := None |}))
  /\
  (forall a b : ascii,
     same_letter a b <->
     a = b \/
     (exists n : nat, (65 <= n <= 90)%nat /\
        ((a = ascii_of_nat n /\ b = ascii_of_nat (n + 32)) \/
         (b = ascii_of_nat n /\ a = ascii_of_nat (n + 32)))))
  /\
  (occurs_ci "call" "Please CaLl Mom" /\ ~ occurs_ci "call" "cal l").
Proof.
  split; [exact regex_test_spec|].
  split; [exact bucket_label_rules|].
  split; [exact categories_get|].
  split; [intros entries; apply categorize_NoDup|].
  split; [|split; [|split; [|split]]].
  - intros env s. unfold organizeBrainDump. cbv zeta.
    rewrite orb_true_r. cbn [snd normalize_items].
    vm_compute. reflexivity.
  - intros env s. unfold organizeBrainDump. cbv zeta.
    rewrite orb_true_r. cbn [snd normalize_items].
    vm_compute. reflexivity.
  - exact same_letter_codes.
  - apply contains_ci_spec. vm_compute. reflexivity.
  - rewrite <- contains_ci_spec. vm_compute. discriminate.
Qed.

Lemma push_category_total (label text : string) (cats : list (string * list string)) :
  total_filed (push_category label text cats) = S (total_filed cats).
Proof.
  unfold total_filed.
  induction cats as [|[l members] rest IH]; simpl.
  - reflexivity.
  - destruct (String.eqb l label); simpl.
    + rewrite length_app. simpl. lia.
    + rewrite IH. lia.
Qed.

Lemma categorize_total (entries : list string) :
  total_filed (categorize entries) = length (nonblank_texts entries).
Proof.
  unfold categorize.
  assert (H : forall cats,
            total_filed (fold_left categorize_item entries cats)
            = (total_filed cats + length (nonblank_texts entries))%nat).
  { induction entries as [|e entries IH]; intros cats.
    - cbn [fold_left nonblank_texts map List.filter length]. lia.
    - cbn [fold_left]. rewrite IH. unfold categorize_item, nonblank_texts.
      cbn [map List.filter].
      destruct (truthy_str (trim e)); cbn [negb length]; [|reflexivity].
      rewrite push_category_total. lia. }
  rewrite H. reflexivity.
Qed.

Lemma assoc_get_In {A : Type} (key : string) (v : A) (l : list (string * A)) :
  List.NoDup (map fst l) -> In (key, v) l -> assoc_get key l = Some v.
Proof.
  induction l as [|[k x] rest IH]; intros Hnd Hin; [destruct Hin|].
  cbn [map fst] in Hnd. inversion Hnd as [|? ? Hfresh Hrest]; subst.
  cbn [assoc_get]. destruct Hin as [[= -> ->]|Hin].
  - rewrite String.eqb_refl. reflexivity.
  - destruct (String.eqb k key) eqn:Hk.
    + apply String.eqb_eq in Hk. subst k. exfalso. apply Hfresh.
      apply (in_map fst) in Hin. exact Hin.
    + apply IH; assumption.
Qed.

Lemma bucket_members (entries : list string) (label : string) (members : list string) :
  In (label, members) (categories (fallbackBrainDump entries)) ->
  members = members_of label (nonblank_texts entries) /\ members <> [].
Proof.
  intros Hin.
  pose proof (assoc_get_In label members _ (categorize_NoDup entries) Hin) as Hget.
  change (categorize entries) with (categories (fallbackBrainDump entries)) in Hget.
  rewrite categories_get in Hget.
  destruct (members_of label (nonblank_texts entries)); [discriminate|].
  injection Hget as <-. split; [reflexivity|discriminate].
Qed.

(** Claim C7, as stated, fails: the summary counts every item handed in,
    the blank ones too. *)
Lemma blank_items_are_counted :
  summary (fallbackBrainDump ["call mom"; "  "; EmptyString])
  = "Organized 3 items into 1 categories."%string /\
  described_summary ["call mom"; "  "; EmptyString]
  = "Organized 1 items into 1 categories."%string /\
  summary (fallbackBrainDump ["call mom"; "  "; EmptyString])
  <> described_summary ["call mom"; "  "; EmptyString].
Proof.
  split; [vm_compute; reflexivity|]. split; [vm_compute; reflexivity|].
  vm_compute. discriminate.
Qed.

(** Claim C7, amended.  Blank items are filed in no bucket, every other
    item is filed once, trimmed, and no bucket is empty; the summary reads
    Organized n items into k categories. with n the number of items handed
    in, blank ones included, and k the number of buckets, 1 when there is
    none. *)
Theorem summary_counts_all_items (entries : list string) :
  let out := fallbackBrainDump entries in
  summary out
  = "Organized " +:+ pretty (length entries) +:+ " items into "
    +:+ pretty (Nat.max 1 (length (categories out))) +:+ " categories." /\
  total_filed (categories out) = length (nonblank_texts entries) /\
  (forall label members,
     In (label, members) (categories out) ->
     members <> [] /\
     forall text, In text members ->
       text <> EmptyString /\ exists e, In e entries /\ text = trim e) /\
  (nonblank_texts entries = [] -> categories out = []).
Proof.
  intros out. split; [|split; [|split]].
  - cbn [out fallbackBrainDump summary categories]. unfold summary_text.
    destruct (length (categorize entries)); reflexivity.
  - apply categorize_total.
  - intros label members Hin.
    destruct (bucket_members entries label members Hin) as [Hmem Hne].
    split; [exact Hne|]. intros text Htext. rewrite Hmem in Htext.
    unfold members_of, nonblank_texts in Htext.
    apply filter_In in Htext as [Htext _]. apply filter_In in Htext as [Htext Htruthy].
    split; [apply truthy_str_spec; exact Htruthy|].
    apply in_map_iff in Htext as [e [He Hin']]. exists e. split; [exact Hin'|congruence].
  - intros Hblank. pose proof (categorize_total entries) as Htotal.
    rewrite Hblank in Htotal. cbn [length] in Htotal.
    cbn [out fallbackBrainDump categories].
    destruct (categorize entries) as [|[label members] rest] eqn:Hc; [reflexivity|].
    exfalso.
    assert (Hin : In (label, members) (categories (fallbackBrainDump entries))).
    { cbn [fallbackBrainDump categories]. rewrite Hc. left. reflexivity. }
    destruct (bucket_members entries label members Hin) as [_ Hne].
    unfold total_filed in Htotal. simpl in Htotal.
    destruct members; [congruence|]. simpl in Htotal. lia.
Qed.

(** One item and two blank ones. *)
Lemma summary_of_one_item_and_two_blanks :
  summary (fallbackBrainDump ["call mom"; "  "; EmptyString])
  = "Organized 3 items into 1 categories."%string /\
  categories (fallbackBrainDump ["call mom"; "  "; EmptyString])
  = [("2-minute Wins"%string, ["call mom"%string])].
Proof.
  split.
  - rewrite (proj1 (summary_counts_all_items ["call mom"; "  "; EmptyString])).
    vm_compute. reflexivity.
  - vm_compute. reflexivity.
Defined.

(** ** Claim C8: the brain dump log *)

Lemma step_brainDumpHistory (s : GlobalState) (op : Op) :
  exists added, brainDumpHistory (step s op) = brainDumpHistory s ++ added.
Proof.
  destruct op as [env a|t|env input force]; cbn [step].
  - exists []. rewrite brainDumpHistory_after_record, app_nil_r. reflexivity.
  - exists []. unfold resetTaskHistory.
    destruct (negb (truthy_str t)); cbn [brainDumpHistory]; rewrite app_nil_r; reflexivity.
  - eexists. rewrite organize_state. reflexivity.
Qed.

Lemma run_brainDumpHistory (ops : list Op) (s : GlobalState) :
  exists added, brainDumpHistory (run s ops) = brainDumpHistory s ++ added.
Proof.
  revert s. induction ops as [|op ops IH]; intros s.
  - exists []. cbn. rewrite app_nil_r. reflexivity.
  - cbn [run fold_left]. change (fold_left step ops (step s op)) with (run (step s op) ops).
    destruct (IH (step s op)) as [more Hmore].
    destruct (step_brainDumpHistory s op) as [added Hadded].
    exists (added ++ more). rewrite Hmore, Hadded, app_assoc. reflexivity.
Qed.

(** Claim C8.  Whatever it is given and however the categorization ends,
    [organizeBrainDump] leaves the state with exactly one more record at
    the end of the log, holding the normalized items (none for an input
    that is not an array), and changes nothing else; the state it leaves
    does not depend on the network or on the forced fallback; and no
    operation removes or alters a record already logged. *)
Theorem brain_dump_log_append_only :
  normalize_items NotAnArray = [] /\
  (forall entries, normalize_items (ItemsArray entries) = entries) /\
  (forall (env : Env) (s : GlobalState) (input : ItemsArg) (forceFallback : bool),
     brainDumpHistory (fst (organizeBrainDump env s input forceFallback))
     = brainDumpHistory s ++ [{| items := normalize_items input; timestamp := nowIso env |}] /\
     tasks (fst (organizeBrainDump env s input forceFallback)) = tasks s /\
     lastSuggestion (fst (organizeBrainDump env s input forceFallback)) = lastSuggestion s)
  /\
  (forall (env env' : Env) (s : GlobalState) (input : ItemsArg) (force force' : bool),
     fst (organizeBrainDump env s input force)
     = fst (organizeBrainDump
              {| has_fetch := has_fetch env'; stored_api_key := stored_api_key env';
                 fetch := fetch env'; JSON_parse := JSON_parse env';
                 primitive_assignment_message := primitive_assignment_message env';
                 undefined_property_message := undefined_property_message env';
                 nowMs := nowMs env'; nowIso := nowIso env |} s input force'))
  /\
  (forall (s : GlobalState) (op : Op),
     exists added, brainDumpHistory (step s op) = brainDumpHistory s ++ added)
  /\
  (forall (s : GlobalState) (ops : list Op),
     exists added, brainDumpHistory (run s ops) = brainDumpHistory s ++ added).
Proof.
  split; [reflexivity|]. split; [reflexivity|].
  split; [|split; [|split]].
  - intros env s input force. rewrite organize_state. repeat split.
  - intros env env' s input force force'. rewrite !organize_state. reflexivity.
  - exact step_brainDumpHistory.
  - intros s ops. apply run_brainDumpHistory.
Qed.

(** ** Claim C9: resetting a task *)

Lemma reset_truthy (s : GlobalState) (taskId : string) :
  taskId <> EmptyString ->
  resetTaskHistory s taskId
  = {| tasks := delete taskId (tasks s);
       lastSuggestion := delete taskId (lastSuggestion s);
       brainDumpHistory := brainDumpHistory s |}.
Proof.
  intros H. unfold resetTaskHistory. apply truthy_str_spec in H. rewrite H. reflexivity.
Qed.

Lemma no_empty_task (s : GlobalState) :
  well_formed s ->
  tasks s !! EmptyString = None /\ lastSuggestion s !! EmptyString = None.
Proof.
  intros Hwf. split.
  - destruct (tasks s !! EmptyString) as [ts|] eqn:H; [|reflexivity].
    exfalso. exact (proj1 (wf_task_ids s Hwf _ _ H) eq_refl).
  - destruct (lastSuggestion s !! EmptyString) as [sg|] eqn:H; [|reflexivity].
    exfalso. exact (proj1 (wf_suggestion_ids s Hwf _ _ H) eq_refl).
Qed.




(** ** The focus recommendation *)

Lemma insert_by_size_head (e : string * list string) (sorted : list (string * list string)) :
  head (insert_by_size e sorted)
  = match head sorted with
    | None => Some e
    | Some y => if (length (snd y) <=? length (snd e))%nat then Some e else Some y
    end.
Proof.
  destruct sorted as [|y rest]; cbn [insert_by_size head]; [reflexivity|].
  destruct (length (snd y) <=? length (snd e))%nat; reflexivity.
Qed.

(** The bucket the focus names is one of the buckets, and none is
    larger. *)
Lemma most_populated_spec (cats : list (string * list string)) (c : string * list string) :
  head (sort_by_size cats) = Some c ->
  In c cats /\ Forall (fun c' => (length (snd c') <= length (snd c))%nat) cats.
Proof.
  revert c. induction cats as [|x rest IH]; intros c; [discriminate|].
  cbn [sort_by_size foldr]. fold (sort_by_size rest). rewrite insert_by_size_head.
  destruct (head (sort_by_size rest)) as [y|] eqn:Hhead.
  - destruct (IH y eq_refl) as [Hin Hall].
    destruct (Nat.leb_spec (length (snd y)) (length (snd x))) as [Hle|Hgt];
      intros [= <-].
    + split; [left; reflexivity|]. constructor; [lia|].
      eapply Forall_impl; [exact Hall|]. cbn. intros; lia.
    + split; [right; exact Hin|]. constructor; [lia|exact Hall].
  - intros [= <-]. destruct rest as [|z rest'].
    + split; [left; reflexivity|]. repeat constructor.
    + exfalso. cbn [sort_by_size foldr] in Hhead. fold (sort_by_size rest') in Hhead.
      rewrite insert_by_size_head in Hhead.
      destruct (head (sort_by_size rest')) as [w|]; [|discriminate].
      destruct (length (snd w) <=? length (snd z))%nat; discriminate.
Qed.

(** ** Further runs *)

Example trim_keeps_inner_space : trim "  a b  " = "a b"%string.
Proof. reflexivity. Qed.

(** A 429 without a JSON body. *)
Example status_in_message :
  callOpenAI
    (online_with
       (FetchResponse {| ok := false; status := 429; error_message := None;
                         body_error := None; output_text := None |})
       (fun _ => None))
  = Threw "OpenAI request failed with status 429".
Proof. vm_compute. reflexivity. Qed.

(** An answer that parses to an object is passed through, its interval
    unchecked. *)
Example model_answer_used :
  let answer := JObj [("message"%string, JStr "Start small.");
                      ("reminderIntervalMinutes"%string, JNum (inject_Z 10))] in
  let env := online_with
               (FetchResponse {| ok := true; status := 200; error_message := None;
                                 body_error := None; output_text := Some " {} " |})
               (fun _ => Some answer) in
  generateReminderAdjustments env (summary_with_interval IvUndefined) false
  = {| sg_taskId := "t"; reason := "consecutive-skips"; message := JStr "Start small.";
       recommendedAdjustments :=
         {| suggestedStartStep := None;
            reminderIntervalMinutes := Some (JNum (inject_Z 10)) |};
       rawResponse := Some answer; error := None |}.
Proof. vm_compute. reflexivity. Qed.

(** An answer that parses to a number cannot take the [rawResponse]
    property; the organizer falls back. *)
Example primitive_answer_falls_back :
  let env := online_with
               (FetchResponse {| ok := true; status := 200; error_message := None;
                                 body_error := None; output_text := Some "5" |})
               (fun _ => Some (JNum (inject_Z 5))) in
  snd (organizeBrainDump env initial_state (ItemsArray ["call mom"]) false)
  = Returned (Heuristic (out_with_error (fallbackBrainDump ["call mom"])
                           "Cannot create property")).
Proof. vm_compute. reflexivity. Qed.

(** At equal sizes the bucket created first is recommended. *)
Example focus_tie_goes_to_first_bucket :
  focusRecommendation (fallbackBrainDump ["zzz"; "call a"])
  = focus_for "Miscellaneous" /\
  focusRecommendation (fallbackBrainDump ["zzz"; "call a"; "email b"])
  = focus_for "2-minute Wins".
Proof. split; vm_compute; reflexivity. Qed.

(** * Further properties of the tracker *)

(** ** What one call touches *)

(** A call for one task leaves the other tasks, their suggestions and the
    brain dump log alone. *)
Theorem record_frame (env : Env) (s : GlobalState) (a : ReminderArgs) (other : string) :
  other <> arg_taskId a ->
  tasks (fst (recordReminderInteraction env s a)) !! other = tasks s !! other /\
  getLastSuggestion (fst (recordReminderInteraction env s a)) other
  = getLastSuggestion s other /\
  brainDumpHistory (fst (recordReminderInteraction env s a)) = brainDumpHistory s.
Proof.
  intros Hne. unfold getLastSuggestion, get_property.
  split; [|split; [|apply brainDumpHistory_after_record]].
  - apply tasks_after_record_ne. congruence.
  - rewrite lastSuggestion_after_record_ne by congruence. reflexivity.
Qed.

(** The third skip of task a changes nothing for task b. *)
Lemma third_skip_spares_other_task :
  let env := offline_at 1700000000000 in
  let s := run initial_state
             [OpRecord env (call "b" "skip"); OpRecord env (call "a" "skip");
              OpRecord env (call "a" "skip")] in
  "b"%string <> arg_taskId (call "a" "skip") /\
  tasks (fst (recordReminderInteraction env s (call "a" "skip"))) !! "b"
  = tasks s !! "b".
Proof.
  cbv zeta. split; [discriminate|].
  apply (record_frame (offline_at 1700000000000)
           (run initial_state
              [OpRecord (offline_at 1700000000000) (call "b" "skip");
               OpRecord (offline_at 1700000000000) (call "a" "skip");
               OpRecord (offline_at 1700000000000) (call "a" "skip")])
           (call "a" "skip") "b").
  discriminate.
Defined.

(** What a call hands out is what it stores: a returned suggestion is
    the one [getLastSuggestion] answers from then on, stamped with the
    clock of the call; a call that returns [null] leaves the suggestions
    and the stamp of its task as they were.  A rejected call either was
    refused before any write, for want of an id or an action or because
    its id names an inherited property, and leaves everything; or its
    callback threw, and then the suggestion is stored and the task
    stamped all the same.  Without a callback a rejected call leaves
    everything. *)
Theorem returned_suggestion_is_stored (env : Env) (s : GlobalState) (a : ReminderArgs) :
  match snd (recordReminderInteraction env s a) with
  | Returned (Some sg) =>
      getLastSuggestion (fst (recordReminderInteraction env s a)) (arg_taskId a) = Own sg /\
      lastSuggestionTimestamp
        (prior_task (fst (recordReminderInteraction env s a)) (arg_taskId a)) = nowMs env
  | Returned None =>
      lastSuggestion (fst (recordReminderInteraction env s a)) = lastSuggestion s /\
      lastSuggestionTimestamp
        (prior_task (fst (recordReminderInteraction env s a)) (arg_taskId a))
      = lastSuggestionTimestamp (prior_task s (arg_taskId a))
  | Threw msg =>
      (fst (recordReminderInteraction env s a) = s /\
       (arg_taskId a = EmptyString \/ arg_action a = EmptyString \/
        (tasks s !! arg_taskId a = None /\ inherited (arg_taskId a) = true))) \/
      (callback_throws a (due_suggestion env s a) = Some msg /\
       getLastSuggestion (fst (recordReminderInteraction env s a)) (arg_taskId a)
       = Own (due_suggestion env s a) /\
       lastSuggestionTimestamp
         (prior_task (fst (recordReminderInteraction env s a)) (arg_taskId a)) = nowMs env)
  end /\
  (arg_onSuggestion a = None ->
   threw (snd (recordReminderInteraction env s a)) = true ->
   fst (recordReminderInteraction env s a) = s).
Proof.
  destruct (accepted s a) eqn:Hv.
  - rewrite (result_of_record _ _ _ Hv), (prior_task_after_record _ _ _ Hv),
      task_after_last. unfold getLastSuggestion.
    rewrite (lastSuggestion_after_record _ _ _ Hv).
    destruct (suggestion_due env s a).
    + assert (Hown : get_property (<[arg_taskId a := due_suggestion env s a]> (lastSuggestion s))
                       (arg_taskId a) = Own (due_suggestion env s a))
        by (apply get_property_own, lookup_insert_eq).
      unfold settle, callback_throws.
      destruct (arg_onSuggestion a) as [onSuggestion|] eqn:Hcb.
      * destruct (onSuggestion (due_suggestion env s a)) as [msg|] eqn:Hthrows.
        -- split; [|discriminate]. right. split; [reflexivity|]. split; [exact Hown|reflexivity].
        -- split; [|discriminate]. split; [exact Hown|reflexivity].
      * split; [|discriminate]. split; [exact Hown|reflexivity].
    + split; [|discriminate]. split; reflexivity.
  - destruct (record_refused env s a Hv) as [msg Hr]. rewrite Hr. cbn [fst snd].
    split; [|reflexivity]. left. split; [reflexivity|].
    unfold accepted in Hv. apply andb_false_iff in Hv as [Hv|Hb].
    + apply valid_args_false in Hv. tauto.
    + apply negb_false_iff, blocked_spec in Hb. tauto.
Qed.

(** The third skip of a new task, with a callback that throws: the call
    is rejected and the suggestion stored. *)
Lemma rejected_by_callback_yet_stored :
  let env := offline_at 1700000000000 in
  let s2 := run initial_state
              [OpRecord env (call "t" "skip"); OpRecord env (call "t" "skip")] in
  let r := recordReminderInteraction env s2
             (call_with_throwing_callback "t" "skip" "no thanks") in
  snd r = Threw "no thanks" /\
  getLastSuggestion (fst r) "t" = Own (due_suggestion env s2
                                        (call_with_throwing_callback "t" "skip" "no thanks")).
Proof.
  cbv zeta.
  pose proof (proj1 (returned_suggestion_is_stored (offline_at 1700000000000)
                (run initial_state
                   [OpRecord (offline_at 1700000000000) (call "t" "skip");
                    OpRecord (offline_at 1700000000000) (call "t" "skip")])
                (call_with_throwing_callback "t" "skip" "no thanks"))) as H.
  assert (Hr : snd (recordReminderInteraction (offline_at 1700000000000)
                      (run initial_state
                         [OpRecord (offline_at 1700000000000) (call "t" "skip");
                          OpRecord (offline_at 1700000000000) (call "t" "skip")])
                      (call_with_throwing_callback "t" "skip" "no thanks"))
               = Threw "no thanks") by (vm_compute; reflexivity).
  split; [exact Hr|].
  destruct H as [[_ [H|[H|[H _]]]]|[_ [H _]]]; [discriminate|discriminate| |exact H].
  vm_compute in H. discriminate.
Defined.

(** ** The two dictionaries agree *)

Lemma generate_identity (env : Env) (summary : ReminderSummary) (forceFallback : bool) :
  sg_taskId (generateReminderAdjustments env summary forceFallback) = sm_taskId summary /\
  reason (generateReminderAdjustments env summary forceFallback) = "consecutive-skips"%string.
Proof.
  unfold generateReminderAdjustments.
  destruct (negb (has_fetch env) || forceFallback); [split; reflexivity|].
  destruct (callOpenAI env) as [msg|text]; [split; reflexivity|].
  destruct (negb (truthy (safeParse env text JNull))); split; reflexivity.
Qed.

Lemma consistent_initial : suggestions_consistent initial_state.
Proof. split; cbn; intros ? ? H; rewrite lookup_empty in H; discriminate. Qed.

Lemma prior_task_stamp (s : GlobalState) (t : string) :
  suggestions_consistent s -> 0 <= lastSuggestionTimestamp (prior_task s t).
Proof.
  intros Hc. unfold prior_task.
  destruct (tasks s !! t) as [ts|] eqn:Hl; cbn; [|lia].
  destruct (sc_stamp s Hc t ts Hl) as [->|[H _]]; unfold ONE_HOUR in *; lia.
Qed.

Lemma consistent_record (env : Env) (s : GlobalState) (a : ReminderArgs) :
  suggestions_consistent s ->
  suggestions_consistent (fst (recordReminderInteraction env s a)).
Proof.
  intros Hc. destruct (accepted s a) eqn:Hv.
  2:{ rewrite (record_refused_state _ _ _ Hv). exact Hc. }
  pose proof (prior_task_stamp s (arg_taskId a) Hc) as Hpos.
  destruct (suggestion_due env s a) eqn:Hdue.
  - pose proof (proj1 (suggestion_due_spec env s a) Hdue) as [_ Hhour].
    split; intros t x;
      rewrite ?(tasks_after_record _ _ _ Hv), ?(lastSuggestion_after_record _ _ _ Hv), ?Hdue.
    + rewrite lookup_insert. case_decide as Ht.
      * intros [= <-]. subst t. unfold due_suggestion.
        destruct (generate_identity env (summary_of env s a) (arg_forceFallback a)) as [H1 H2].
        rewrite H1, H2. split; reflexivity.
      * apply (sc_id s Hc).
    + rewrite !lookup_insert. case_decide as Ht.
      * intros _. eexists. split; [reflexivity|].
        rewrite task_after_last, Hdue. lia.
      * apply (sc_task s Hc).
    + rewrite !lookup_insert. case_decide as Ht.
      * intros [= <-]. right. rewrite task_after_last, Hdue. split; [lia|eauto].
      * apply (sc_stamp s Hc).
  - split; intros t x;
      rewrite ?(tasks_after_record _ _ _ Hv), ?(lastSuggestion_after_record _ _ _ Hv), ?Hdue.
    + apply (sc_id s Hc).
    + rewrite lookup_insert. case_decide as Ht.
      * subst t. intros Hsg. destruct (sc_task s Hc _ _ Hsg) as [ts [Hts Hstamp]].
        eexists. split; [reflexivity|].
        rewrite task_after_last, Hdue. unfold prior_task. rewrite Hts. exact Hstamp.
      * apply (sc_task s Hc).
    + rewrite lookup_insert. case_decide as Ht.
      * subst t. intros [= <-]. rewrite task_after_last, Hdue. unfold prior_task.
        destruct (tasks s !! arg_taskId a) as [ts|] eqn:Hts; cbn.
        -- apply (sc_stamp s Hc _ _ Hts).
        -- left. reflexivity.
      * apply (sc_stamp s Hc).
Qed.

Lemma consistent_reset (s : GlobalState) (t : string) :
  suggestions_consistent s -> suggestions_consistent (resetTaskHistory s t).
Proof.
  intros Hc. unfold resetTaskHistory.
  destruct (truthy_str t); cbn [negb]; [|exact Hc].
  split; cbn [tasks lastSuggestion]; intros t' x;
    (destruct (decide (t = t')) as [<-|Ht];
     [rewrite lookup_delete_eq; discriminate | rewrite !lookup_delete_ne by assumption]).
  - apply (sc_id s Hc).
  - apply (sc_task s Hc).
  - apply (sc_stamp s Hc).
Qed.

Lemma consistent_step (s : GlobalState) (op : Op) :
  suggestions_consistent s -> suggestions_consistent (step s op).
Proof.
  destruct op as [env a|t|env input force]; cbn [step].
  - apply consistent_record.
  - apply consistent_reset.
  - intros Hc. rewrite organize_state. split; cbn [push_brain_dump tasks lastSuggestion].
    + apply (sc_id s Hc).
    + apply (sc_task s Hc).
    + apply (sc_stamp s Hc).
Qed.

Lemma reachable_consistent (s : GlobalState) : reachable s -> suggestions_consistent s.
Proof. induction 1; auto using consistent_initial, consistent_step. Qed.

(** In every reachable state [getLastSuggestion] answers a stored
    suggestion for an id exactly when the task exists with a stamp other
    than 0; that suggestion carries the id and the reason
    consecutive-skips, and the id names no inherited property.  Under an
    id that does name one nothing is ever stored, neither a task nor a
    suggestion, and [getLastSuggestion] answers what [Object.prototype]
    holds there.  A stamp is 0 or at least one hour past the epoch. *)
Theorem suggestions_match_stamps (s : GlobalState) (t : string) :
  reachable s ->
  ((exists sg, getLastSuggestion s t = Own sg) <->
     exists ts, tasks s !! t = Some ts /\ lastSuggestionTimestamp ts <> 0) /\
  (forall sg, getLastSuggestion s t = Own sg ->
     sg_taskId sg = t /\ reason sg = "consecutive-skips"%string /\ inherited t = false) /\
  (inherited t = true <-> getLastSuggestion s t = Inherited t) /\
  (inherited t = true -> tasks s !! t = None /\ lastSuggestion s !! t = None) /\
  (forall ts, tasks s !! t = Some ts ->
     lastSuggestionTimestamp ts = 0 \/ ONE_HOUR <= lastSuggestionTimestamp ts).
Proof.
  intros Hs. pose proof (reachable_consistent s Hs) as Hc.
  pose proof (reachable_wf s Hs) as Hwf. unfold getLastSuggestion.
  assert (Hfree : inherited t = true -> tasks s !! t = None /\ lastSuggestion s !! t = None).
  { intros Hi. split.
    - destruct (tasks s !! t) as [ts|] eqn:Hts; [|reflexivity].
      pose proof (proj2 (wf_task_ids s Hwf t ts Hts)). congruence.
    - destruct (lastSuggestion s !! t) as [sg|] eqn:Hsg; [|reflexivity].
      pose proof (proj2 (wf_suggestion_ids s Hwf t sg Hsg)). congruence. }
  split; [|split; [|split; [|split]]].
  - split.
    + intros [sg Hsg]. apply get_property_own in Hsg.
      destruct (sc_task s Hc _ _ Hsg) as [ts [Hts Hstamp]].
      exists ts. split; [exact Hts|]. unfold ONE_HOUR in Hstamp. lia.
    + intros [ts [Hts Hne]].
      destruct (sc_stamp s Hc _ _ Hts) as [H0|[_ [sg Hsome]]]; [contradiction|].
      exists sg. apply get_property_own. exact Hsome.
  - intros sg Hsg. apply get_property_own in Hsg.
    destruct (sc_id s Hc _ _ Hsg) as [H1 H2].
    split; [exact H1|]. split; [exact H2|].
    exact (proj2 (wf_suggestion_ids s Hwf t sg Hsg)).
  - split.
    + intros Hi. apply get_property_inherited.
      split; [apply (Hfree Hi)|]. split; [exact Hi|reflexivity].
    + intros H. apply get_property_inherited in H. tauto.
  - exact Hfree.
  - intros ts Hts. destruct (sc_stamp s Hc _ _ Hts) as [H0|[H1 _]]; auto.
Qed.

(** After three skips and a snooze the suggestion is still there, and the
    stamp with it. *)
Lemma suggestion_survives_snooze :
  let env := offline_at 1700000000000 in
  let s := run initial_state
             [OpRecord env (call "t" "skip"); OpRecord env (call "t" "skip");
              OpRecord env (call "t" "skip"); OpRecord env (call "t" "snooze")] in
  ((exists sg, getLastSuggestion s "t" = Own sg) <->
   exists ts, tasks s !! "t" = Some ts /\ lastSuggestionTimestamp ts <> 0) /\
  exists sg, getLastSuggestion s "t" = Own sg.
Proof.
  cbv zeta.
  split; [|eexists; vm_compute; reflexivity].
  apply (suggestions_match_stamps
           (run initial_state
              [OpRecord (offline_at 1700000000000) (call "t" "skip");
               OpRecord (offline_at 1700000000000) (call "t" "skip");
               OpRecord (offline_at 1700000000000) (call "t" "skip");
               OpRecord (offline_at 1700000000000) (call "t" "snooze")]) "t").
  apply reachable_run, reachable_init.
Defined.

(** ** The throttle window *)

Lemma not_due_within_hour (env : Env) (s : GlobalState) (a : ReminderArgs) :
  nowMs env - lastSuggestionTimestamp (prior_task s (arg_taskId a)) < ONE_HOUR ->
  suggestion_due env s a = false.
Proof.
  intros Hsoon. apply not_true_is_false. rewrite suggestion_due_spec. lia.
Qed.

Lemma step_within_hour (s : GlobalState) (op : Op) (t : string) (since : Z) :
  resets t op = false -> within_hour since t op = true ->
  lastSuggestionTimestamp (prior_task s t) = since ->
  lastSuggestionTimestamp (prior_task (step s op) t) = since /\
  lastSuggestion (step s op) !! t = lastSuggestion s !! t.
Proof.
  intros Hreset Hwithin Hsince.
  destruct op as [env a|t'|env input force]; cbn [step].
  - destruct (accepted s a) eqn:Hv.
    2:{ rewrite (record_refused_state _ _ _ Hv). split; [exact Hsince|reflexivity]. }
    destruct (String.eqb_spec (arg_taskId a) t) as [Heq|Hne].
    + cbn [within_hour] in Hwithin. rewrite <- Heq, String.eqb_refl in Hwithin.
      cbn [negb orb] in Hwithin. apply Z.ltb_lt in Hwithin.
      assert (Hdue : suggestion_due env s a = false).
      { apply not_due_within_hour. rewrite Heq, Hsince. exact Hwithin. }
      rewrite <- Heq at 1 2.
      rewrite (prior_task_after_record _ _ _ Hv), task_after_last,
        (lastSuggestion_after_record _ _ _ Hv), Hdue, Heq.
      split; [exact Hsince|reflexivity].
    + rewrite (prior_task_after_record_ne _ _ _ _ Hne),
        (lastSuggestion_after_record _ _ _ Hv).
      split; [exact Hsince|].
      destruct (suggestion_due env s a); [|reflexivity].
      apply lookup_insert_ne. exact Hne.
  - cbn [resets] in Hreset. apply String.eqb_neq in Hreset.
    rewrite (prior_task_reset_ne _ _ _ Hreset). split; [exact Hsince|].
    unfold resetTaskHistory. destruct (negb (truthy_str t')); [reflexivity|].
    cbn [lastSuggestion]. apply lookup_delete_ne. exact Hreset.
  - rewrite prior_task_organize, organize_state. split; [exact Hsince|reflexivity].
Qed.

(** Once a task has a stamp, no run of operations whose calls for that
    task all come within the hour after it, and which does not reset the
    task, moves the stamp or replaces the suggestion; and the next call
    within the hour returns no suggestion either, however high the
    counter is. *)
Theorem throttle_window_holds (ops : list Op) (s : GlobalState) (t : string) (since : Z) :
  Forall (fun op => resets t op = false) ops ->
  Forall (fun op => within_hour since t op = true) ops ->
  lastSuggestionTimestamp (prior_task s t) = since ->
  lastSuggestionTimestamp (prior_task (run s ops) t) = since /\
  getLastSuggestion (run s ops) t = getLastSuggestion s t /\
  (forall env a, arg_taskId a = t -> nowMs env - since < ONE_HOUR ->
     ~ is_suggestion (snd (recordReminderInteraction env (run s ops) a))).
Proof.
  intros Hno Hin Hsince.
  assert (Hrun : lastSuggestionTimestamp (prior_task (run s ops) t) = since /\
                 lastSuggestion (run s ops) !! t = lastSuggestion s !! t).
  { revert s Hsince. induction ops as [|op ops IH]; intros s Hsince.
    - split; [exact Hsince|reflexivity].
    - apply Forall_cons in Hno as [Hop Hrest]. apply Forall_cons in Hin as [Hw Hwrest].
      cbn [run fold_left]. change (fold_left step ops (step s op)) with (run (step s op) ops).
      destruct (step_within_hour s op t since Hop Hw Hsince) as [Hstamp Hsame].
      destruct (IH Hrest Hwrest (step s op) Hstamp) as [H1 H2].
      split; [exact H1|]. rewrite H2. exact Hsame. }
  destruct Hrun as [Hstamp Hsame]. split; [exact Hstamp|].
  split; [unfold getLastSuggestion, get_property; rewrite Hsame; reflexivity|].
  intros env a Ha Hsoon [sg Hsg].
  destruct (accepted (run s ops) a) eqn:Hv.
  - rewrite (result_of_record _ _ _ Hv), not_due_within_hour in Hsg; [discriminate|].
    rewrite Ha, Hstamp. exact Hsoon.
  - destruct (record_refused env _ a Hv) as [msg Hr]. rewrite Hr in Hsg. discriminate.
Qed.

(** Five more skips in the minute after a suggestion: the sixth is not
    answered. *)
Lemma skips_within_the_hour_stay_unanswered :
  let env := offline_at 1700000000000 in
  let later := offline_at 1700000060000 in
  let s := run initial_state
             [OpRecord env (call "t" "skip"); OpRecord env (call "t" "skip");
              OpRecord env (call "t" "skip")] in
  let ops := [OpRecord later (call "t" "skip"); OpRecord later (call "t" "skip");
              OpRecord later (call "t" "skip"); OpRecord later (call "t" "skip");
              OpRecord later (call "t" "skip")] in
  lastSuggestionTimestamp (prior_task s "t") = 1700000000000 /\
  consecutiveSkips (prior_task (run s ops) "t") = 8 /\
  ~ is_suggestion (snd (recordReminderInteraction later (run s ops) (call "t" "skip"))).
Proof.
  cbv zeta. split; [vm_compute; reflexivity|]. split; [vm_compute; reflexivity|].
  refine (proj2 (proj2 (throttle_window_holds _ _ "t" 1700000000000 _ _ _))
            (offline_at 1700000060000) (call "t" "skip") _ _).
  - repeat constructor.
  - repeat constructor.
  - vm_compute. reflexivity.
  - reflexivity.
  - vm_compute. reflexivity.
Defined.

(** ** Resetting and the throttle *)

Lemma reset_absent (s : GlobalState) (t : string) :
  t <> EmptyString -> tasks (resetTaskHistory s t) !! t = None.
Proof.
  intros Ht. rewrite (reset_truthy s t Ht). cbn [tasks]. apply lookup_delete_eq.
Qed.

(** A reset opens the throttle: for an id that names no inherited
    property, the third of three skips that follow it is answered as soon
    as the clock is an hour past the epoch (and the callback, if any,
    returns), whatever the task's stamp was before; the task is stamped
    with the clock of that call whatever the callback does. *)
Theorem reset_reopens_throttle (s : GlobalState) (t : string) (e1 e2 e3 : Env)
    (a1 a2 a3 : ReminderArgs) :
  t <> EmptyString -> inherited t = false ->
  is_skip_of t a1 -> is_skip_of t a2 -> is_skip_of t a3 ->
  ONE_HOUR <= nowMs e3 ->
  let r1 := recordReminderInteraction e1 (resetTaskHistory s t) a1 in
  let r2 := recordReminderInteraction e2 (fst r1) a2 in
  let r3 := recordReminderInteraction e3 (fst r2) a3 in
  (callback_throws a3 (due_suggestion e3 (fst r2) a3) = None -> is_suggestion (snd r3)) /\
  lastSuggestionTimestamp (prior_task (fst r3) t) = nowMs e3 /\
  getLastSuggestion (fst r3) t = Own (due_suggestion e3 (fst r2) a3).
Proof.
  intros Ht Hi S1 S2 S3 Hclock r1 r2 r3.
  pose proof (reset_absent s t Ht) as Hnew.
  destruct (new_task_two_skips t e1 e2 a1 a2 _ Ht Hi Hnew S1 S2) as [Hlast Hcount].
  fold r1 in Hlast, Hcount. fold r2 in Hlast, Hcount.
  assert (Hdue : suggestion_due e3 (fst r2) a3 = true).
  { apply (skip_due _ _ _ t S3). rewrite Hlast, Hcount. change (js_add 2 1) with 3. lia. }
  pose proof (is_skip_accepted (fst r2) t a3 Ht Hi S3) as Hacc.
  split; [|split].
  - intros Hquiet. unfold r3. rewrite (result_of_record _ _ _ Hacc), Hdue.
    rewrite (settle_returns _ _ Hquiet). eexists. reflexivity.
  - unfold r3. rewrite (skip_last _ _ _ _ Ht Hi S3), Hdue. reflexivity.
  - unfold r3, getLastSuggestion. apply get_property_own.
    rewrite (lastSuggestion_after_record _ _ _ Hacc), Hdue.
    destruct S3 as [<- _]. apply lookup_insert_eq.
Qed.

(** One minute after a suggestion three skips are throttled; after a
    reset the same three skips are answered. *)
Lemma reset_then_three_skips_suggest :
  let env := offline_at 1700000000000 in
  let later := offline_at 1700000060000 in
  let s := run initial_state
             [OpRecord env (call "t" "skip"); OpRecord env (call "t" "skip");
              OpRecord env (call "t" "skip")] in
  let r1 := recordReminderInteraction later (resetTaskHistory s "t") (call "t" "skip") in
  let r2 := recordReminderInteraction later (fst r1) (call "t" "skip") in
  let r3 := recordReminderInteraction later (fst r2) (call "t" "skip") in
  is_suggestion (snd r3).
Proof.
  cbv zeta.
  refine (proj1 (reset_reopens_throttle _ "t" (offline_at 1700000060000)
                   (offline_at 1700000060000) (offline_at 1700000060000)
                   (call "t" "skip") (call "t" "skip") (call "t" "skip") _ _ _ _ _ _) _).
  - discriminate.
  - reflexivity.
  - split; reflexivity.
  - split; reflexivity.
  - split; reflexivity.
  - vm_compute. discriminate.
  - reflexivity.
Defined.

(** Resetting twice is resetting once, and resets of two ids can be made
    in either order. *)
Theorem reset_idempotent_commutes (s : GlobalState) (t1 t2 : string) :
  resetTaskHistory (resetTaskHistory s t1) t1 = resetTaskHistory s t1 /\
  resetTaskHistory (resetTaskHistory s t1) t2 = resetTaskHistory (resetTaskHistory s t2) t1.
Proof.
  unfold resetTaskHistory.
  destruct (truthy_str t1), (truthy_str t2); cbn [negb tasks lastSuggestion brainDumpHistory];
    split; try reflexivity.
  - rewrite !delete_delete_eq. reflexivity.
  - f_equal; apply delete_delete.
  - rewrite !delete_delete_eq. reflexivity.
Qed.

(** ** The counter and the log *)

Lemma count_skips_cons (a : string) (rest : list string) :
  count_skips (a :: rest)
  = (if String.eqb a "skip" then 1 else 0) + count_skips rest.
Proof.
  unfold count_skips. cbn [List.filter].
  destruct (String.eqb a "skip"); cbn [length]; lia.
Qed.

Lemma completion_is_no_skip (a : string) :
  is_completion a = true -> String.eqb a "skip" = false.
Proof.
  unfold is_completion. rewrite orb_true_iff, !String.eqb_eq.
  intros [->| ->]; reflexivity.
Qed.

Lemma after_last_completion_none (actions : list string) :
  existsb is_completion actions = false -> after_last_completion actions = actions.
Proof.
  destruct actions as [|a rest]; [reflexivity|]. cbn [existsb after_last_completion].
  rewrite orb_false_iff. intros [-> ->]. reflexivity.
Qed.

Lemma count_skips_nonneg (actions : list string) : 0 <= count_skips actions.
Proof. unfold count_skips. lia. Qed.

Lemma counter_after_run (ops : list Op) (s : GlobalState) (t : string) :
  inherited t = false ->
  Forall (fun op => resets t op = false) ops ->
  0 <= consecutiveSkips (prior_task s t) <= 2 ^ 53 ->
  consecutiveSkips (prior_task (run s ops) t)
  = if existsb is_completion (map entry_action (entries_for t ops))
    then Z.min (2 ^ 53)
           (count_skips (after_last_completion (map entry_action (entries_for t ops))))
    else Z.min (2 ^ 53)
           (consecutiveSkips (prior_task s t)
            + count_skips (map entry_action (entries_for t ops))).
Proof.
  intros Hi. revert s. induction ops as [|op ops IH]; intros s Hno Hrange.
  - cbn. unfold count_skips. cbn. lia.
  - apply Forall_cons in Hno as [Hop Hrest]. cbn [run fold_left].
    change (fold_left step ops (step s op)) with (run (step s op) ops).
    destruct op as [env a|t'|env input force]; cbn [entries_for step].
    + destruct (valid_args a && String.eqb (arg_taskId a) t) eqn:Hmine.
      * destruct (record_mine s a t Hi Hmine) as [Heq Hv]. subst t.
        assert (Hafter : consecutiveSkips
                           (prior_task (fst (recordReminderInteraction env s a)) (arg_taskId a))
                         = consecutiveSkips
                             (update_skips (arg_action a) (prior_task s (arg_taskId a))))
          by (rewrite (prior_task_after_record _ _ _ Hv); apply task_after_skips).
        rewrite (IH _ Hrest);
          [|rewrite Hafter; apply update_skips_range; exact Hrange].
        rewrite Hafter, update_skips_counter.
        cbn [map entry_of entry_action existsb after_last_completion].
        fold (is_completion (arg_action a)).
        pose proof (count_skips_nonneg
                      (map entry_action (entries_for (arg_taskId a) ops))) as Hpos.
        destruct (existsb is_completion (map entry_action (entries_for (arg_taskId a) ops)));
          [rewrite orb_true_r; reflexivity|].
        rewrite orb_false_r, count_skips_cons.
        destruct (is_completion (arg_action a)) eqn:Hc.
        -- rewrite (completion_is_no_skip _ Hc). lia.
        -- destruct (String.eqb (arg_action a) "skip"); [|lia].
           rewrite js_add_one by exact Hrange. lia.
      * rewrite (IH _ Hrest); rewrite (record_not_mine env s a t Hmine);
          [reflexivity|exact Hrange].
    + cbn [resets] in Hop. apply String.eqb_neq in Hop.
      rewrite (IH _ Hrest); rewrite (prior_task_reset_ne _ _ _ Hop);
        [reflexivity|exact Hrange].
    + rewrite (IH _ Hrest); rewrite prior_task_organize; [reflexivity|exact Hrange].
Qed.

(** The counter of a task whose id names no inherited property is the
    number of skips recorded for it since its last [complete] or [snooze]
    (since its first interaction when there is none), other actions not
    interrupting the count; the count stops at 2^53, where adding 1 no
    longer changes a double.  This holds for every run that starts
    without the task and does not reset it. *)
Theorem counter_counts_skips_since_completion (ops : list Op) (s : GlobalState)
    (t : string) :
  inherited t = false ->
  tasks s !! t = None ->
  Forall (fun op => resets t op = false) ops ->
  consecutiveSkips (prior_task (run s ops) t)
  = Z.min (2 ^ 53)
      (count_skips (after_last_completion (map entry_action (entries_for t ops)))).
Proof.
  intros Hi Hnew Hno.
  assert (Hp : prior_task s t = new_task_state)
    by (unfold prior_task; rewrite Hnew; reflexivity).
  rewrite (counter_after_run ops s t Hi Hno); [|rewrite Hp; cbn; lia].
  destruct (existsb is_completion (map entry_action (entries_for t ops))) eqn:Hex;
    [reflexivity|].
  rewrite (after_last_completion_none _ Hex), Hp. reflexivity.
Qed.

(** skip, skip, complete, skip, open, skip: two skips since the
    completion. *)
Lemma counter_after_mixed_actions :
  let env := offline_at 1700000000000 in
  let ops := [OpRecord env (call "t" "skip"); OpRecord env (call "t" "skip");
              OpRecord env (call "t" "complete"); OpRecord env (call "t" "skip");
              OpRecord env (call "t" "open"); OpRecord env (call "u" "complete");
              OpRecord env (call "t" "skip")] in
  consecutiveSkips (prior_task (run initial_state ops) "t") = 2.
Proof.
  cbv zeta.
  pose proof (counter_counts_skips_since_completion
              [OpRecord (offline_at 1700000000000) (call "t" "skip");
               OpRecord (offline_at 1700000000000) (call "t" "skip");
               OpRecord (offline_at 1700000000000) (call "t" "complete");
               OpRecord (offline_at 1700000000000) (call "t" "skip");
               OpRecord (offline_at 1700000000000) (call "t" "open");
               OpRecord (offline_at 1700000000000) (call "u" "complete");
               OpRecord (offline_at 1700000000000) (call "t" "skip")]
              initial_state "t" eq_refl eq_refl) as Hcount.
  rewrite Hcount; [vm_compute; reflexivity|]. repeat constructor.
Defined.

(** ** What the generator returns *)



(** On every path the suggestion carries the id of the summary and the
    reason consecutive-skips; [error] is set exactly when the request was
    tried and the client threw, [rawResponse] exactly when the client
    returned a text; so the two are never set together, and a suggestion
    with neither is the plain heuristic one. *)
Theorem generator_paths (env : Env) (summary : ReminderSummary) (forceFallback : bool) :
  let sg := generateReminderAdjustments env summary forceFallback in
  let tried := has_fetch env && negb forceFallback in
  sg_taskId sg = sm_taskId summary /\
  reason sg = "consecutive-skips"%string /\
  (forall msg, error sg = Some msg <-> tried = true /\ callOpenAI env = Threw msg) /\
  (is_Some (rawResponse sg) <-> tried = true /\ exists text, callOpenAI env = Returned text) /\
  (error sg = None \/ rawResponse sg = None) /\
  (error sg = None -> rawResponse sg = None -> sg = fallbackReminderSuggestion summary).
Proof.
  cbv zeta. unfold generateReminderAdjustments.
  assert (Hplain : forall tried : bool, tried = false ->
            sg_taskId (fallbackReminderSuggestion summary) = sm_taskId summary /\
            reason (fallbackReminderSuggestion summary) = "consecutive-skips"%string /\
            (forall msg, error (fallbackReminderSuggestion summary) = Some msg <->
               tried = true /\ callOpenAI env = Threw msg) /\
            (is_Some (rawResponse (fallbackReminderSuggestion summary)) <->
               tried = true /\ exists text, callOpenAI env = Returned text) /\
            (error (fallbackReminderSuggestion summary) = None \/
             rawResponse (fallbackReminderSuggestion summary) = None) /\
            (error (fallbackReminderSuggestion summary) = None ->
             rawResponse (fallbackReminderSuggestion summary) = None ->
             fallbackReminderSuggestion summary = fallbackReminderSuggestion summary)).
  { intros tried ->. cbn [fallbackReminderSuggestion sg_taskId reason error rawResponse].
    split; [reflexivity|]. split; [reflexivity|].
    split; [intros msg; split; [discriminate | intros [H _]; discriminate]|].
    split; [split; [intros [x Hx]; discriminate | intros [H _]; discriminate]|].
    split; [left; reflexivity | reflexivity]. }
  destruct (has_fetch env), forceFallback; cbn [negb orb andb];
    try (apply Hplain; reflexivity).
  clear Hplain.
  destruct (callOpenAI env) as [msg|text].
  - cbn [with_error fallbackReminderSuggestion sg_taskId reason error rawResponse].
    split; [reflexivity|]. split; [reflexivity|].
    split; [intros msg0; split;
            [intros [= <-]; split; reflexivity | intros [_ [= <-]]; reflexivity]|].
    split; [split; [intros [x Hx]; discriminate | intros [_ [text Ht]]; discriminate]|].
    split; [right; reflexivity | discriminate].
  - destruct (negb (truthy (safeParse env text JNull)));
      cbn [with_rawResponse fallbackReminderSuggestion sg_taskId reason error rawResponse];
      (split; [reflexivity|]; split; [reflexivity|];
       split; [intros msg; split; [discriminate | intros [_ H]; discriminate]|];
       split; [split; [intros _; split; [reflexivity | eexists; reflexivity]
                      | intros _; eexists; reflexivity]|];
       split; [left; reflexivity | intros _ H; discriminate]).
Qed.

(** ** The completion client's answer *)

Lemma trim_end_non_space (c : ascii) (rest : string) :
  is_white_space c = false -> trim_end (String c rest) = String c (trim_end rest).
Proof.
  intros Hc. cbn [trim_end]. rewrite Hc. destruct (trim_end rest); reflexivity.
Qed.

Lemma trim_end_idempotent (s : string) : trim_end (trim_end s) = trim_end s.
Proof.
  induction s as [|c rest IH]; [reflexivity|]. cbn [trim_end].
  destruct (trim_end rest) as [|k kept] eqn:Hrest.
  - destruct (is_white_space c) eqn:Hc; [reflexivity|].
    cbn [trim_end]. rewrite Hc. reflexivity.
  - cbn [trim_end] in *. rewrite IH. reflexivity.
Qed.

Lemma trim_start_head (s : string) :
  trim_start s = EmptyString \/
  exists c rest, trim_start s = String c rest /\ is_white_space c = false.
Proof.
  induction s as [|c rest IH]; [left; reflexivity|]. cbn [trim_start].
  destruct (is_white_space c) eqn:Hc; [exact IH|].
  right. exists c, rest. split; [reflexivity|exact Hc].
Qed.

Lemma trim_trimmed (s : string) : trimmed (trim s).
Proof.
  unfold trimmed, trim. split; [|apply trim_end_idempotent].
  destruct (trim_start_head s) as [->|[c [rest [-> Hc]]]]; [reflexivity|].
  rewrite (trim_end_non_space c rest Hc). cbn [trim_start]. rewrite Hc. reflexivity.
Qed.

Lemma trim_idempotent (s : string) : trim (trim s) = trim s.
Proof.
  destruct (trim_trimmed s) as [Hstart Hend]. unfold trim at 1. rewrite Hstart. exact Hend.
Qed.

(** The client returns a text exactly when a key is stored, the request
    is answered with a 2xx status and a JSON body, and the text found in
    it is not blank; what it returns is that text without the white space
    around it, never the empty string. *)
Theorem client_returns_trimmed_text (env : Env) (text : string) :
  (callOpenAI env = Returned text <->
     stored_api_key env <> EmptyString /\
     exists r raw,
       fetch env = FetchResponse r /\ ok r = true /\ body_error r = None /\
       output_text r = Some raw /\ trim raw = text /\ text <> EmptyString) /\
  (callOpenAI env = Returned text ->
     trimmed text /\ trim text = text /\ text <> EmptyString).
Proof.
  assert (Hiff : callOpenAI env = Returned text <->
     stored_api_key env <> EmptyString /\
     exists r raw,
       fetch env = FetchResponse r /\ ok r = true /\ body_error r = None /\
       output_text r = Some raw /\ trim raw = text /\ text <> EmptyString).
  { split.
    - intros Hret.
      destruct (truthy_str (stored_api_key env)) eqn:Hkey.
      2:{ apply truthy_str_false in Hkey. rewrite (callOpenAI_missing_key _ Hkey) in Hret.
          discriminate. }
      apply truthy_str_spec in Hkey. split; [exact Hkey|].
      rewrite (callOpenAI_with_key _ Hkey) in Hret.
      destruct (fetch env) as [msg|r]; [discriminate|].
      destruct (ok r) eqn:Hok; cbn [negb] in Hret; [|discriminate].
      destruct (body_error r) eqn:Hbody; [discriminate|].
      destruct (output_text r) as [raw|] eqn:Htext; [|discriminate].
      destruct (truthy_str (trim raw)) eqn:Hne; cbn [negb] in Hret; [|discriminate].
      injection Hret as <-. exists r, raw.
      repeat split; try assumption; try reflexivity. apply truthy_str_spec. exact Hne.
    - intros [Hkey [r [raw [Hf [Hok [Hbody [Htext [<- Hne]]]]]]]].
      rewrite (callOpenAI_with_key _ Hkey), Hf, Hok, Hbody, Htext. cbn [negb].
      apply truthy_str_spec in Hne. rewrite Hne. reflexivity. }
  split; [exact Hiff|].
  intros Hret. apply Hiff in Hret as [_ [r [raw [_ [_ [_ [_ [<- Hne]]]]]]]].
  split; [apply trim_trimmed|]. split; [apply trim_idempotent|exact Hne].
Qed.

(** An answer that is valid JSON but reads as false (null, false, 0, the
    empty string) is handled like one that does not parse: both entry
    points answer with what the heuristic answers, its [rawResponse] set
    to the text of the answer and its [error] left unset. *)
Theorem falsy_answer_is_discarded (env : Env) (summary : ReminderSummary)
    (s : GlobalState) (input : ItemsArg) (text : string) (v : json) :
  has_fetch env = true ->
  callOpenAI env = Returned text ->
  JSON_parse env text = Some v ->
  truthy v = false ->
  (rawResponse (generateReminderAdjustments env summary false) = Some (JStr text) /\
   error (generateReminderAdjustments env summary false) = None /\
   same_advice (generateReminderAdjustments env summary false)
     (fallbackReminderSuggestion summary)) /\
  (exists out,
     snd (organizeBrainDump env s input false) = Returned (Heuristic out) /\
     out_rawResponse out = Some text /\ out_error out = None /\
     same_buckets out (fallbackBrainDump (normalize_items input))).
Proof.
  intros Hfetch Hret Hparse Hfalsy.
  assert (Hsafe : truthy (safeParse env text JNull) = false).
  { unfold safeParse. destruct (negb (truthy_str text)); [reflexivity|].
    rewrite Hparse. exact Hfalsy. }
  unfold generateReminderAdjustments, organizeBrainDump.
  rewrite Hfetch, Hret, Hsafe. cbn [negb orb snd]. split.
  - repeat split.
  - eexists. split; [reflexivity|]. repeat split.
Qed.

(** The model answers null: the suggestion and the organizer's answer
    both carry the text null as their raw response. *)
Lemma null_answer_falls_back :
  let env := online_with
               (FetchResponse {| ok := true; status := 200; error_message := None;
                                 body_error := None; output_text := Some " null " |})
               (fun _ => Some JNull) in
  callOpenAI env = Returned "null" /\
  rawResponse (generateReminderAdjustments env (summary_with_interval IvUndefined) false)
  = Some (JStr "null") /\
  exists out,
    snd (organizeBrainDump env initial_state (ItemsArray ["call mom"]) false)
    = Returned (Heuristic out) /\
    out_rawResponse out = Some "null"%string /\ out_error out = None /\
    categories out = [("2-minute Wins"%string, ["call mom"%string])].
Proof.
  cbv zeta. split; [vm_compute; reflexivity|].
  destruct (falsy_answer_is_discarded
              (online_with
                 (FetchResponse {| ok := true; status := 200; error_message := None;
                                   body_error := None; output_text := Some " null " |})
                 (fun _ => Some JNull))
              (summary_with_interval IvUndefined) initial_state (ItemsArray ["call mom"])
              "null" JNull eq_refl eq_refl eq_refl eq_refl)
    as [[Hraw _] [out [Hout [Hr [He [Hcats _]]]]]].
  split; [exact Hraw|].
  exists out. split; [exact Hout|]. split; [exact Hr|]. split; [exact He|].
  rewrite Hcats. vm_compute. reflexivity.
Defined.

(** ** The interval under repeated suggestions *)

Lemma fallback_interval_number (q : Q) :
  ~ (q == 0)%Q ->
  fallback_interval (IvNum q) = Z.max 15 (Math_round (q * (1 # 2))%Q).
Proof.
  intros Hq. unfold fallback_interval, Math_max. cbn [truthy_interval interval_to_number].
  assert (Hnz : Qeq_bool q 0 = false).
  { apply not_true_is_false. rewrite Qeq_bool_iff. exact Hq. }
  rewrite Hnz. reflexivity.
Qed.

(** For a supplied interval of at least 15 minutes the heuristic never
    suggests a longer one, and suggests a strictly shorter one as soon as
    the supplied interval exceeds 15; the floor 15 is kept as it is. *)
Theorem heuristic_interval_shrinks (q : Q) :
  (15 <= q)%Q ->
  (inject_Z (fallback_interval (IvNum q)) <= q)%Q /\
  ((15 < q)%Q -> (inject_Z (fallback_interval (IvNum q)) < q)%Q) /\
  ((q == 15)%Q -> fallback_interval (IvNum q) = 15).
Proof.
  intros Hq.
  assert (Hnz : ~ (q == 0)%Q) by (intros H0; lra).
  rewrite (fallback_interval_number q Hnz).
  destruct (Math_round_spec (q * (1 # 2))%Q) as [Hlow Hhigh].
  set (r := Math_round (q * (1 # 2))%Q) in *.
  assert (Hr : (inject_Z r <= q * (1 # 2) + (1 # 2))%Q) by lra.
  destruct (Z.max_spec 15 r) as [[Hlt ->]|[Hge ->]].
  - split; [lra|]. split; [intros; lra|].
    intros H15. exfalso.
    assert (H : (inject_Z r <= inject_Z 8)%Q) by (change (inject_Z 8) with 8%Q; lra).
    rewrite <- Zle_Qle in H. lia.
  - change 15%Q with (inject_Z 15) in *.
    split; [exact Hq|]. split; [intros H; exact H|reflexivity].
Qed.

(** From 50 minutes the heuristic suggests 25. *)
Lemma fifty_minutes_become_twenty_five :
  fallback_interval (IvNum (inject_Z 50)) = 25 /\
  (inject_Z (fallback_interval (IvNum (inject_Z 50))) < inject_Z 50)%Q.
Proof.
  split; [reflexivity|].
  destruct (heuristic_interval_shrinks (inject_Z 50)) as [_ [Hlt _]].
  - vm_compute. discriminate.
  - apply Hlt. reflexivity.
Defined.

Lemma next_interval_value (n : Z) :
  n <> 0 -> next_interval n = Z.max 15 ((n + 1) / 2).
Proof.
  intros Hn. unfold next_interval.
  rewrite fallback_interval_number, Math_round_half; [reflexivity|].
  unfold Qeq, inject_Z. cbn. lia.
Qed.

(** Fed back to the heuristic again and again, a whole number of minutes
    between 15 and 15 * 2^k is down at the floor of 15 after k rounds,
    and stays there. *)
Theorem heuristic_interval_reaches_floor (k : nat) (n : Z) :
  15 <= n <= 15 * 2 ^ Z.of_nat k ->
  Nat.iter k next_interval n = 15 /\ next_interval 15 = 15.
Proof.
  intros Hn. split; [|reflexivity].
  revert n Hn. induction k as [|k IH]; intros n Hn.
  - cbn in *. lia.
  - rewrite Nat.iter_succ_r. apply IH.
    rewrite next_interval_value by lia.
    rewrite Nat2Z.inj_succ, Z.pow_succ_r in Hn by lia.
    split; [lia|].
    set (p := 2 ^ Z.of_nat k) in *.
    assert (Hp : 0 < p) by (apply Z.pow_pos_nonneg; lia).
    apply Z.max_lub; [lia|].
    assert (Hhalf : (n + 1) / 2 < 15 * p + 1) by (apply Z.div_lt_upper_bound; lia).
    lia.
Qed.

(** 100 minutes: 50, 25, 15. *)
Lemma hundred_minutes_reach_floor_in_three :
  Nat.iter 3 next_interval 100 = 15.
Proof.
  apply (heuristic_interval_reaches_floor 3 100). cbn. lia.
Defined.

(** * Further properties of the organizer *)

(** ** The order and number of the buckets *)

Lemma filter_compose {A : Type} (P Q : A -> bool) (l : list A) :
  List.filter P (List.filter Q l) = List.filter (fun x => P x && Q x) l.
Proof.
  induction l as [|x l IH]; [reflexivity|]. cbn [List.filter].
  destruct (Q x); cbn [List.filter]; rewrite ?andb_true_r, ?andb_false_r.
  - destruct (P x); rewrite IH; reflexivity.
  - exact IH.
Qed.

Lemma filter_all {A : Type} (P : A -> bool) (l : list A) :
  (forall x, P x = true) -> List.filter P l = l.
Proof.
  intros H. induction l as [|x l IH]; [reflexivity|].
  cbn [List.filter]. rewrite H, IH. reflexivity.
Qed.

Lemma labels_from (entries : list string) (cats : list (string * list string)) :
  map fst (fold_left categorize_item entries cats)
  = map fst cats
    ++ List.filter (fun l => negb (existsb (String.eqb l) (map fst cats)))
         (first_occurrences (map bucket_label (nonblank_texts entries))).
Proof.
  revert cats. induction entries as [|e entries IH]; intros cats.
  - cbn. rewrite app_nil_r. reflexivity.
  - cbn [fold_left]. rewrite IH. unfold categorize_item, nonblank_texts.
    cbn [map List.filter]. fold (nonblank_texts entries).
    destruct (truthy_str (trim e)) eqn:Hblank; cbn [negb]; [|reflexivity].
    cbn [map first_occurrences List.filter].
    set (l := bucket_label (trim e)).
    set (rest := first_occurrences (map bucket_label (nonblank_texts entries))).
    rewrite push_category_labels.
    destruct (existsb (String.eqb l) (map fst cats)) eqn:Hin; cbn [negb].
    + f_equal. rewrite filter_compose. apply List.filter_ext. intros y.
      destruct (String.eqb_spec l y) as [<-|Hne]; cbn [negb].
      * rewrite Hin. reflexivity.
      * rewrite andb_true_r. reflexivity.
    + rewrite <- app_assoc. cbn [app]. f_equal. f_equal.
      rewrite filter_compose. apply List.filter_ext. intros y.
      rewrite existsb_app. cbn [existsb]. rewrite orb_false_r, negb_orb.
      rewrite (String.eqb_sym y l). reflexivity.
Qed.

Lemma bucket_label_known (text : string) : In (bucket_label text) ALL_LABELS.
Proof.
  rewrite bucket_label_rules. unfold ALL_LABELS, focusBuckets, MISCELLANEOUS.
  cbn [map fst app].
  repeat match goal with |- context [if ?c then _ else _] => destruct c end;
    cbn; tauto.
Qed.

(** The buckets come in the order in which their first item was handed
    in; there are at most five of them, each under one of the five
    labels. *)
Theorem buckets_in_order_of_first_item (entries : list string) :
  map fst (categories (fallbackBrainDump entries))
  = first_occurrences (map bucket_label (nonblank_texts entries)) /\
  (length (categories (fallbackBrainDump entries)) <= 5)%nat /\
  (forall label, In label (map fst (categories (fallbackBrainDump entries))) ->
     In label ["2-minute Wins"; "Prep & Planning"; "Deep Work"; "Personal Care";
               "Miscellaneous"]%string).
Proof.
  assert (Hknown : forall label,
            In label (map fst (categories (fallbackBrainDump entries))) ->
            In label ALL_LABELS).
  { intros label Hin. apply in_map_iff in Hin as [[l members] [Hl Hin]].
    cbn [fst] in Hl. subst l.
    destruct (bucket_members entries label members Hin) as [Hmem Hne].
    destruct members as [|x members]; [congruence|].
    assert (Hx : In x (members_of label (nonblank_texts entries)))
      by (rewrite <- Hmem; left; reflexivity).
    unfold members_of in Hx. apply filter_In in Hx as [_ Hx].
    apply String.eqb_eq in Hx. rewrite <- Hx. apply bucket_label_known. }
  split; [|split; [|exact Hknown]].
  - cbn [fallbackBrainDump categories]. unfold categorize. rewrite labels_from.
    cbn [map app]. apply filter_all. reflexivity.
  - rewrite <- (length_map fst).
    change 5%nat with (length ALL_LABELS).
    apply List.NoDup_incl_length; [apply categorize_NoDup|exact Hknown].
Qed.

(** ** The focus recommendation, in general *)

Lemma sort_by_size_nil (cats : list (string * list string)) :
  head (sort_by_size cats) = None -> cats = [].
Proof.
  destruct cats as [|x rest]; [reflexivity|].
  cbn [sort_by_size foldr]. fold (sort_by_size rest). rewrite insert_by_size_head.
  destruct (head (sort_by_size rest)) as [y|]; [|discriminate].
  destruct (length (snd y) <=? length (snd x))%nat; discriminate.
Qed.

Lemma sort_head_first_largest (cats : list (string * list string))
    (c : string * list string) :
  head (sort_by_size cats) = Some c ->
  exists pre post,
    cats = pre ++ c :: post /\
    Forall (fun c' => (bucket_size c' < bucket_size c)%nat) pre /\
    Forall (fun c' => (bucket_size c' <= bucket_size c)%nat) post.
Proof.
  unfold bucket_size.
  revert c. induction cats as [|x rest IH]; intros c; [discriminate|].
  cbn [sort_by_size foldr]. fold (sort_by_size rest). rewrite insert_by_size_head.
  destruct (head (sort_by_size rest)) as [y|] eqn:Hhead.
  - destruct (IH y eq_refl) as [pre [post [Hrest [Hpre Hpost]]]].
    destruct (Nat.leb_spec (length (snd y)) (length (snd x))) as [Hle|Hgt];
      intros [= <-].
    + exists [], rest. split; [reflexivity|]. split; [constructor|].
      rewrite Hrest. apply Forall_app. split; [|constructor; [exact Hle|]].
      * eapply Forall_impl; [exact Hpre|]. cbn. intros; lia.
      * eapply Forall_impl; [exact Hpost|]. cbn. intros; lia.
    + exists (x :: pre), post. rewrite Hrest. split; [reflexivity|].
      split; [constructor; [exact Hgt|exact Hpre]|exact Hpost].
  - intros [= <-]. rewrite (sort_by_size_nil rest Hhead).
    exists [], []. repeat split; constructor.
Qed.

Lemma categorize_nonempty (entries : list string) :
  categorize entries = [] <-> nonblank_texts entries = [].
Proof.
  pose proof (categorize_total entries) as Htotal. split.
  - intros Hc. rewrite Hc in Htotal. cbn in Htotal.
    destruct (nonblank_texts entries); [reflexivity|discriminate].
  - intros Hb. rewrite Hb in Htotal. cbn [length] in Htotal.
    destruct (categorize entries) as [|[label members] rest] eqn:Hc; [reflexivity|].
    exfalso.
    assert (Hin : In (label, members) (categories (fallbackBrainDump entries))).
    { cbn [fallbackBrainDump categories]. rewrite Hc. left. reflexivity. }
    destruct (bucket_members entries label members Hin) as [_ Hne].
    unfold total_filed in Htotal. simpl in Htotal.
    destruct members; [congruence|]. simpl in Htotal. lia.
Qed.

(** With no item left after trimming, the focus is the stock sentence;
    otherwise it names a largest bucket, and among the largest the one
    created first. *)
Theorem focus_names_first_largest_bucket (entries : list string) :
  match nonblank_texts entries with
  | [] =>
      focusRecommendation (fallbackBrainDump entries)
      = "Choose one quick win task that takes under 5 minutes."%string
  | _ :: _ =>
      exists pre c post,
        categories (fallbackBrainDump entries) = pre ++ c :: post /\
        focusRecommendation (fallbackBrainDump entries)
        = "Start with one item from " +:+ quote_mark +:+ fst c +:+ quote_mark
          +:+ " today." /\
        Forall (fun c' => (bucket_size c' < bucket_size c)%nat) pre /\
        Forall (fun c' => (bucket_size c' <= bucket_size c)%nat) post
  end.
Proof.
  cbn [fallbackBrainDump focusRecommendation categories].
  destruct (nonblank_texts entries) as [|x rest] eqn:Hb.
  - rewrite (proj2 (categorize_nonempty entries) Hb). reflexivity.
  - destruct (head (sort_by_size (categorize entries))) as [c|] eqn:Hhead.
    + destruct (sort_head_first_largest _ c Hhead) as [pre [post [Hc [Hpre Hpost]]]].
      exists pre, c, post. repeat split; assumption.
    + apply sort_by_size_nil in Hhead. apply categorize_nonempty in Hhead. congruence.
Qed.

(** ** Blank items and padding *)

Lemma categorize_item_trim (cats : list (string * list string)) (e : string) :
  categorize_item cats (trim e) = categorize_item cats e.
Proof. unfold categorize_item. rewrite trim_idempotent. reflexivity. Qed.

Lemma categorize_nonblank (entries : list string) :
  categorize (nonblank_texts entries) = categorize entries.
Proof.
  unfold categorize. generalize (@nil (string * list string)) as cats.
  induction entries as [|e entries IH]; intros cats; [reflexivity|].
  unfold nonblank_texts. cbn [map List.filter fold_left]. fold (nonblank_texts entries).
  destruct (truthy_str (trim e)) eqn:Hblank.
  - cbn [fold_left]. rewrite categorize_item_trim. apply IH.
  - assert (Hskip : categorize_item cats e = cats)
      by (unfold categorize_item; rewrite Hblank; reflexivity).
    rewrite Hskip. apply IH.
Qed.

(** Two lists that agree once their items are trimmed and the blank ones
    dropped get the same buckets and the same focus; only the count in
    the summary can tell them apart. *)
Theorem padding_changes_only_the_count (entries1 entries2 : list string) :
  nonblank_texts entries1 = nonblank_texts entries2 ->
  categories (fallbackBrainDump entries1) = categories (fallbackBrainDump entries2) /\
  focusRecommendation (fallbackBrainDump entries1)
  = focusRecommendation (fallbackBrainDump entries2).
Proof.
  intros Hsame.
  assert (Hc : categorize entries1 = categorize entries2).
  { rewrite <- (categorize_nonblank entries1), <- (categorize_nonblank entries2), Hsame.
    reflexivity. }
  cbn [fallbackBrainDump categories focusRecommendation]. rewrite Hc. split; reflexivity.
Qed.

(** Padded and interleaved with blanks. *)
Lemma padded_list_same_buckets :
  categories (fallbackBrainDump ["  call mom "; EmptyString; "write report"; "   "])
  = categories (fallbackBrainDump ["call mom"; "write report"]) /\
  summary (fallbackBrainDump ["  call mom "; EmptyString; "write report"; "   "])
  <> summary (fallbackBrainDump ["call mom"; "write report"]).
Proof.
  split.
  - apply (padding_changes_only_the_count
             ["  call mom "; EmptyString; "write report"; "   "]
             ["call mom"; "write report"]).
    reflexivity.
  - vm_compute. discriminate.
Defined.

(** ** What the organizer answers *)

Lemma callOpenAI_nonempty (env : Env) (text : string) :
  callOpenAI env = Returned text -> truthy_str text = true.
Proof.
  unfold callOpenAI.
  destruct (negb (truthy_str (getApiKey env))); [discriminate|].
  destruct (fetch env) as [msg|r]; [discriminate|].
  destruct (negb (ok r)); [discriminate|].
  destruct (body_error r); [discriminate|].
  destruct (output_text r) as [raw|]; [|discriminate].
  destruct (truthy_str (trim raw)) eqn:Hne; cbn [negb]; [|discriminate].
  intros [= <-]. exact Hne.
Qed.

Lemma safeParse_truthy (env : Env) (text : string) :
  truthy (safeParse env text JNull) = true ->
  JSON_parse env text = Some (safeParse env text JNull).
Proof.
  unfold safeParse. destruct (negb (truthy_str text)); [discriminate|].
  destruct (JSON_parse env text); [reflexivity|discriminate].
Qed.

(** The organizer never rejects.  A heuristic answer has the buckets,
    focus and summary of the plain heuristic on the same items, whichever
    way it was reached, and at most one of the two diagnostics.  An answer
    taken from the model is the object or array the text of the answer
    parses to, obtained over the network without a forced fallback; the
    [rawResponse] set on it is the model's own when that reads as true,
    and the text of the answer when the model gave none or one that reads
    as false. *)
Theorem organizer_answers (env : Env) (s : GlobalState) (input : ItemsArg)
    (forceFallback : bool) :
  match snd (organizeBrainDump env s input forceFallback) with
  | Returned (Heuristic out) =>
      categories out = categories (fallbackBrainDump (normalize_items input)) /\
      focusRecommendation out
      = focusRecommendation (fallbackBrainDump (normalize_items input)) /\
      summary out = summary (fallbackBrainDump (normalize_items input)) /\
      (out_rawResponse out = None \/ out_error out = None)
  | Returned (FromModel parsed raw) =>
      has_fetch env = true /\ forceFallback = false /\
      is_object parsed = true /\ truthy raw = true /\
      exists text,
        callOpenAI env = Returned text /\ JSON_parse env text = Some parsed /\
        (forall own, get_prop "rawResponse" parsed = Some own -> truthy own = true ->
           raw = own) /\
        (forall own, get_prop "rawResponse" parsed = Some own -> truthy own = false ->
           raw = JStr text) /\
        (get_prop "rawResponse" parsed = None -> raw = JStr text)
  | Threw _ => False
  end.
Proof.
  unfold organizeBrainDump. cbv zeta.
  destruct (has_fetch env), forceFallback; cbn [negb orb snd];
    try (repeat split; left; reflexivity).
  destruct (callOpenAI env) as [msg|text] eqn:Hcall.
  - cbn [snd]. repeat split. left. reflexivity.
  - destruct (negb (truthy (safeParse env text JNull))) eqn:Htruthy; cbn [snd].
    + repeat split. right. reflexivity.
    + apply negb_false_iff in Htruthy.
      destruct (is_object (safeParse env text JNull)) eqn:Hobj; cbn [snd].
      * split; [reflexivity|]. split; [reflexivity|]. split; [exact Hobj|]. split.
        -- destruct (get_prop "rawResponse" (safeParse env text JNull)) as [r|] eqn:Hr.
           ++ destruct (truthy r) eqn:Htr; [exact Htr|].
              apply (callOpenAI_nonempty env text Hcall).
           ++ apply (callOpenAI_nonempty env text Hcall).
        -- exists text. split; [reflexivity|].
           split; [apply safeParse_truthy, Htruthy|].
           destruct (get_prop "rawResponse" (safeParse env text JNull)) as [r|] eqn:Hr.
           ++ split; [|split]; [| |discriminate].
              ** intros own [= <-] Htr. rewrite Htr. reflexivity.
              ** intros own [= <-] Htr. rewrite Htr. reflexivity.
           ++ split; [|split]; [discriminate|discriminate|reflexivity].
      * repeat split. left. reflexivity.
Qed.

(** The model answers an object with a raw response of its own, and one
    without. *)
Example model_raw_response_kept :
  let reply := fun own =>
    online_with
      (FetchResponse {| ok := true; status := 200; error_message := None;
                        body_error := None; output_text := Some "{...}" |})
      (fun _ => Some (JObj own)) in
  snd (organizeBrainDump (reply [("rawResponse"%string, JStr "mine")]) initial_state
         (ItemsArray ["call mom"]) false)
  = Returned (FromModel (JObj [("rawResponse"%string, JStr "mine")]) (JStr "mine")) /\
  snd (organizeBrainDump (reply [("rawResponse"%string, JStr EmptyString)]) initial_state
         (ItemsArray ["call mom"]) false)
  = Returned (FromModel (JObj [("rawResponse"%string, JStr EmptyString)]) (JStr "{...}")) /\
  snd (organizeBrainDump (reply []) initial_state (ItemsArray ["call mom"]) false)
  = Returned (FromModel (JObj []) (JStr "{...}")).
Proof. cbv zeta. repeat split; vm_compute; reflexivity. Qed.

(** * Properties of the storage helpers *)

Lemma storage_keys_differ : Store.STORAGE_KEY <> Store.API_KEY_STORAGE.
Proof. vm_compute. discriminate. Qed.

Lemma getApiKey_lookup (items : gmap string string)
    (accepts : gmap string string -> string -> string -> bool) :
  Store.getApiKey (Store.Working items accepts)
  = default EmptyString (items !! Store.API_KEY_STORAGE).
Proof.
  cbn [Store.getApiKey]. destruct (items !! Store.API_KEY_STORAGE) as [[|c k]|]; reflexivity.
Qed.

(** The key that was set is the key that is read, on a storage that
    takes the write; setting the empty key always leaves the empty key to
    read; a storage that is missing or denied reads as the empty key and
    ignores writes; and a refused write changes nothing. *)
Theorem api_key_round_trip (ls : Store.LocalStorage) (key : string) :
  Store.getApiKey (Store.setApiKey ls EmptyString) = EmptyString /\
  (forall items accepts,
     ls = Store.Working items accepts ->
     accepts items Store.API_KEY_STORAGE key = true ->
     Store.getApiKey (Store.setApiKey ls key) = key) /\
  (forall items accepts,
     ls = Store.Working items accepts -> key <> EmptyString ->
     accepts items Store.API_KEY_STORAGE key = false ->
     Store.setApiKey ls key = ls) /\
  (ls = Store.Absent \/ ls = Store.Denied ->
     Store.setApiKey ls key = ls /\ Store.getApiKey ls = EmptyString).
Proof.
  split; [|split; [|split]].
  - destruct ls as [| |items accepts]; try reflexivity.
    cbn [Store.setApiKey truthy_str negb]. rewrite getApiKey_lookup, lookup_delete_eq.
    reflexivity.
  - intros items accepts -> Hok. cbn [Store.setApiKey].
    destruct key as [|c k]; cbn [truthy_str negb].
    + rewrite getApiKey_lookup, lookup_delete_eq. reflexivity.
    + cbn [Store.setItem]. rewrite Hok, getApiKey_lookup, lookup_insert_eq. reflexivity.
  - intros items accepts -> Hne Hrefused. cbn [Store.setApiKey].
    apply truthy_str_spec in Hne. rewrite Hne. cbn [negb Store.setItem].
    rewrite Hrefused. reflexivity.
  - intros [-> | ->]; split; reflexivity.
Qed.

(** A storage that takes every write. *)
Lemma key_set_then_read :
  let ls := Store.Working ∅ (fun _ _ _ => true) in
  Store.getApiKey (Store.setApiKey ls "sk-test") = "sk-test"%string /\
  Store.getApiKey (Store.setApiKey (Store.setApiKey ls "sk-test") EmptyString)
  = EmptyString.
Proof.
  cbv zeta. split.
  - apply (proj1 (proj2 (api_key_round_trip
                           (Store.Working ∅ (fun _ _ _ => true)) "sk-test"))
             ∅ (fun _ _ _ => true) eq_refl eq_refl).
  - apply (proj1 (api_key_round_trip
                    (Store.setApiKey (Store.Working ∅ (fun _ _ _ => true)) "sk-test")
                    EmptyString)).
Defined.

(** What is saved under a key is what is loaded from it, when the
    storage takes the write and the host's parser reads back what its
    serializer wrote; a refused write leaves the earlier value to load. *)
Theorem saved_value_is_loaded (env : Env) (stringify : json -> string)
    (items : gmap string string)
    (accepts : gmap string string -> string -> string -> bool)
    (key : string) (value fallback : json) :
  stringify value <> EmptyString ->
  JSON_parse env (stringify value) = Some value ->
  (accepts items key (stringify value) = true ->
     Store.getFromStorage env
       (Store.saveToStorage stringify (Store.Working items accepts) key value) key fallback
     = value) /\
  (accepts items key (stringify value) = false ->
     Store.getFromStorage env
       (Store.saveToStorage stringify (Store.Working items accepts) key value) key fallback
     = Store.getFromStorage env (Store.Working items accepts) key fallback).
Proof.
  intros Hne Hparse. unfold Store.saveToStorage, Store.setItem. split; intros ->.
  - cbn [Store.getFromStorage]. rewrite lookup_insert_eq. unfold safeParse.
    apply truthy_str_spec in Hne. rewrite Hne, Hparse. reflexivity.
  - reflexivity.
Qed.

(** A host whose serializer writes null and whose parser reads it. *)
Lemma null_saved_then_loaded :
  Store.getFromStorage (online_with (FetchRejected "unused") (fun _ => Some JNull))
    (Store.saveToStorage (fun _ : json => "null"%string)
       (Store.Working ∅ (fun _ _ _ => true)) "k" JNull)
    "k" (JObj [])
  = JNull.
Proof.
  apply (saved_value_is_loaded
           (online_with (FetchRejected "unused") (fun _ => Some JNull))
           (fun _ : json => "null"%string) ∅ (fun _ _ _ => true) "k" JNull (JObj [])).
  - discriminate.
  - reflexivity.
  - reflexivity.
Defined.

(** Loading never fails: without a readable storage, without the key, or
    with a text that is empty or does not parse, the fallback is the
    answer; otherwise the parsed value is. *)
Theorem load_answers_fallback_or_parsed (env : Env) (ls : Store.LocalStorage)
    (key : string) (fallback : json) :
  (Store.stored ls key = None ->
     Store.getFromStorage env ls key fallback = fallback) /\
  (forall text, Store.stored ls key = Some text ->
     (text = EmptyString \/ JSON_parse env text = None) ->
     Store.getFromStorage env ls key fallback = fallback) /\
  (forall text v, Store.stored ls key = Some text ->
     text <> EmptyString -> JSON_parse env text = Some v ->
     Store.getFromStorage env ls key fallback = v).
Proof.
  destruct ls as [| |items accepts]; cbn [Store.stored Store.getFromStorage].
  - repeat split; intros; try reflexivity; discriminate.
  - repeat split; intros; try reflexivity; discriminate.
  - split; [intros ->; reflexivity|]. split.
    + intros text -> [->|Hparse]; unfold safeParse; [reflexivity|].
      rewrite Hparse. destruct (negb (truthy_str text)); reflexivity.
    + intros text v -> Hne Hparse. unfold safeParse.
      apply truthy_str_spec in Hne. rewrite Hne, Hparse. reflexivity.
Qed.

(** A stored text that is not JSON. *)
Lemma garbage_loads_as_fallback :
  Store.getFromStorage (offline_at 0)
    (Store.Working {[ Store.STORAGE_KEY := "{oops"%string ]} (fun _ _ _ => true))
    Store.STORAGE_KEY (JObj [])
  = JObj [].
Proof.
  apply (proj1 (proj2 (load_answers_fallback_or_parsed (offline_at 0)
                         (Store.Working {[ Store.STORAGE_KEY := "{oops"%string ]}
                            (fun _ _ _ => true))
                         Store.STORAGE_KEY (JObj []))) "{oops"%string).
  - reflexivity.
  - right. reflexivity.
Defined.

(** The key and the state have slots of their own: persisting the state
    never changes the key that is read, and setting or clearing the key
    never changes what is stored under any other name, the state
    included. *)
Theorem key_and_state_slots_are_separate (ls : Store.LocalStorage)
    (stringify : GlobalState -> string) (s : GlobalState) (key : string) :
  Store.getApiKey (Store.persistState stringify ls s) = Store.getApiKey ls /\
  Store.stored (Store.setApiKey ls key) Store.STORAGE_KEY
  = Store.stored ls Store.STORAGE_KEY /\
  (forall env fallback,
     Store.getFromStorage env (Store.setApiKey ls key) Store.STORAGE_KEY fallback
     = Store.getFromStorage env ls Store.STORAGE_KEY fallback) /\
  (forall name, name <> Store.API_KEY_STORAGE ->
     Store.stored (Store.setApiKey ls key) name = Store.stored ls name).
Proof.
  pose proof storage_keys_differ as Hdiff.
  assert (Hother : forall name, name <> Store.API_KEY_STORAGE ->
            Store.stored (Store.setApiKey ls key) name = Store.stored ls name).
  { intros name Hname. destruct ls as [| |items accepts]; try reflexivity.
    cbn [Store.setApiKey]. destruct (negb (truthy_str key)); cbn [Store.stored Store.setItem].
    - apply lookup_delete_ne. congruence.
    - destruct (accepts items Store.API_KEY_STORAGE key); cbn [Store.stored];
        [apply lookup_insert_ne; congruence|reflexivity]. }
  split; [|split; [|split]].
  - destruct ls as [| |items accepts]; try reflexivity.
    unfold Store.persistState, Store.saveToStorage, Store.setItem.
    destruct (accepts items Store.STORAGE_KEY (stringify s)); [|reflexivity].
    rewrite !getApiKey_lookup, lookup_insert_ne by exact Hdiff. reflexivity.
  - apply Hother. exact Hdiff.
  - intros env fallback. pose proof (Hother _ Hdiff) as Hsame.
    destruct ls as [| |items accepts]; try reflexivity.
    cbn [Store.setApiKey] in *.
    destruct (negb (truthy_str key)); cbn [Store.stored Store.setItem Store.getFromStorage] in *.
    + rewrite Hsame. reflexivity.
    + destruct (accepts items Store.API_KEY_STORAGE key);
        cbn [Store.stored Store.getFromStorage] in *; [rewrite Hsame|]; reflexivity.
  - exact Hother.
Qed.

(** Clearing the key keeps a saved state in place. *)
Lemma clearing_key_keeps_state :
  let ls := Store.Working {[ Store.STORAGE_KEY := "{}"%string;
                             Store.API_KEY_STORAGE := "sk-test"%string ]}
              (fun _ _ _ => true) in
  Store.stored (Store.setApiKey ls EmptyString) Store.STORAGE_KEY = Some "{}"%string /\
  Store.getApiKey (Store.setApiKey ls EmptyString) = EmptyString.
Proof.
  cbv zeta. split.
  - rewrite (proj1 (proj2 (key_and_state_slots_are_separate
                             (Store.Working {[ Store.STORAGE_KEY := "{}"%string;
                                               Store.API_KEY_STORAGE := "sk-test"%string ]}
                                (fun _ _ _ => true))
                             (fun _ => EmptyString) initial_state EmptyString))).
    vm_compute. reflexivity.
  - vm_compute. reflexivity.
Defined.

(** * Further runs of the tracker *)

(** A [complete] or a [snooze] of a task whose id names no inherited
    property is never answered with a suggestion, nor rejected: it
    returns [null] and leaves the stored suggestion of the task as it
    was.  Under an id that names an inherited property and holds no
    stored task, the same call is rejected. *)
Theorem completion_never_suggests (env : Env) (s : GlobalState) (a : ReminderArgs) :
  arg_taskId a <> EmptyString ->
  arg_action a = "complete"%string \/ arg_action a = "snooze"%string ->
  (inherited (arg_taskId a) = false \/ is_Some (tasks s !! arg_taskId a) ->
     snd (recordReminderInteraction env s a) = Returned None) /\
  (inherited (arg_taskId a) = true -> tasks s !! arg_taskId a = None ->
     threw (snd (recordReminderInteraction env s a)) = true) /\
  getLastSuggestion (fst (recordReminderInteraction env s a)) (arg_taskId a)
  = getLastSuggestion s (arg_taskId a).
Proof.
  intros Ht Hact.
  assert (Hvalid : valid_args a = true).
  { apply valid_args_spec. split; [exact Ht|]. destruct Hact as [-> | ->]; discriminate. }
  assert (Hdue : suggestion_due env s a = false).
  { apply not_true_is_false. rewrite suggestion_due_spec, update_skips_counter.
    destruct Hact as [-> | ->]; cbn; lia. }
  split; [|split].
  - intros Hown.
    assert (Hv : accepted s a = true).
    { apply accepted_spec. split; [exact Hvalid|].
      destruct Hown as [Hi|[ts Hts]];
        [apply not_inherited_not_blocked, Hi | apply (stored_not_blocked _ _ _ Hts)]. }
    rewrite (result_of_record _ _ _ Hv), Hdue. reflexivity.
  - intros Hi Hnone. apply record_refused_result.
    unfold accepted, blocked. rewrite Hnone, Hi. apply andb_false_r.
  - unfold getLastSuggestion. destruct (accepted s a) eqn:Hv.
    + rewrite (lastSuggestion_after_record _ _ _ Hv), Hdue. reflexivity.
    + rewrite (record_refused_state _ _ _ Hv). reflexivity.
Qed.

(** Four skips, throttled since the third; long after the hour a snooze
    is not answered, while an action the counter ignores is. *)
Lemma snooze_unanswered_other_action_answered :
  let env := offline_at 1700000000000 in
  let later := offline_at 1707200000000 in
  let s := run initial_state
             [OpRecord env (call "t" "skip"); OpRecord env (call "t" "skip");
              OpRecord env (call "t" "skip"); OpRecord env (call "t" "skip")] in
  snd (recordReminderInteraction later s (call "t" "snooze")) = Returned None /\
  is_suggestion (snd (recordReminderInteraction later s (call "t" "open"))).
Proof.
  cbv zeta. split.
  - apply (completion_never_suggests (offline_at 1707200000000)).
    + discriminate.
    + right. reflexivity.
    + left. reflexivity.
  - eexists. vm_compute. reflexivity.
Defined.

(** After a reset the next interaction of the task, its id naming no
    inherited property, starts afresh: its history holds that one entry,
    its counter is 1 for a skip and 0 otherwise, its stamp is 0, and no
    suggestion is returned or kept. *)
Theorem reset_restarts_task (env : Env) (s : GlobalState) (a : ReminderArgs) :
  arg_taskId a <> EmptyString -> arg_action a <> EmptyString ->
  inherited (arg_taskId a) = false ->
  let r := recordReminderInteraction env (resetTaskHistory s (arg_taskId a)) a in
  snd r = Returned None /\
  getLastSuggestion (fst r) (arg_taskId a) = Missing /\
  exists ts,
    tasks (fst r) !! arg_taskId a = Some ts /\
    history ts = [entry_of env a] /\
    consecutiveSkips ts = (if String.eqb (arg_action a) "skip" then 1 else 0) /\
    lastSuggestionTimestamp ts = 0.
Proof.
  intros Ht Ha Hi r.
  pose proof (accepted_not_inherited (resetTaskHistory s (arg_taskId a)) a Ht Ha Hi) as Hv.
  assert (Hp : prior_task (resetTaskHistory s (arg_taskId a)) (arg_taskId a)
               = new_task_state).
  { unfold prior_task. rewrite (reset_absent s _ Ht). reflexivity. }
  assert (Hcount : consecutiveSkips
                     (update_skips (arg_action a)
                        (prior_task (resetTaskHistory s (arg_taskId a)) (arg_taskId a)))
                   = if String.eqb (arg_action a) "skip" then 1 else 0).
  { rewrite update_skips_counter, Hp. cbn [consecutiveSkips new_task_state].
    destruct (String.eqb (arg_action a) "skip"); [reflexivity|].
    destruct (String.eqb (arg_action a) "complete" || String.eqb (arg_action a) "snooze");
      reflexivity. }
  assert (Hdue : suggestion_due env (resetTaskHistory s (arg_taskId a)) a = false).
  { apply not_true_is_false. rewrite suggestion_due_spec, Hcount.
    destruct (String.eqb (arg_action a) "skip"); lia. }
  unfold r, getLastSuggestion.
  rewrite (result_of_record _ _ _ Hv), (lastSuggestion_after_record _ _ _ Hv),
    (tasks_after_record _ _ _ Hv), Hdue, lookup_insert_eq.
  split; [reflexivity|]. split.
  - apply get_property_missing. split; [|exact Hi].
    rewrite (reset_truthy s _ Ht). cbn [lastSuggestion]. apply lookup_delete_eq.
  - eexists. split; [reflexivity|].
    rewrite task_after_history, task_after_skips, task_after_last, Hdue, Hcount, Hp.
    repeat split.
Qed.

(** A skip right after resetting a task that had a suggestion. *)
Lemma skip_after_reset_starts_at_one :
  let env := offline_at 1700000000000 in
  let s := run initial_state
             [OpRecord env (call "t" "skip"); OpRecord env (call "t" "skip");
              OpRecord env (call "t" "skip")] in
  getLastSuggestion s "t" <> Missing /\
  consecutiveSkips
    (prior_task (fst (recordReminderInteraction env (resetTaskHistory s "t")
                        (call "t" "skip"))) "t") = 1.
Proof.
  cbv zeta. split; [vm_compute; discriminate|].
  destruct (reset_restarts_task (offline_at 1700000000000)
              (run initial_state
                 [OpRecord (offline_at 1700000000000) (call "t" "skip");
                  OpRecord (offline_at 1700000000000) (call "t" "skip");
                  OpRecord (offline_at 1700000000000) (call "t" "skip")])
              (call "t" "skip")) as [_ [_ [ts [Hts [_ [Hcount _]]]]]].
  - discriminate.
  - discriminate.
  - reflexivity.
  - unfold prior_task. cbn [arg_taskId call] in Hts. rewrite Hts. exact Hcount.
Defined.

(** Without a key the suggestion carries the message of the missing key
    and no raw response. *)
Lemma missing_key_sets_error_only :
  error (generateReminderAdjustments keyless (summary_with_interval IvUndefined) false)
  = Some MISSING_KEY /\
  rawResponse (generateReminderAdjustments keyless (summary_with_interval IvUndefined) false)
  = None.
Proof.
  destruct (generator_paths keyless (summary_with_interval IvUndefined) false)
    as [_ [_ [Herr [_ [Hone _]]]]].
  assert (He : error (generateReminderAdjustments keyless
                        (summary_with_interval IvUndefined) false) = Some MISSING_KEY)
    by (apply Herr; split; reflexivity).
  split; [exact He|].
  destruct Hone as [Hnone|Hnone]; [congruence|exact Hnone].
Defined.

(** The text of the answer comes back without its padding. *)
Lemma padded_answer_is_trimmed :
  let env := online_with
               (FetchResponse {| ok := true; status := 200; error_message := None;
                                 body_error := None; output_text := Some "  {}  " |})
               (fun _ => None) in
  callOpenAI env = Returned "{}" /\ trimmed "{}".
Proof.
  cbv zeta.
  assert (Hret : callOpenAI
                   (online_with
                      (FetchResponse {| ok := true; status := 200; error_message := None;
                                        body_error := None; output_text := Some "  {}  " |})
                      (fun _ => None)) = Returned "{}")
    by (vm_compute; reflexivity).
  split; [exact Hret|].
  apply (proj2 (client_returns_trimmed_text _ "{}") Hret).
Defined.

(** Three items, the second bucket first seen last. *)
Lemma bucket_order_follows_items :
  map fst (categories (fallbackBrainDump ["write a"; "zzz"; "write b"; "call c"]))
  = ["Deep Work"; "Miscellaneous"; "2-minute Wins"]%string.
Proof.
  rewrite (proj1 (buckets_in_order_of_first_item ["write a"; "zzz"; "write b"; "call c"])).
  vm_compute. reflexivity.
Defined.
